(** * MetricsMind: the metrics engine and its result cache

    A shallow embedding of [server/services/metricsService.js] (class
    [MetricsService]), of [planSchema.methods.getMonthlyPrice] from the Plan
    model, and of the parts of the Customer model the service reads.

    Modelling conventions.
    - A JavaScript number is a value of [num]: an exact rational, or one of
      the three non-finite values that a division by zero (or arithmetic on
      its result) produces.  Rounding, overflow and the sign of zero are not
      modelled.
    - A [Date] is its time value, a [Z] of milliseconds since the epoch.  The
      calendar functions follow ECMAScript ([MakeDay], [YearFromTime],
      [MonthFromTime]) over the proleptic Gregorian calendar; the local time
      zone is a fixed offset [tza] (no daylight saving).  Every [date]
      argument is a valid [Date] and is given (the default [new Date()] of
      the methods is the caller's business).
    - The service's [Map] is a [gmap] from the key string to the cached value
      and its timestamp.  The service and its callers only read the objects
      they get from the cache ([getAllMetrics] spreads them into new ones),
      so a cached object is modelled by its value.
    - An [async] method is a function from the cache to a result and the new
      cache; [await] is the bind of that monad.  The store and the clock
      are fixed for the duration of one call, and the calls of a
      [Promise.all] run one after the other, in the order of the array.
    - The store is the list of the Customer documents, with the plan of each
      populated, and the set of queries it fails on.
    - [getHistoricalData] and [getCustomerGrowth] cache arrays under keys
      of their own ([historical_...], [customer_growth_...]), which are
      never keys of a metric: the [Map] is modelled by one [gmap] for each
      kind of value it holds.  Their [months] is an integer.
    - Of the other methods of the models, those that compute are embedded:
      [annualPrice] of the Plan model, [ageInMonths] of the Customer model,
      and [netAmount], [isOverdue] and [getDaysOverdue] of the Payment
      model ([server/models/Payment.js]). *)

From Stdlib Require Import ZArith QArith Lia Ascii String List Bool.
From stdpp Require Import gmap strings pretty.

Local Open Scope Z_scope.

(** ** Numbers *)

Module Num.

Inductive num : Type :=
  | Fin (q : Q)
  | PInf
  | NInf
  | NaN.

Definition Qzerob (q : Q) : bool := Qeq_bool q 0.
Definition Qposb (q : Q) : bool := negb (Qle_bool q 0).

Definition of_nat (n : nat) : num := Fin (inject_Z (Z.of_nat n)).
Definition of_Z (z : Z) : num := Fin (inject_Z z).

Definition is_finite (x : num) : bool :=
  match x with Fin _ => true | _ => false end.

Definition neg (x : num) : num :=
  match x with
  | Fin q => Fin (- q)%Q
  | PInf => NInf
  | NInf => PInf
  | NaN => NaN
  end.

(** [x + y] *)
Definition add (x y : num) : num :=
  match x, y with
  | NaN, _ | _, NaN => NaN
  | Fin a, Fin b => Fin (a + b)%Q
  | PInf, NInf | NInf, PInf => NaN
  | PInf, _ | _, PInf => PInf
  | NInf, _ | _, NInf => NInf
  end.

(** [x - y] *)
Definition sub (x y : num) : num := add x (neg y).

Definition inf_of_sign (positive : bool) : num :=
  if positive then PInf else NInf.

(** [x * y] *)
Definition mul (x y : num) : num :=
  match x, y with
  | NaN, _ | _, NaN => NaN
  | Fin a, Fin b => Fin (a * b)%Q
  | Fin a, PInf | PInf, Fin a =>
      if Qzerob a then NaN else inf_of_sign (Qposb a)
  | Fin a, NInf | NInf, Fin a =>
      if Qzerob a then NaN else inf_of_sign (negb (Qposb a))
  | PInf, PInf | NInf, NInf => PInf
  | PInf, NInf | NInf, PInf => NInf
  end.

(** [x / y]: a zero divisor gives a non-finite result, as in IEEE 754. *)
Definition div (x y : num) : num :=
  match x, y with
  | NaN, _ | _, NaN => NaN
  | Fin a, Fin b =>
      if Qzerob b then
        if Qzerob a then NaN else inf_of_sign (Qposb a)
      else Fin (a / b)%Q
  | Fin _, _ => Fin 0
  | PInf, Fin b => inf_of_sign (Qle_bool 0 b)
  | NInf, Fin b => inf_of_sign (negb (Qle_bool 0 b))
  | _, _ => NaN
  end.

(** [x > y] *)
Definition gt (x y : num) : bool :=
  match x, y with
  | NaN, _ | _, NaN => false
  | Fin a, Fin b => negb (Qle_bool a b)
  | PInf, PInf => false
  | PInf, _ => true
  | _, PInf => false
  | NInf, _ => false
  | _, NInf => true
  end.

(** [x === 0] *)
Definition is_zero (x : num) : bool :=
  match x with Fin q => Qzerob q | _ => false end.

(** The value denoted, up to the representation of the rational. *)
Definition eqb (x y : num) : bool :=
  match x, y with
  | Fin a, Fin b => Qeq_bool a b
  | PInf, PInf | NInf, NInf | NaN, NaN => true
  | _, _ => false
  end.

Definition eq (x y : num) : Prop :=
  match x, y with
  | Fin a, Fin b => (a == b)%Q
  | PInf, PInf | NInf, NInf | NaN, NaN => True
  | _, _ => False
  end.

End Num.

Import Num.

Declare Scope num_scope.
Delimit Scope num_scope with num.
Infix "+" := Num.add : num_scope.
Infix "-" := Num.sub : num_scope.
Infix "*" := Num.mul : num_scope.
Infix "/" := Num.div : num_scope.
Infix "≈" := Num.eq (at level 70, no associativity) : num_scope.

(** ** Dates *)

Module JsDate.

Definition msPerDay : Z := 86400000.

(** [Day(t)] *)
Definition Day (t : Z) : Z := t / msPerDay.

(** Days since the epoch of the civil date [y]-[m]-[d], [m] in 1..12. *)
Definition days_from_civil (y m d : Z) : Z :=
  let y' := if m <=? 2 then y - 1 else y in
  let era := y' / 400 in
  let yoe := y' - era * 400 in
  let mp := if 2 <? m then m - 3 else m + 9 in
  let doy := (153 * mp + 2) / 5 + d - 1 in
  let doe := yoe * 365 + yoe / 4 - yoe / 100 + doy in
  era * 146097 + doe - 719468.

(** The civil date (year, month in 1..12, day of month) of a day number. *)
Definition civil_from_days (z : Z) : Z * Z * Z :=
  let z' := z + 719468 in
  let era := z' / 146097 in
  let doe := z' - era * 146097 in
  let yoe := (doe - doe / 1460 + doe / 36524 - doe / 146096) / 365 in
  let doy := doe - (365 * yoe + yoe / 4 - yoe / 100) in
  let mp := (5 * doy + 2) / 153 in
  let d := doy - (153 * mp + 2) / 5 + 1 in
  let m := if mp <? 10 then mp + 3 else mp - 9 in
  let y := yoe + era * 400 in
  (if m <=? 2 then y + 1 else y, m, d).

(** [YearFromTime(t)] and [MonthFromTime(t)] (months count from 0). *)
Definition YearFromTime (t : Z) : Z := fst (fst (civil_from_days (Day t))).
Definition MonthFromTime (t : Z) : Z := snd (fst (civil_from_days (Day t))) - 1.
Definition DateFromTime (t : Z) : Z := snd (civil_from_days (Day t)).

(** [MakeDay(year, month, date)]: the month may lie outside 0..11 and the
    date outside the month; both carry over. *)
Definition MakeDay (year month date : Z) : Z :=
  let ym := year + month / 12 in
  let mn := month mod 12 in
  days_from_civil ym (mn + 1) 1 + date - 1.

(** The year the [Date] constructor takes for its first argument: one in
    0..99 means 1900 + year. *)
Definition fullYear (year : Z) : Z :=
  if (0 <=? year) && (year <=? 99) then 1900 + year else year.

Section LocalTime.
(** Offset of local time from UTC, in milliseconds. *)
Variable tza : Z.

Definition LocalTime (t : Z) : Z := t + tza.
Definition UTC (t : Z) : Z := t - tza.

(** [date.getFullYear()], [date.getMonth()] *)
Definition getFullYear (date : Z) : Z := YearFromTime (LocalTime date).
Definition getMonth (date : Z) : Z := MonthFromTime (LocalTime date).

(** [new Date(year, month, day)]: local midnight of that day. *)
Definition newDate (year month day : Z) : Z :=
  UTC (MakeDay (fullYear year) month day * msPerDay).
End LocalTime.

(** [n] as exactly [w] decimal digits (the low ones, zero padded). *)
Definition digit (n : Z) : ascii :=
  ascii_of_nat (48 + Z.to_nat (n mod 10)).

Fixpoint digits (w : nat) (n : Z) : string :=
  match w with
  | O => EmptyString
  | S w' => String.append (digits w' (n / 10)) (String (digit n) EmptyString)
  end.

(** [date.toISOString().slice(0, 7)]: the UTC year and month; a year outside
    0..9999 is printed with a sign and six digits, which fills the slice. *)
Definition isoMonth (date : Z) : string :=
  let y := YearFromTime date in
  let m := MonthFromTime date in
  let sign : string := if y <? 0 then "-"%string else "+"%string in
  if (0 <=? y) && (y <=? 9999) then
    String.append (digits 4 y) (String.append "-" (digits 2 (m + 1)))
  else
    String.append sign (digits 6 (Z.abs y)).

End JsDate.

Import JsDate.

(** ** Errors and results *)

(** What an [await] can throw: an error raised by the persistence layer, or
    the [TypeError] of a property access on [null] or [undefined]. *)
Inductive Error : Type :=
  | DbError (msg : string)
  | TypeError.

Inductive Result (A : Type) : Type :=
  | Ok (a : A)
  | Err (e : Error).

Arguments Ok {A} a.
Arguments Err {A} e.

Definition is_ok {A} (r : Result A) : bool :=
  match r with Ok _ => true | Err _ => false end.

(** ** Documents read by the service *)

Inductive Status : Type := active | churned | trial | suspended.

Definition Status_eqb (a b : Status) : bool :=
  match a, b with
  | active, active | churned, churned | trial, trial
  | suspended, suspended => true
  | _, _ => false
  end.

Inductive BillingCycle : Type := monthly | yearly | quarterly.

Record Plan : Type := {
  price : Q;
  billingCycle : BillingCycle
}.

(** [planSchema.methods.getMonthlyPrice]; the schema's [enum] leaves the
    [default] branch of the [switch] without a document to reach it. *)
Definition getMonthlyPrice (this : Plan) : num :=
  match billingCycle this with
  | monthly => Fin (price this)
  | quarterly => (Fin (price this) / of_Z 3)%num
  | yearly => (Fin (price this) / of_Z 12)%num
  end.

(** A customer as [find(...).populate('plan')] returns it: [plan] is the
    referenced document, or [None] ([null]) when it no longer exists. *)
Record Customer : Type := {
  userId : string;
  status : Status;
  plan : option Plan;
  subscriptionDate : Z;
  churnDate : option Z;
  acquisitionCost : option Q
}.

(** ** The persistence layer *)

(** One operator of a query condition on a date field. *)
Inductive Cond : Type :=
  | Gte (d : Z)
  | Lte (d : Z)
  | Lt (d : Z).

Definition holds (c : Cond) (v : Z) : bool :=
  match c with
  | Gte d => d <=? v
  | Lte d => v <=? d
  | Lt d => v <? d
  end.

(** The filter object of [find] and [countDocuments]: [userId] is always
    given; a missing [status] or an empty list of operators leaves the field
    unconstrained. *)
Record Filter : Type := {
  q_userId : string;
  q_status : option Status;
  q_subscriptionDate : list Cond;
  q_churnDate : list Cond
}.

(** A range condition never matches a missing ([null]) date. *)
Definition matches_date (cs : list Cond) (v : option Z) : bool :=
  match cs, v with
  | [], _ => true
  | _ :: _, None => false
  | _ :: _, Some d => forallb (fun c => holds c d) cs
  end.

Definition matches_status (s : option Status) (v : Status) : bool :=
  match s with
  | None => true
  | Some s' => Status_eqb s' v
  end.

Definition matches (q : Filter) (c : Customer) : bool :=
  String.eqb (q_userId q) (userId c)
  && matches_status (q_status q) (status c)
  && matches_date (q_subscriptionDate q) (Some (subscriptionDate c))
  && matches_date (q_churnDate q) (churnDate c).

(** The Customer collection, and which queries the store fails on. *)
Record Db : Type := {
  docs : list Customer;
  fault : Filter -> option Error
}.

Definition find (db : Db) (q : Filter) : Result (list Customer) :=
  match fault db q with
  | Some e => Err e
  | None => Ok (List.filter (matches q) (docs db))
  end.

Definition countDocuments (db : Db) (q : Filter) : Result nat :=
  match fault db q with
  | Some e => Err e
  | None => Ok (length (List.filter (matches q) (docs db)))
  end.

(** ** The cache layer *)

Record Entry (V : Type) : Type := {
  data : V;
  timestamp : Z
}.

Arguments data {V} e.
Arguments timestamp {V} e.

(** An [async] method over a cache of [V]: it returns or throws, and leaves
    the cache as its completed steps made it. *)
Definition M (V A : Type) : Type :=
  gmap string (Entry V) -> Result A * gmap string (Entry V).

Definition ret {V A} (a : A) : M V A := fun cache => (Ok a, cache).

Definition bind {V A B} (m : M V A) (f : A -> M V B) : M V B :=
  fun cache =>
    match m cache with
    | (Ok a, cache') => f a cache'
    | (Err e, cache') => (Err e, cache')
    end.

(** [await] of a call that does not touch the cache. *)
Definition lift {V A} (r : Result A) : M V A := fun cache => (r, cache).

Notation "'await' x <- m ; k" := (bind m (fun x => k))
  (at level 10, x name, m at level 100, k at level 200, only parsing).

(** [Promise.all]: every call runs, whether or not another one throws; the
    result is the list of values, or the error of the first call (in the
    order of the array) that threw. *)
Fixpoint promiseAll {V A} (ps : list (M V A)) : M V (list A) :=
  match ps with
  | [] => ret []
  | p :: ps' => fun cache =>
      let (r, cache1) := p cache in
      let (rs, cache2) := promiseAll ps' cache1 in
      (match r, rs with
       | Ok a, Ok l => Ok (a :: l)
       | Err e, _ => Err e
       | Ok _, Err e => Err e
       end, cache2)
  end.

Definition cacheTimeout : Z := 5 * 60 * 1000.

Section CacheLayer.
Context {V : Type}.

(** [clearCache()] *)
Definition clearCache (cache : gmap string (Entry V)) : gmap string (Entry V) :=
  ∅.

(** The lines of [getCachedOrCompute] after the test: run [computeFn],
    and store what it returns with the time of the call. *)
Definition computeAndStore (now : Z) (key : string)
    (computeFn : M V V) : M V V :=
  fun cache =>
    match computeFn cache with
    | (Ok d, cache') =>
        (Ok d, <[key := {| data := d; timestamp := now |}]> cache')
    | (Err e, cache') => (Err e, cache')
    end.

(** [getCachedOrCompute(key, computeFn)] *)
Definition getCachedOrCompute (now : Z) (key : string)
    (computeFn : M V V) : M V V :=
  fun cache =>
    match cache !! key with
    | Some cached =>
        if now - timestamp cached <? cacheTimeout
        then (Ok (data cached), cache)
        else computeAndStore now key computeFn cache
    | None => computeAndStore now key computeFn cache
    end.
End CacheLayer.

(** ** The metrics service *)

Record Metric : Type := {
  current : num;
  previous : num;
  growth : num
}.

Record AllMetrics : Type := {
  mrr : Metric;
  arr : Metric;
  churn : Metric;
  ltv : Metric;
  cac : Metric
}.

(** [customers.reduce((total, customer) =>
      total + customer.plan.getMonthlyPrice(), total)] *)
Fixpoint reduceMonthlyPrice (total : num) (customers : list Customer)
    : Result num :=
  match customers with
  | [] => Ok total
  | customer :: rest =>
      match plan customer with
      | Some p => reduceMonthlyPrice (total + getMonthlyPrice p)%num rest
      | None => Err TypeError
      end
  end.

(** [customer.acquisitionCost || 0] *)
Definition acquisitionCostOr0 (customer : Customer) : num :=
  match acquisitionCost customer with
  | Some q => if Qzerob q then Fin 0 else Fin q
  | None => Fin 0
  end.

(** [customers.reduce((total, customer) =>
      total + (customer.acquisitionCost || 0), total)] *)
Definition reduceAcquisitionCost (total : num) (customers : list Customer)
    : num :=
  fold_left (fun total customer => (total + acquisitionCostOr0 customer)%num)
            customers total.

(** [calculateGrowth] of [getAllMetrics] *)
Definition calculateGrowth (current previous : num) : num :=
  if is_zero previous then Fin 0
  else (((current - previous) / previous) * of_Z 100)%num.

(** The key of a metric's cache entry. *)
Definition cacheKey (metric userId : string) (date : Z) : string :=
  String.append metric
    (String.append "_" (String.append userId
      (String.append "_" (isoMonth date)))).

Section MetricsService.
Variable tza : Z.
Variable db : Db.
Variable now : Z.

Definition startOfMonth (date : Z) : Z :=
  newDate tza (getFullYear tza date) (getMonth tza date) 1.
Definition endOfMonth (date : Z) : Z :=
  newDate tza (getFullYear tza date) (getMonth tza date + 1) 0.
Definition prevMonth (date : Z) : Z :=
  newDate tza (getFullYear tza date) (getMonth tza date - 1) 1.
Definition prevMonthEnd (date : Z) : Z :=
  newDate tza (getFullYear tza date) (getMonth tza date) 0.

(** [getPreviousMRR(userId, currentDate)] *)
Definition getPreviousMRR (userId : string) (currentDate : Z)
    : M Metric num :=
  await activeCustomers <- lift (find db
    {| q_userId := userId; q_status := Some active;
       q_subscriptionDate := [Lte (prevMonthEnd currentDate)];
       q_churnDate := [] |});
  lift (reduceMonthlyPrice (Fin 0) activeCustomers).

(** [calculateMRR(userId, date)] *)
Definition calculateMRR (userId : string) (date : Z) : M Metric Metric :=
  let key := cacheKey "mrr" userId date in
  getCachedOrCompute now key (
    await activeCustomers <- lift (find db
      {| q_userId := userId; q_status := Some active;
         q_subscriptionDate := [Lte (endOfMonth date)];
         q_churnDate := [] |});
    await mrr <- lift (reduceMonthlyPrice (Fin 0) activeCustomers);
    await previous <- getPreviousMRR userId date;
    ret {| current := mrr; previous := previous; growth := Fin 0 |}).

(** [calculateARR(userId, date)] *)
Definition calculateARR (userId : string) (date : Z) : M Metric Metric :=
  await mrrData <- calculateMRR userId date;
  ret {| current := (current mrrData * of_Z 12)%num;
         previous := (previous mrrData * of_Z 12)%num;
         growth := growth mrrData |}.

(** [count > 0 ? (part / count) * 100 : 0] *)
Definition ratePercent (part count : nat) : num :=
  if (0 <? count)%nat
  then ((of_nat part / of_nat count) * of_Z 100)%num
  else Fin 0.

(** [calculateChurnRate(userId, date)] *)
Definition calculateChurnRate (userId : string) (date : Z)
    : M Metric Metric :=
  let key := cacheKey "churn" userId date in
  getCachedOrCompute now key (
    await customersAtStart <- lift (countDocuments db
      {| q_userId := userId; q_status := Some active;
         q_subscriptionDate := [Lt (startOfMonth date)];
         q_churnDate := [] |});
    await churnedCustomers <- lift (countDocuments db
      {| q_userId := userId; q_status := Some churned;
         q_subscriptionDate := [];
         q_churnDate := [Gte (startOfMonth date); Lte (endOfMonth date)] |});
    let churnRate := ratePercent churnedCustomers customersAtStart in
    await prevCustomersAtStart <- lift (countDocuments db
      {| q_userId := userId; q_status := Some active;
         q_subscriptionDate := [Lt (prevMonth date)];
         q_churnDate := [] |});
    await prevChurnedCustomers <- lift (countDocuments db
      {| q_userId := userId; q_status := Some churned;
         q_subscriptionDate := [];
         q_churnDate := [Gte (prevMonth date); Lte (prevMonthEnd date)] |});
    let prevChurnRate :=
      ratePercent prevChurnedCustomers prevCustomersAtStart in
    ret {| current := churnRate; previous := prevChurnRate;
           growth := (churnRate - prevChurnRate)%num |}).

(** [calculateLTV(userId, date)] *)
Definition calculateLTV (userId : string) (date : Z) : M Metric Metric :=
  let key := cacheKey "ltv" userId date in
  getCachedOrCompute now key (
    await churnData <- calculateChurnRate userId date;
    await mrrData <- calculateMRR userId date;
    await activeCustomers <- lift (find db
      {| q_userId := userId; q_status := Some active;
         q_subscriptionDate := []; q_churnDate := [] |});
    await totalRevenue <- lift (reduceMonthlyPrice (Fin 0) activeCustomers);
    let avgRevenuePerUser :=
      if (0 <? length activeCustomers)%nat
      then (totalRevenue / of_nat (length activeCustomers))%num
      else Fin 0 in
    let monthlyChurnRate := (current churnData / of_Z 100)%num in
    let ltv :=
      if gt monthlyChurnRate (Fin 0)
      then (avgRevenuePerUser / monthlyChurnRate)%num
      else Fin 0 in
    ret {| current := ltv; previous := Fin 0; growth := Fin 0 |}).

(** [calculateCAC(userId, date)] *)
Definition calculateCAC (userId : string) (date : Z) : M Metric Metric :=
  let key := cacheKey "cac" userId date in
  getCachedOrCompute now key (
    await newCustomers <- lift (find db
      {| q_userId := userId; q_status := None;
         q_subscriptionDate :=
           [Gte (startOfMonth date); Lte (endOfMonth date)];
         q_churnDate := [] |});
    let totalAcquisitionCost := reduceAcquisitionCost (Fin 0) newCustomers in
    let cac :=
      if (0 <? length newCustomers)%nat
      then (totalAcquisitionCost / of_nat (length newCustomers))%num
      else Fin 0 in
    ret {| current := cac; previous := Fin 0; growth := Fin 0 |}).

(** [{ ...m, growth: calculateGrowth(m.current, m.previous) }] *)
Definition withGrowth (m : Metric) : Metric :=
  {| current := current m; previous := previous m;
     growth := calculateGrowth (current m) (previous m) |}.

(** [getAllMetrics(userId, date)]; destructuring fewer than five values
    would leave a name [undefined], and reading it throws. *)
Definition getAllMetrics (userId : string) (date : Z)
    : M Metric AllMetrics :=
  await results <- promiseAll
    [ calculateMRR userId date;
      calculateARR userId date;
      calculateChurnRate userId date;
      calculateLTV userId date;
      calculateCAC userId date ];
  match results with
  | [mrr; arr; churn; ltv; cac] =>
      ret {| mrr := withGrowth mrr; arr := withGrowth arr;
             churn := withGrowth churn; ltv := withGrowth ltv;
             cac := withGrowth cac |}
  | _ => lift (Err TypeError)
  end.
End MetricsService.

(** ** Other methods of the models *)

(** [planSchema.virtual('annualPrice')]; as for [getMonthlyPrice], no
    document reaches the [default] branch. *)
Definition annualPrice (this : Plan) : num :=
  match billingCycle this with
  | monthly => (Fin (price this) * of_Z 12)%num
  | quarterly => (Fin (price this) * of_Z 4)%num
  | yearly => Fin (price this)
  end.

(** [Math.ceil(a / b)] for integers [a] and [b], [b] positive. *)
Definition ceilDiv (a b : Z) : Z := - ((- a) / b).

(** [customerSchema.virtual('ageInMonths')], read at the time [now]: a
    [Date] is truthy, so [this.churnDate || new Date()] is the churn date
    whenever there is one. *)
Definition ageInMonths (now : Z) (this : Customer) : Z :=
  let endDate := match churnDate this with
                 | Some d => d
                 | None => now
                 end in
  let startDate := subscriptionDate this in
  let diffTime := Z.abs (endDate - startDate) in
  let diffMonths := ceilDiv diffTime (1000 * 60 * 60 * 24 * 30) in
  diffMonths.

(** The Payment model: the fields its methods read. *)
Module Payment.

Inductive Status : Type := pending | completed | failed | refunded | cancelled.

Definition Status_eqb (a b : Status) : bool :=
  match a, b with
  | pending, pending | completed, completed | failed, failed
  | refunded, refunded | cancelled, cancelled => true
  | _, _ => false
  end.

Record t : Type := {
  amount : Q;
  refundAmount : Q;
  status : Status;
  dueDate : Z
}.

(** [paymentSchema.virtual('netAmount')] *)
Definition netAmount (this : t) : num :=
  (Fin (amount this) - Fin (refundAmount this))%num.

(** [isOverdue()], with the value [now] of its [new Date()]. *)
Definition isOverdue (now : Z) (this : t) : bool :=
  Status_eqb (status this) pending && (dueDate this <? now).

(** [getDaysOverdue()]: the clock is read twice, by [isOverdue()] ([now])
    and then for [diffTime] ([later]). *)
Definition getDaysOverdue (now later : Z) (this : t) : Z :=
  if negb (isOverdue now this) then 0
  else
    let diffTime := later - dueDate this in
    ceilDiv diffTime (1000 * 60 * 60 * 24).

End Payment.

(** ** The series of the service *)

(** An element of the array of [getHistoricalData]:
    [{ month, date, ...metrics }]. *)
Record HistoricalPoint : Type := {
  h_month : string;
  h_date : Z;
  h_metrics : AllMetrics
}.

(** An element of the array of [getCustomerGrowth]:
    [{ month, date, total, active, churned }]. *)
Record GrowthPoint : Type := {
  g_month : string;
  g_date : Z;
  g_total : nat;
  g_active : nat;
  g_churned : nat
}.

(** The values of [i] in [for (let i = months - 1; i >= 0; i--)], in the
    order of the loop; there is none when [months] is below 1. *)
Fixpoint countDown (n : nat) : list Z :=
  match n with
  | O => []
  | S n' => Z.of_nat n' :: countDown n'
  end.

Definition loopIndices (months : Z) : list Z := countDown (Z.to_nat months).

(** [for (...) { ...; data.push(...) } return data]: a loop whose turns
    await and push one element each; it ends at the first [await] that
    throws. *)
Fixpoint forEach {V A B} (l : list A) (body : A -> M V B) : M V (list B) :=
  match l with
  | [] => ret []
  | a :: l' =>
      await b <- body a;
      await data <- forEach l' body;
      ret (b :: data)
  end.

(** The key of a series: the name, the account and the integer [months] in
    decimal. *)
Definition seriesKey (name userId : string) (months : Z) : string :=
  String.append name
    (String.append "_" (String.append userId
      (String.append "_" (pretty months)))).

(** The [Map] of the service holds metrics under the keys of [cacheKey] and
    arrays under the keys of [seriesKey]; no key of one kind is a key of
    another (the names differ within their first two characters), so the
    [Map] is modelled by one map for each kind of value.  This is
    [getCachedOrCompute] for a key whose entries hold a [V], with a compute
    function that calls the metrics: the pair is the entries of the metrics
    and the entries of the [V]s. *)
Definition getCachedOrComputeSeries {V} (now : Z) (key : string)
    (computeFn : M Metric V)
    (cache : gmap string (Entry Metric) * gmap string (Entry V))
    : Result V * (gmap string (Entry Metric) * gmap string (Entry V)) :=
  let compute :=
    match computeFn cache.1 with
    | (Ok d, metrics') =>
        (Ok d, (metrics', <[key := {| data := d; timestamp := now |}]> cache.2))
    | (Err e, metrics') => (Err e, (metrics', cache.2))
    end in
  match cache.2 !! key with
  | Some cached =>
      if now - timestamp cached <? cacheTimeout
      then (Ok (data cached), cache)
      else compute
  | None => compute
  end.

Section MetricsSeries.
Variable tza : Z.
Variable db : Db.
Variable now : Z.

(** One turn of the loop of [getHistoricalData]; [currentDate] is
    [now]. *)
Definition historicalMonth (userId : string) (i : Z)
    : M Metric HistoricalPoint :=
  let currentDate := now in
  let date := newDate tza (getFullYear tza currentDate)
                (getMonth tza currentDate - i) 1 in
  await metrics <- getAllMetrics tza db now userId date;
  ret {| h_month := isoMonth date; h_date := date; h_metrics := metrics |}.

(** The compute function of [getHistoricalData]. *)
Definition historicalData (userId : string) (months : Z)
    : M Metric (list HistoricalPoint) :=
  forEach (loopIndices months) (historicalMonth userId).

(** [getHistoricalData(userId, months)] *)
Definition getHistoricalData (userId : string) (months : Z)
    (cache : gmap string (Entry Metric)
             * gmap string (Entry (list HistoricalPoint)))
    : Result (list HistoricalPoint)
      * (gmap string (Entry Metric)
         * gmap string (Entry (list HistoricalPoint))) :=
  let key := seriesKey "historical" userId months in
  getCachedOrComputeSeries now key (historicalData userId months) cache.

(** One turn of the loop of [getCustomerGrowth]; it does not use the
    cache. *)
Definition customerGrowthMonth (userId : string) (i : Z)
    : M (list GrowthPoint) GrowthPoint :=
  let currentDate := now in
  let date := newDate tza (getFullYear tza currentDate)
                (getMonth tza currentDate - i) 1 in
  let endOfMonth := newDate tza (getFullYear tza currentDate)
                      (getMonth tza currentDate - i + 1) 0 in
  await totalCustomers <- lift (countDocuments db
    {| q_userId := userId; q_status := None;
       q_subscriptionDate := [Lte endOfMonth]; q_churnDate := [] |});
  await activeCustomers <- lift (countDocuments db
    {| q_userId := userId; q_status := Some active;
       q_subscriptionDate := [Lte endOfMonth]; q_churnDate := [] |});
  await churnedCustomers <- lift (countDocuments db
    {| q_userId := userId; q_status := Some churned;
       q_subscriptionDate := []; q_churnDate := [Lte endOfMonth] |});
  ret {| g_month := isoMonth date; g_date := date;
         g_total := totalCustomers; g_active := activeCustomers;
         g_churned := churnedCustomers |}.

(** [getCustomerGrowth(userId, months)] *)
Definition getCustomerGrowth (userId : string) (months : Z)
    : M (list GrowthPoint) (list GrowthPoint) :=
  let key := seriesKey "customer_growth" userId months in
  getCachedOrCompute now key
    (forEach (loopIndices months) (customerGrowthMonth userId)).
End MetricsSeries.

(** ** Notions used to state the properties *)

(** The test of [getCachedOrCompute]: an entry exists and is strictly
    younger than the time-to-live. *)
Definition valid {V} (now : Z) (cached : option (Entry V)) : bool :=
  match cached with
  | Some e => now - timestamp e <? cacheTimeout
  | None => false
  end.

(** A compute function that leaves every key of the cache in place. *)
Definition keeps_keys {V A} (m : M V A) : Prop :=
  forall cache, dom cache ⊆ dom (m cache).2.

(** Pre- and postcondition of an [async] method: from a cache satisfying
    [I] it leaves a cache satisfying [I], and a value it returns satisfies
    [Q]. *)
Definition maintains {A} (I : gmap string (Entry Metric) -> Prop)
    (Q : A -> Prop) (m : M Metric A) : Prop :=
  forall cache, I cache ->
    I (m cache).2 /\ forall a, (m cache).1 = Ok a -> Q a.

(** The calls a client can make on the service's metrics. *)
Inductive Call : Type :=
  | CallMRR (userId : string) (date : Z)
  | CallARR (userId : string) (date : Z)
  | CallChurnRate (userId : string) (date : Z)
  | CallLTV (userId : string) (date : Z)
  | CallCAC (userId : string) (date : Z)
  | CallAllMetrics (userId : string) (date : Z)
  | CallClearCache.

(** The cache after a call made at time [now] against the store [db]. *)
Definition after (tza : Z) (db : Db) (now : Z) (call : Call)
    (cache : gmap string (Entry Metric)) : gmap string (Entry Metric) :=
  match call with
  | CallMRR u d => (calculateMRR tza db now u d cache).2
  | CallARR u d => (calculateARR tza db now u d cache).2
  | CallChurnRate u d => (calculateChurnRate tza db now u d cache).2
  | CallLTV u d => (calculateLTV tza db now u d cache).2
  | CallCAC u d => (calculateCAC tza db now u d cache).2
  | CallAllMetrics u d => (getAllMetrics tza db now u d cache).2
  | CallClearCache => clearCache cache
  end.

(** The caches of a running service: the constructor's empty map, and what
    any sequence of calls, at any times and against any contents of the
    store, makes of it. *)
Inductive reachable (tza : Z) : gmap string (Entry Metric) -> Prop :=
  | reachable_new : reachable tza ∅
  | reachable_call db now call cache :
      reachable tza cache -> reachable tza (after tza db now call cache).

Definition finite_metric (m : Metric) : Prop :=
  is_finite (current m) = true /\ is_finite (previous m) = true
  /\ is_finite (growth m) = true.

(** Every cached metric has finite fields. *)
Definition all_finite (cache : gmap string (Entry Metric)) : Prop :=
  forall key e, cache !! key = Some e -> finite_metric (data e).

(** Every entry under an MRR key has the growth the MRR computation gives. *)
Definition mrr_growth_zero (cache : gmap string (Entry Metric)) : Prop :=
  forall u d e, cache !! cacheKey "mrr" u d = Some e ->
    growth (data e) = Fin 0.

(** A key that is not the key of an MRR entry. *)
Definition not_mrr_key (key : string) : Prop :=
  forall u d, key <> cacheKey "mrr" u d.

(** The growth of a metric is the percentage change from [previous] to
    [current], and [0] when [previous] is [0]. *)
Definition growth_formula (m : Metric) : Prop :=
  (forall p, previous m = Fin p -> (p == 0)%Q -> growth m = Fin 0)
  /\ (forall c p, current m = Fin c -> previous m = Fin p -> ~ (p == 0)%Q ->
        growth m = Fin ((c - p) / p * 100)%Q).

(** *** The formulas of the metrics, over the rationals *)

(** The divisor table of the billing cycles. *)
Definition divisor (b : BillingCycle) : Q :=
  match b with
  | monthly => 1
  | quarterly => 3
  | yearly => 12
  end.

(** The price of a plan normalised to one month. *)
Definition normalizedPrice (p : Plan) : Q :=
  (price p / divisor (billingCycle p))%Q.

Definition customerPrice (c : Customer) : Q :=
  match plan c with
  | Some p => normalizedPrice p
  | None => 0
  end.

Fixpoint Qsum (l : list Q) : Q :=
  match l with
  | [] => 0
  | x :: l' => (x + Qsum l')%Q
  end.

(** A customer of the account with status [active]. *)
Definition isActive (u : string) (c : Customer) : bool :=
  String.eqb u (userId c) && Status_eqb active (status c).

(** The sum of the normalised prices of the account's active customers
    whose subscription started at or before [cutoff]. *)
Definition mrrAt (db : Db) (u : string) (cutoff : Z) : Q :=
  Qsum (map customerPrice
    (List.filter (fun c => isActive u c && (subscriptionDate c <=? cutoff))
       (docs db))).

(** Every active customer's plan reference resolves. *)
Definition plansPopulated (db : Db) : bool :=
  forallb (fun c => negb (Status_eqb active (status c))
                    || match plan c with Some _ => true | None => false end)
          (docs db).

(** The number of the account's active customers whose subscription started
    strictly before [start]. *)
Definition customersAtStart (db : Db) (u : string) (start : Z) : nat :=
  length (List.filter
    (fun c => isActive u c && (subscriptionDate c <? start)) (docs db)).

(** The number of the account's customers with status [churned] whose churn
    date lies in [[first, last]], both ends included. *)
Definition churnedWithin (db : Db) (u : string) (first last : Z) : nat :=
  length (List.filter
    (fun c => String.eqb u (userId c) && Status_eqb churned (status c)
              && match churnDate c with
                 | Some d => (first <=? d) && (d <=? last)
                 | None => false
                 end) (docs db)).

(** [part / count * 100], and [0] for a [count] of [0]. *)
Definition percentOf (part count : nat) : Q :=
  match count with
  | O => 0
  | S _ => (inject_Z (Z.of_nat part) / inject_Z (Z.of_nat count) * 100)%Q
  end.

(** The mean normalised price of the account's customers that are active
    now (no date enters), and [0] when there are none. *)
Definition avgRevenuePerUser (db : Db) (u : string) : Q :=
  let customers := List.filter (isActive u) (docs db) in
  match length customers with
  | O => 0
  | S _ => (Qsum (map customerPrice customers)
            / inject_Z (Z.of_nat (length customers)))%Q
  end.

(** [avg / rate] for a positive [rate], else [0]. *)
Definition ltvOf (avg rate : Q) : Q :=
  if Qlt_le_dec 0 rate then (avg / rate)%Q else 0.

(** The churn rate of the month of [date], in percent. *)
Definition churnRateOf (tza : Z) (db : Db) (u : string) (date : Z) : Q :=
  percentOf
    (churnedWithin db u (startOfMonth tza date) (endOfMonth tza date))
    (customersAtStart db u (startOfMonth tza date)).

(** *** The queries a computation sends *)

Definition mrrQueries (tza : Z) (u : string) (date : Z) : list Filter :=
  [ {| q_userId := u; q_status := Some active;
       q_subscriptionDate := [Lte (endOfMonth tza date)];
       q_churnDate := [] |};
    {| q_userId := u; q_status := Some active;
       q_subscriptionDate := [Lte (prevMonthEnd tza date)];
       q_churnDate := [] |} ].

Definition churnQueries (tza : Z) (u : string) (date : Z) : list Filter :=
  [ {| q_userId := u; q_status := Some active;
       q_subscriptionDate := [Lt (startOfMonth tza date)];
       q_churnDate := [] |};
    {| q_userId := u; q_status := Some churned;
       q_subscriptionDate := [];
       q_churnDate := [Gte (startOfMonth tza date);
                       Lte (endOfMonth tza date)] |};
    {| q_userId := u; q_status := Some active;
       q_subscriptionDate := [Lt (prevMonth tza date)];
       q_churnDate := [] |};
    {| q_userId := u; q_status := Some churned;
       q_subscriptionDate := [];
       q_churnDate := [Gte (prevMonth tza date);
                       Lte (prevMonthEnd tza date)] |} ].

Definition ltvQueries (tza : Z) (u : string) (date : Z) : list Filter :=
  [ {| q_userId := u; q_status := Some active;
       q_subscriptionDate := []; q_churnDate := [] |} ].

Definition cacQueries (tza : Z) (u : string) (date : Z) : list Filter :=
  [ {| q_userId := u; q_status := None;
       q_subscriptionDate := [Gte (startOfMonth tza date);
                              Lte (endOfMonth tza date)];
       q_churnDate := [] |} ].

Definition allQueries (tza : Z) (u : string) (date : Z) : list Filter :=
  mrrQueries tza u date ++ churnQueries tza u date
  ++ ltvQueries tza u date ++ cacQueries tza u date.

(** [e] is an error the store raised on one of the queries [qs], or the
    [TypeError] of reading the plan of a customer that has none. *)
Definition raised (db : Db) (qs : list Filter) (e : Error) : Prop :=
  e = TypeError \/ exists q, In q qs /\ fault db q = Some e.

(** The cache holds [v] (an entry, or nothing) under [key]. *)
Definition untouched (key : string) (v : option (Entry Metric))
    (cache : gmap string (Entry Metric)) : Prop :=
  cache !! key = v.

(** *** Accounts used in the examples *)

Definition utc : Z := 0.

(** Midnight UTC of a day given as year, month (1..12) and day. *)
Definition ymd (y m d : Z) : Z := newDate utc y (m - 1) d.

(** A time of day, in milliseconds. *)
Definition hms (h min s : Z) : Z := ((h * 60 + min) * 60 + s) * 1000.

Definition acct : string := "64b7f0c2a1d3e4f5a6b7c8d9".

Definition monthly100 : Plan := {| price := 100; billingCycle := monthly |}.
Definition yearly1200 : Plan := {| price := 1200; billingCycle := yearly |}.
Definition quarterly300 : Plan := {| price := 300; billingCycle := quarterly |}.

Definition subscriber (p : Plan) (since : Z) : Customer :=
  {| userId := acct; status := active; plan := Some p;
     subscriptionDate := since; churnDate := None;
     acquisitionCost := Some 30%Q |}.

Definition leaver (p : Plan) (since left : Z) : Customer :=
  {| userId := acct; status := churned; plan := Some p;
     subscriptionDate := since; churnDate := Some left;
     acquisitionCost := Some 30%Q |}.

(** A store that answers every query. *)
Definition healthy (customers : list Customer) : Db :=
  {| docs := customers; fault := fun _ => None |}.

(** One active customer on a monthly plan of 100, subscribed on the first of
    February 2024. *)
Definition soloDb : Db :=
  healthy [subscriber monthly100 (ymd 2024 2 1 + hms 9 30 0)].

(** Ten customers active since November 2023, and two that left in February
    2024. *)
Definition churnDb : Db :=
  healthy (List.repeat (subscriber monthly100 (ymd 2023 11 5)) 10
           ++ [leaver monthly100 (ymd 2023 11 5) (ymd 2024 2 10);
               leaver yearly1200 (ymd 2023 11 5) (ymd 2024 2 20)]).

(** Two customers active since June 2023, one that left in January 2024, and
    one that subscribed in February 2024. *)
Definition growthDb : Db :=
  healthy [subscriber monthly100 (ymd 2023 6 1);
           subscriber yearly1200 (ymd 2023 6 1);
           leaver monthly100 (ymd 2023 6 1) (ymd 2024 1 10);
           subscriber quarterly300 (ymd 2024 2 10)].

(** The same customers in a store that fails on queries without a status
    condition (the query of the CAC). *)
Definition brokenDb : Db :=
  {| docs := docs growthDb;
     fault := fun q => match q_status q with
                       | None => Some (DbError "connection reset")
                       | Some _ => None
                       end |}.

Definition jan15 : Z := ymd 2024 1 15 + hms 12 0 0.
Definition feb15 : Z := ymd 2024 2 15 + hms 12 0 0.

(** Two metrics with the same three numbers. *)
Definition metricEqb (a b : Metric) : bool :=
  Num.eqb (current a) (current b) && Num.eqb (previous a) (previous b)
  && Num.eqb (growth a) (growth b).

Definition metric (c p g : Q) : Metric :=
  {| current := Fin c; previous := Fin p; growth := Fin g |}.

(** The value of a result, or [d] for an error. *)
Definition valueOr {A} (d : A) (r : Result A) : A :=
  match r with
  | Ok a => a
  | Err _ => d
  end.

(** A compute function that counts its runs: each run bumps the number kept
    under the key ["runs"] and returns the number of the run. *)
Definition countingStub : M nat nat :=
  fun cache =>
    let n := match cache !! "runs"%string with
             | Some e => S (data e)
             | None => 1%nat
             end in
    (Ok n, <["runs"%string := {| data := n; timestamp := 0 |}]> cache).

(** A cache with one entry, written at time 1000. *)
Definition oneEntry : gmap string (Entry nat) :=
  {["k"%string := {| data := 7%nat; timestamp := 1000 |}]}.

Definition noMetrics : AllMetrics :=
  {| mrr := metric 0 0 0; arr := metric 0 0 0; churn := metric 0 0 0;
     ltv := metric 0 0 0; cac := metric 0 0 0 |}.

(** *** The formula of the CAC *)

(** A customer of the account, of any status, whose subscription started
    in [[first, last]], both ends included. *)
Definition isNewCustomer (u : string) (first last : Z) (c : Customer) : bool :=
  String.eqb u (userId c)
  && ((first <=? subscriptionDate c) && (subscriptionDate c <=? last)).

(** The acquisition cost recorded for a customer, [0] when there is none. *)
Definition customerCost (c : Customer) : Q :=
  match acquisitionCost c with
  | Some q => q
  | None => 0
  end.

(** The mean acquisition cost of the new customers, and [0] when there are
    none. *)
Definition cacOf (db : Db) (u : string) (first last : Z) : Q :=
  let customers := List.filter (isNewCustomer u first last) (docs db) in
  match length customers with
  | O => 0
  | S _ => (Qsum (map customerCost customers)
            / inject_Z (Z.of_nat (length customers)))%Q
  end.

(** Every acquisition cost recorded for the account lies in [[0, hi]]. *)
Definition costsWithin (db : Db) (u : string) (hi : Q) : Prop :=
  forall c q, In c (docs db) -> userId c = u -> acquisitionCost c = Some q ->
    (0 <= q <= hi)%Q.

(** *** Conditions on the store *)

(** The store answers each of the queries [qs]. *)
Definition answers (db : Db) (qs : list Filter) : Prop :=
  Forall (fun q => fault db q = None) qs.

(** The plan reference of every active customer of the account resolves. *)
Definition accountPopulated (db : Db) (u : string) : Prop :=
  Forall (fun c => plan c <> None) (List.filter (isActive u) (docs db)).

(** No plan of an active customer of the account has a negative price. *)
Definition nonNegativePrices (db : Db) (u : string) : Prop :=
  forall c p, In c (docs db) -> isActive u c = true -> plan c = Some p ->
    (0 <= price p)%Q.

(** *** Accounts *)

(** The documents of the account. *)
Definition accountDocs (db : Db) (u : string) : list Customer :=
  List.filter (fun c => String.eqb u (userId c)) (docs db).

(** Two stores with the same documents of the account, which fail on the
    same queries of the account. *)
Definition sameAccount (u : string) (db db' : Db) : Prop :=
  accountDocs db u = accountDocs db' u
  /\ forall q, q_userId q = u -> fault db q = fault db' q.

(** The names of the metrics that have cache entries. *)
Definition metricNames : list string := ["mrr"; "churn"; "ltv"; "cac"]%string.

(** [key] is the key of a metric of the account [u]. *)
Definition accountKey (u : string) (key : string) : Prop :=
  exists name date, In name metricNames /\ key = cacheKey name u date.

(** *** The counts of [getCustomerGrowth] *)

(** The number of the account's customers, of any status, whose
    subscription started at or before [cutoff]. *)
Definition totalAt (db : Db) (u : string) (cutoff : Z) : nat :=
  length (List.filter
    (fun c => String.eqb u (userId c) && (subscriptionDate c <=? cutoff))
    (docs db)).

(** Those of them that are active now. *)
Definition activeAt (db : Db) (u : string) (cutoff : Z) : nat :=
  length (List.filter
    (fun c => isActive u c && (subscriptionDate c <=? cutoff)) (docs db)).

(** The number of the account's customers with status [churned] whose churn
    date is at or before [cutoff]. *)
Definition churnedBy (db : Db) (u : string) (cutoff : Z) : nat :=
  length (List.filter
    (fun c => String.eqb u (userId c) && Status_eqb churned (status c)
              && match churnDate c with
                 | Some d => d <=? cutoff
                 | None => false
                 end) (docs db)).

(** The first midnight of the month [i] months before the current one, and
    the midnight that opens its last day. *)
Definition monthStartBack (tza now i : Z) : Z :=
  newDate tza (getFullYear tza now) (getMonth tza now - i) 1.
Definition monthEndBack (tza now i : Z) : Z :=
  newDate tza (getFullYear tza now) (getMonth tza now - i + 1) 0.

(** The counts of that month. *)
Definition growthPointAt (tza : Z) (db : Db) (now : Z) (u : string) (i : Z)
    : GrowthPoint :=
  {| g_month := isoMonth (monthStartBack tza now i);
     g_date := monthStartBack tza now i;
     g_total := totalAt db u (monthEndBack tza now i);
     g_active := activeAt db u (monthEndBack tza now i);
     g_churned := churnedBy db u (monthEndBack tza now i) |}.

(** The three queries of [getCustomerGrowth] for the month that ends at
    [cutoff]. *)
Definition growthQueriesAt (u : string) (cutoff : Z) : list Filter :=
  [ {| q_userId := u; q_status := None;
       q_subscriptionDate := [Lte cutoff]; q_churnDate := [] |};
    {| q_userId := u; q_status := Some active;
       q_subscriptionDate := [Lte cutoff]; q_churnDate := [] |};
    {| q_userId := u; q_status := Some churned;
       q_subscriptionDate := []; q_churnDate := [Lte cutoff] |} ].

(** The queries of [getCustomerGrowth(u, months)] at the time [now]. *)
Definition growthQueries (tza now : Z) (u : string) (months : Z)
    : list Filter :=
  flat_map (fun i => growthQueriesAt u (monthEndBack tza now i))
    (loopIndices months).

(** No customer of the account left before subscribing. *)
Definition churnAfterSubscription (db : Db) (u : string) : Prop :=
  forall c d, In c (docs db) -> userId c = u -> churnDate c = Some d ->
    subscriptionDate c <= d.

(** The queries of [getHistoricalData(u, months)] at the time [now]: those
    of [getAllMetrics] for each month. *)
Definition historicalQueries (tza now : Z) (u : string) (months : Z)
    : list Filter :=
  flat_map (fun i => allQueries tza u (monthStartBack tza now i))
    (loopIndices months).

(** The five metrics of an aggregate have the growth of [growth_formula],
    and its ARR is twelve times its MRR. *)
Definition consistentMetrics (r : AllMetrics) : Prop :=
  growth_formula (mrr r) /\ growth_formula (arr r)
  /\ growth_formula (churn r) /\ growth_formula (ltv r)
  /\ growth_formula (cac r)
  /\ current (arr r) = (current (mrr r) * of_Z 12)%num
  /\ previous (arr r) = (previous (mrr r) * of_Z 12)%num.

(** No entry of the cache is valid at the time [now]. *)
Definition allExpired (now : Z) (cache : gmap string (Entry Metric)) : Prop :=
  forall key, valid now (cache !! key) = false.

(** The aggregate [r] for [date] can be read from the cache at the time
    [now]: each of the four keys holds an entry that is valid then. *)
Definition servedFrom (now : Z) (u : string) (date : Z) (r : AllMetrics)
    (cache : gmap string (Entry Metric)) : Prop :=
  exists em ec el ek,
    cache !! cacheKey "mrr" u date = Some em
    /\ cache !! cacheKey "churn" u date = Some ec
    /\ cache !! cacheKey "ltv" u date = Some el
    /\ cache !! cacheKey "cac" u date = Some ek
    /\ now - timestamp em < cacheTimeout /\ now - timestamp ec < cacheTimeout
    /\ now - timestamp el < cacheTimeout /\ now - timestamp ek < cacheTimeout
    /\ r = {| mrr := withGrowth (data em);
              arr := withGrowth
                       {| current := (current (data em) * of_Z 12)%num;
                          previous := (previous (data em) * of_Z 12)%num;
                          growth := growth (data em) |};
              churn := withGrowth (data ec);
              ltv := withGrowth (data el);
              cac := withGrowth (data ek) |}.

(** Every entry that is valid at the time [now] was stored at [now]. *)
Definition validStamped (now : Z) (cache : gmap string (Entry Metric)) : Prop :=
  forall key e, cache !! key = Some e ->
    now - timestamp e < cacheTimeout -> timestamp e = now.

(** *** The formula of the ARR *)

(** The price of a customer's plan for a year. *)
Definition customerAnnualPrice (c : Customer) : Q :=
  match plan c with
  | Some p => match annualPrice p with
              | Fin q => q
              | _ => 0
              end
  | None => 0
  end.

(** The sum of the annual prices of the account's active customers whose
    subscription started at or before [cutoff]. *)
Definition arrAt (db : Db) (u : string) (cutoff : Z) : Q :=
  Qsum (map customerAnnualPrice
    (List.filter (fun c => isActive u c && (subscriptionDate c <=? cutoff))
       (docs db))).

(** *** More accounts and documents for the examples *)

Definition otherAcct : string := "64b7f0c2a1d3e4f5a6b7c8e0".

(** A customer of another account. *)
Definition stranger : Customer :=
  {| userId := otherAcct; status := active; plan := Some monthly100;
     subscriptionDate := ymd 2023 1 1; churnDate := None;
     acquisitionCost := Some 500%Q |}.

(** Only a customer that has left. *)
Definition leftDb : Db :=
  healthy [leaver monthly100 (ymd 2023 6 1) (ymd 2024 1 10)].

(** A pending payment of 100 due on the first of February 2024. *)
Definition lateInvoice : Payment.t :=
  {| Payment.amount := 100; Payment.refundAmount := 0;
     Payment.status := Payment.pending; Payment.dueDate := ymd 2024 2 1 |}.

(** A server two hours east of UTC. *)
Definition utcPlus2 : Z := hms 2 0 0.

(** The last hour of January 2024 in UTC, which is February there. *)
Definition jan31late : Z := ymd 2024 1 31 + hms 23 0 0.

(** * Properties *)

(** ** The cache layer *)

Lemma result_pair {V A} (m : M V A) cache a :
  (m cache).1 = Ok a -> m cache = (Ok a, (m cache).2).
Proof. destruct (m cache) as [r c]. simpl. now intros ->. Qed.

Section CacheFacts.
Context {V : Type}.
Implicit Types (cache : gmap string (Entry V)) (computeFn : M V V).

Lemma valid_true now cache key e :
  cache !! key = Some e -> now - timestamp e < cacheTimeout ->
  valid now (cache !! key) = true.
Proof.
  intros -> Hlt. unfold valid. now apply Z.ltb_lt.
Qed.

Lemma valid_false now cache key :
  (forall e, cache !! key = Some e -> ~ now - timestamp e < cacheTimeout) ->
  valid now (cache !! key) = false.
Proof.
  intros H. unfold valid. destruct (cache !! key) as [e|]; [|reflexivity].
  apply Z.ltb_ge. specialize (H e eq_refl). lia.
Qed.

Lemma getCachedOrCompute_valid now key computeFn cache e :
  cache !! key = Some e -> valid now (cache !! key) = true ->
  getCachedOrCompute now key computeFn cache = (Ok (data e), cache).
Proof.
  intros He Hv. unfold getCachedOrCompute. rewrite He in Hv |- *.
  simpl in Hv. now rewrite Hv.
Qed.

Lemma getCachedOrCompute_invalid now key computeFn cache :
  valid now (cache !! key) = false ->
  getCachedOrCompute now key computeFn cache
  = computeAndStore now key computeFn cache.
Proof.
  intros Hv. unfold getCachedOrCompute.
  destruct (cache !! key) as [e|]; [|reflexivity].
  simpl in Hv. now rewrite Hv.
Qed.
End CacheFacts.

(** C6. A call of [getCachedOrCompute] that finds an entry for the key whose
    timestamp is strictly less than five minutes old returns the stored value
    and leaves the cache as it was, whatever the compute function is (it is
    not invoked).  Otherwise the compute function runs, and its result is
    stored under the key with the current time and returned (if it throws,
    the call throws its error and stores nothing).  After such a call, a
    second call for the key less than five minutes later returns the same
    value without running its compute function. *)
Theorem getCachedOrCompute_contract {V} (now : Z) (key : string)
    (computeFn : M V V) (cache : gmap string (Entry V)) :
  (forall e, cache !! key = Some e -> now - timestamp e < cacheTimeout ->
     getCachedOrCompute now key computeFn cache = (Ok (data e), cache))
  /\ ((forall e, cache !! key = Some e -> ~ now - timestamp e < cacheTimeout) ->
      (forall d cache', computeFn cache = (Ok d, cache') ->
         getCachedOrCompute now key computeFn cache
         = (Ok d, <[key := {| data := d; timestamp := now |}]> cache')
         /\ forall now2 other, now2 - now < cacheTimeout ->
              getCachedOrCompute now2 key other
                (<[key := {| data := d; timestamp := now |}]> cache')
              = (Ok d, <[key := {| data := d; timestamp := now |}]> cache'))
      /\ (forall err cache', computeFn cache = (Err err, cache') ->
            getCachedOrCompute now key computeFn cache = (Err err, cache'))).
Proof.
  split.
  - intros e He Hlt.
    eapply getCachedOrCompute_valid; eauto using valid_true.
  - intros Hstale.
    assert (Hmiss : getCachedOrCompute now key computeFn cache
                    = computeAndStore now key computeFn cache)
      by (apply getCachedOrCompute_invalid; now apply valid_false).
    split.
    + intros d cache' Hf. split.
      * rewrite Hmiss. unfold computeAndStore. now rewrite Hf.
      * intros now2 other Hlt.
        set (e := {| data := d; timestamp := now |}).
        change d with (data e) at 1.
        apply getCachedOrCompute_valid.
        -- apply lookup_insert_eq.
        -- eapply valid_true; [apply lookup_insert_eq | exact Hlt].
    + intros err cache' Hf.
      rewrite Hmiss. unfold computeAndStore. now rewrite Hf.
Qed.

(** C7. [clearCache] leaves no entry, under any key; the next
    [getCachedOrCompute], for any key, runs its compute function (on the
    emptied cache) and stores or throws what that returns. *)
Theorem clearCache_forces_recompute {V} (cache : gmap string (Entry V))
    (now : Z) (key : string) (computeFn : M V V) :
  clearCache cache = ∅
  /\ clearCache cache !! key = None
  /\ getCachedOrCompute now key computeFn (clearCache cache)
     = match computeFn ∅ with
       | (Ok d, cache') =>
           (Ok d, <[key := {| data := d; timestamp := now |}]> cache')
       | (Err e, cache') => (Err e, cache')
       end.
Proof.
  unfold clearCache.
  split; [reflexivity | split; [apply lookup_empty |]].
  unfold getCachedOrCompute. now rewrite lookup_empty.
Qed.

(** ** No step of the service removes a key *)

Section KeepsKeys.
Context {V : Type}.

Lemma keeps_keys_ret {A} (a : A) : keeps_keys (@ret V A a).
Proof. intros cache. reflexivity. Qed.

Lemma keeps_keys_lift {A} (r : Result A) : keeps_keys (@lift V A r).
Proof. intros cache. reflexivity. Qed.

Lemma keeps_keys_bind {A B} (m : M V A) (f : A -> M V B) :
  keeps_keys m -> (forall a, keeps_keys (f a)) -> keeps_keys (bind m f).
Proof.
  intros Hm Hf cache. unfold bind.
  specialize (Hm cache). destruct (m cache) as [[a|e] cache1]; simpl in *.
  - etransitivity; [exact Hm | apply Hf].
  - exact Hm.
Qed.

Lemma keeps_keys_promiseAll {A} (ps : list (M V A)) :
  Forall keeps_keys ps -> keeps_keys (promiseAll ps).
Proof.
  induction 1 as [|p ps Hp _ IH]; intros cache; simpl; [reflexivity|].
  specialize (Hp cache). destruct (p cache) as [r cache1].
  specialize (IH cache1). destruct (promiseAll ps cache1) as [rs cache2].
  simpl in *. etransitivity; eassumption.
Qed.

Lemma keeps_keys_getCachedOrCompute now key (computeFn : M V V) :
  keeps_keys computeFn -> keeps_keys (getCachedOrCompute now key computeFn).
Proof.
  intros Hf cache. unfold getCachedOrCompute, computeAndStore.
  specialize (Hf cache).
  destruct (cache !! key) as [e|];
    [destruct (now - timestamp e <? cacheTimeout); [reflexivity|]|];
    destruct (computeFn cache) as [[d|err] cache1]; simpl in *;
    try exact Hf; rewrite dom_insert; set_solver.
Qed.
End KeepsKeys.

Create HintDb keys.

#[local] Hint Resolve keeps_keys_ret keeps_keys_lift keeps_keys_bind
  keeps_keys_promiseAll keeps_keys_getCachedOrCompute : keys.

Section ServiceKeepsKeys.
Variables (tza : Z) (db : Db) (now : Z) (userId : string) (date : Z).

Lemma keeps_keys_getPreviousMRR :
  keeps_keys (getPreviousMRR tza db userId date).
Proof. unfold getPreviousMRR. auto with keys. Qed.

Lemma keeps_keys_calculateMRR :
  keeps_keys (calculateMRR tza db now userId date).
Proof.
  unfold calculateMRR.
  auto 10 using keeps_keys_getPreviousMRR with keys.
Qed.

Lemma keeps_keys_calculateARR :
  keeps_keys (calculateARR tza db now userId date).
Proof. unfold calculateARR. auto using keeps_keys_calculateMRR with keys. Qed.

Lemma keeps_keys_calculateChurnRate :
  keeps_keys (calculateChurnRate tza db now userId date).
Proof. unfold calculateChurnRate. auto 12 with keys. Qed.

Lemma keeps_keys_calculateLTV :
  keeps_keys (calculateLTV tza db now userId date).
Proof.
  unfold calculateLTV.
  auto 12 using keeps_keys_calculateMRR, keeps_keys_calculateChurnRate
    with keys.
Qed.

Lemma keeps_keys_calculateCAC :
  keeps_keys (calculateCAC tza db now userId date).
Proof. unfold calculateCAC. auto 10 with keys. Qed.

Lemma keeps_keys_getAllMetrics :
  keeps_keys (getAllMetrics tza db now userId date).
Proof.
  unfold getAllMetrics. apply keeps_keys_bind.
  - apply keeps_keys_promiseAll.
    repeat constructor;
      auto using keeps_keys_calculateMRR, keeps_keys_calculateARR,
        keeps_keys_calculateChurnRate, keeps_keys_calculateLTV,
        keeps_keys_calculateCAC.
  - intros [|m [|a [|c [|l [|k [|]]]]]]; auto with keys.
Qed.
End ServiceKeepsKeys.

(** ** Invariants of the cache *)

Section Maintains.
Variable I : gmap string (Entry Metric) -> Prop.

Lemma maintains_ret {A} (Q : A -> Prop) (a : A) :
  Q a -> maintains I Q (ret a).
Proof. intros Ha cache Hc. simpl. split; [exact Hc | congruence]. Qed.

Lemma maintains_lift {A} (Q : A -> Prop) (r : Result A) :
  (forall a, r = Ok a -> Q a) -> maintains I Q (lift r).
Proof. intros Hr cache Hc. simpl. auto. Qed.

Lemma maintains_bind {A B} (P : A -> Prop) (Q : B -> Prop)
    (m : M Metric A) (f : A -> M Metric B) :
  maintains I P m -> (forall a, P a -> maintains I Q (f a)) ->
  maintains I Q (bind m f).
Proof.
  intros Hm Hf cache Hc. unfold bind.
  destruct (Hm cache Hc) as [H1 H2].
  destruct (m cache) as [[a|e] cache1]; simpl in *.
  - apply Hf; auto.
  - split; [exact H1 | discriminate].
Qed.

Lemma maintains_weaken {A} (P Q : A -> Prop) (m : M Metric A) :
  (forall a, P a -> Q a) -> maintains I P m -> maintains I Q m.
Proof. intros HPQ Hm cache Hc. destruct (Hm cache Hc). eauto. Qed.

Lemma maintains_promiseAll {A} (Q : A -> Prop) (ps : list (M Metric A)) :
  Forall (maintains I Q) ps -> maintains I (Forall Q) (promiseAll ps).
Proof.
  induction 1 as [|p ps Hp _ IH]; intros cache Hc; simpl.
  - split; [exact Hc|]. intros a [= <-]. constructor.
  - destruct (Hp cache Hc) as [H1 H2].
    destruct (p cache) as [r cache1]. simpl in *.
    destruct (IH cache1 H1) as [H3 H4].
    destruct (promiseAll ps cache1) as [rs cache2]. simpl in *.
    split; [exact H3|].
    destruct r as [a|e]; [destruct rs as [l|e]|]; intros x [= <-].
    constructor; auto.
Qed.

Lemma maintains_getCachedOrCompute (Q : Metric -> Prop) now key computeFn :
  (forall cache e, I cache -> cache !! key = Some e -> Q (data e)) ->
  (forall cache d, I cache -> Q d ->
     I (<[key := {| data := d; timestamp := now |}]> cache)) ->
  maintains I Q computeFn ->
  maintains I Q (getCachedOrCompute now key computeFn).
Proof.
  intros Hget Hset Hf cache Hc.
  unfold getCachedOrCompute, computeAndStore.
  destruct (Hf cache Hc) as [H1 H2].
  destruct (cache !! key) as [e|] eqn:He;
    [destruct (now - timestamp e <? cacheTimeout)|].
  - simpl. split; [exact Hc|]. intros a [= <-]. eauto.
  - destruct (computeFn cache) as [[d|err] cache1]; simpl in *.
    + split; [|intros a [= <-]]; auto.
    + split; [exact H1 | discriminate].
  - destruct (computeFn cache) as [[d|err] cache1]; simpl in *.
    + split; [|intros a [= <-]]; auto.
    + split; [exact H1 | discriminate].
Qed.
End Maintains.

(** ** Finite values *)

Lemma Qposb_not_zero q : Qposb q = true -> Qzerob q = false.
Proof.
  unfold Qposb, Qzerob. intros H.
  apply negb_true_iff in H.
  destruct (Qeq_bool q 0) eqn:E; [|reflexivity].
  apply Qeq_bool_iff in E.
  assert (Hle : Qle_bool q 0 = true) by (apply Qle_bool_iff; rewrite E; apply Qle_refl).
  congruence.
Qed.

Lemma is_finite_Fin x : is_finite x = true -> exists q, x = Fin q.
Proof. destruct x; try discriminate. eauto. Qed.

Lemma is_finite_add x y :
  is_finite x = true -> is_finite y = true -> is_finite (x + y)%num = true.
Proof. destruct x, y; try discriminate; reflexivity. Qed.

Lemma is_finite_sub x y :
  is_finite x = true -> is_finite y = true -> is_finite (x - y)%num = true.
Proof. destruct x, y; try discriminate; reflexivity. Qed.

Lemma is_finite_mul x y :
  is_finite x = true -> is_finite y = true -> is_finite (x * y)%num = true.
Proof. destruct x, y; try discriminate; reflexivity. Qed.

Lemma is_finite_div x y :
  is_finite x = true -> is_finite y = true -> is_zero y = false ->
  is_finite (x / y)%num = true.
Proof.
  destruct x, y; try discriminate. simpl. intros _ _ ->. reflexivity.
Qed.

Lemma is_finite_getMonthlyPrice p : is_finite (getMonthlyPrice p) = true.
Proof. unfold getMonthlyPrice. destruct (billingCycle p); reflexivity. Qed.

Lemma is_finite_reduceMonthlyPrice customers : forall total x,
  is_finite total = true -> reduceMonthlyPrice total customers = Ok x ->
  is_finite x = true.
Proof.
  induction customers as [|c cs IH]; simpl; intros total x Ht.
  - now intros [= <-].
  - destruct (plan c) as [p|]; [|discriminate].
    apply IH. apply is_finite_add; auto using is_finite_getMonthlyPrice.
Qed.

Lemma is_finite_acquisitionCostOr0 c : is_finite (acquisitionCostOr0 c) = true.
Proof.
  unfold acquisitionCostOr0.
  destruct (acquisitionCost c) as [q|]; [destruct (Qzerob q)|]; reflexivity.
Qed.

Lemma is_finite_reduceAcquisitionCost customers : forall total,
  is_finite total = true ->
  is_finite (reduceAcquisitionCost total customers) = true.
Proof.
  unfold reduceAcquisitionCost.
  induction customers as [|c cs IH]; simpl; intros total Ht; [exact Ht|].
  apply IH. apply is_finite_add; auto using is_finite_acquisitionCostOr0.
Qed.

Lemma is_zero_of_nat_pos n : (0 < n)%nat -> is_zero (of_nat n) = false.
Proof.
  intros Hn. unfold is_zero, of_nat, Qzerob, Qeq_bool. simpl.
  apply Z.eqb_neq. lia.
Qed.

Lemma is_finite_ratePercent part count :
  is_finite (ratePercent part count) = true.
Proof.
  unfold ratePercent. destruct (0 <? count)%nat eqn:E; [|reflexivity].
  apply Nat.ltb_lt in E.
  apply is_finite_mul; [|reflexivity].
  apply is_finite_div; auto using is_zero_of_nat_pos.
Qed.

Lemma is_finite_calculateGrowth c p :
  is_finite c = true -> is_finite p = true ->
  is_finite (calculateGrowth c p) = true.
Proof.
  intros Hc Hp. unfold calculateGrowth.
  destruct (is_zero p) eqn:E; [reflexivity|].
  apply is_finite_mul; [|reflexivity].
  apply is_finite_div; auto using is_finite_sub.
Qed.

Lemma all_finite_insert cache key d now :
  all_finite cache -> finite_metric d ->
  all_finite (<[key := {| data := d; timestamp := now |}]> cache).
Proof.
  intros Hc Hd key' e'. rewrite lookup_insert.
  case_decide; [intros [= <-]; exact Hd | apply Hc].
Qed.

Lemma all_finite_lookup cache key e :
  all_finite cache -> cache !! key = Some e -> finite_metric (data e).
Proof. intros Hc. apply Hc. Qed.

#[local] Hint Resolve all_finite_insert all_finite_lookup : core.

Section ServiceFinite.
Variables (tza : Z) (db : Db) (now : Z) (userId : string) (date : Z).

Lemma maintains_finite_getPreviousMRR :
  maintains all_finite (fun x => is_finite x = true)
    (getPreviousMRR tza db userId date).
Proof.
  unfold getPreviousMRR.
  apply maintains_bind with (P := fun _ => True);
    [now apply maintains_lift|].
  intros cs _. apply maintains_lift.
  intros x. now apply is_finite_reduceMonthlyPrice.
Qed.

Lemma maintains_finite_calculateMRR :
  maintains all_finite finite_metric (calculateMRR tza db now userId date).
Proof.
  unfold calculateMRR. apply maintains_getCachedOrCompute; eauto.
  apply maintains_bind with (P := fun _ => True);
    [now apply maintains_lift|].
  intros cs _.
  apply maintains_bind with (P := fun x => is_finite x = true).
  { apply maintains_lift. intros x. now apply is_finite_reduceMonthlyPrice. }
  intros x Hx.
  eapply maintains_bind; [apply maintains_finite_getPreviousMRR|].
  intros y Hy. apply maintains_ret. now repeat split.
Qed.

Lemma maintains_finite_calculateARR :
  maintains all_finite finite_metric (calculateARR tza db now userId date).
Proof.
  unfold calculateARR.
  eapply maintains_bind; [apply maintains_finite_calculateMRR|].
  intros m (Hc & Hp & Hg). apply maintains_ret.
  repeat split; simpl; auto using is_finite_mul.
Qed.

Lemma maintains_finite_calculateChurnRate :
  maintains all_finite finite_metric
    (calculateChurnRate tza db now userId date).
Proof.
  unfold calculateChurnRate. apply maintains_getCachedOrCompute; eauto.
  do 4 (apply maintains_bind with (P := fun _ => True);
        [now apply maintains_lift | intros ? _]).
  apply maintains_ret.
  repeat split; simpl;
    auto using is_finite_sub, is_finite_ratePercent.
Qed.

Lemma maintains_finite_calculateLTV :
  maintains all_finite finite_metric (calculateLTV tza db now userId date).
Proof.
  unfold calculateLTV. apply maintains_getCachedOrCompute; eauto.
  eapply maintains_bind; [apply maintains_finite_calculateChurnRate|].
  intros churnData (Hc & _).
  eapply maintains_bind; [apply maintains_finite_calculateMRR|].
  intros _ _.
  apply maintains_bind with (P := fun _ => True);
    [now apply maintains_lift|].
  intros cs _.
  apply maintains_bind with (P := fun x => is_finite x = true).
  { apply maintains_lift. intros x. now apply is_finite_reduceMonthlyPrice. }
  intros total Ht. apply maintains_ret.
  repeat split; simpl; auto.
  destruct (is_finite_Fin _ Hc) as [q ->].
  destruct (is_finite_Fin _ Ht) as [t ->].
  change (Fin q / of_Z 100)%num with (Fin (q / inject_Z 100)).
  set (rate := (q / inject_Z 100)%Q).
  unfold gt. destruct (negb (Qle_bool rate 0)) eqn:E; [|reflexivity].
  apply is_finite_div; [| reflexivity | now apply Qposb_not_zero].
  destruct (0 <? length cs)%nat eqn:El; [|reflexivity].
  apply Nat.ltb_lt in El.
  apply is_finite_div; auto using is_zero_of_nat_pos.
Qed.

Lemma maintains_finite_calculateCAC :
  maintains all_finite finite_metric (calculateCAC tza db now userId date).
Proof.
  unfold calculateCAC. apply maintains_getCachedOrCompute; eauto.
  apply maintains_bind with (P := fun _ => True);
    [now apply maintains_lift|].
  intros cs _. apply maintains_ret.
  repeat split; simpl; auto.
  destruct (0 <? length cs)%nat eqn:El; [|reflexivity].
  apply Nat.ltb_lt in El.
  apply is_finite_div;
    auto using is_zero_of_nat_pos, is_finite_reduceAcquisitionCost.
Qed.
End ServiceFinite.

(** ** The aggregate call *)

Lemma getAllMetrics_Ok tza db now userId date cache r cache' :
  getAllMetrics tza db now userId date cache = (Ok r, cache') ->
  exists m a ch l k c1 c2 c3 c4,
    calculateMRR tza db now userId date cache = (Ok m, c1)
    /\ calculateARR tza db now userId date c1 = (Ok a, c2)
    /\ calculateChurnRate tza db now userId date c2 = (Ok ch, c3)
    /\ calculateLTV tza db now userId date c3 = (Ok l, c4)
    /\ calculateCAC tza db now userId date c4 = (Ok k, cache')
    /\ r = {| mrr := withGrowth m; arr := withGrowth a;
              churn := withGrowth ch; ltv := withGrowth l;
              cac := withGrowth k |}.
Proof.
  intros H. unfold getAllMetrics, bind in H. cbn [promiseAll] in H.
  destruct (calculateMRR tza db now userId date cache) as [r1 c1] eqn:E1.
  destruct (calculateARR tza db now userId date c1) as [r2 c2] eqn:E2.
  destruct (calculateChurnRate tza db now userId date c2) as [r3 c3] eqn:E3.
  destruct (calculateLTV tza db now userId date c3) as [r4 c4] eqn:E4.
  destruct (calculateCAC tza db now userId date c4) as [r5 c5] eqn:E5.
  unfold ret in H.
  destruct r1, r2, r3, r4, r5; cbv beta iota in H; try discriminate H.
  injection H as <- <-.
  exists a, a0, a1, a2, a3, c1, c2, c3, c4. auto 10.
Qed.

Lemma getAllMetrics_Err tza db now userId date cache :
  let c1 := (calculateMRR tza db now userId date cache).2 in
  let c2 := (calculateARR tza db now userId date c1).2 in
  let c3 := (calculateChurnRate tza db now userId date c2).2 in
  let c4 := (calculateLTV tza db now userId date c3).2 in
  forall e,
    (calculateMRR tza db now userId date cache).1 = Err e
    \/ (calculateARR tza db now userId date c1).1 = Err e
    \/ (calculateChurnRate tza db now userId date c2).1 = Err e
    \/ (calculateLTV tza db now userId date c3).1 = Err e
    \/ (calculateCAC tza db now userId date c4).1 = Err e ->
    exists e', (getAllMetrics tza db now userId date cache).1 = Err e'.
Proof.
  intros c1 c2 c3 c4 e H.
  destruct (getAllMetrics tza db now userId date cache) as [[r|e'] c'] eqn:E;
    [|eauto].
  apply getAllMetrics_Ok in E.
  destruct E as (m & a & ch & l & k & d1 & d2 & d3 & d4
                 & E1 & E2 & E3 & E4 & E5 & _).
  subst c1 c2 c3 c4.
  rewrite E1 in H; simpl in H. rewrite E2 in H; simpl in H.
  rewrite E3 in H; simpl in H. rewrite E4 in H; simpl in H.
  rewrite E5 in H; simpl in H.
  destruct H as [H|[H|[H|[H|H]]]]; discriminate.
Qed.

Lemma maintains_finite_getAllMetrics tza db now userId date :
  maintains all_finite
    (fun r => Forall finite_metric [mrr r; arr r; churn r; ltv r; cac r])
    (getAllMetrics tza db now userId date).
Proof.
  intros cache Hc. split.
  - destruct (getAllMetrics tza db now userId date cache) as [r c'] eqn:E.
    revert E. unfold getAllMetrics.
    set (ps := [_; _; _; _; _]).
    assert (Hps : maintains all_finite (Forall finite_metric) (promiseAll ps)).
    { apply maintains_promiseAll. subst ps.
      repeat first [apply List.Forall_nil | apply List.Forall_cons];
        auto using maintains_finite_calculateMRR,
          maintains_finite_calculateARR, maintains_finite_calculateChurnRate,
          maintains_finite_calculateLTV, maintains_finite_calculateCAC. }
    unfold bind. destruct (Hps cache Hc) as [H1 _].
    destruct (promiseAll ps cache) as [[l|e] c1]; simpl in *.
    + destruct l as [|m [|a [|c [|x [|k [|]]]]]]; intros [= _ <-]; exact H1.
    + intros [= _ <-]; exact H1.
  - intros r Hr.
    destruct (getAllMetrics tza db now userId date cache) as [r' c'] eqn:E.
    simpl in Hr. subst r'.
    apply getAllMetrics_Ok in E.
    destruct E as (m & a & ch & l & k & c1 & c2 & c3 & c4
                   & E1 & E2 & E3 & E4 & E5 & ->).
    pose proof (maintains_finite_calculateMRR tza db now userId date cache Hc)
      as [I1 F1]. rewrite E1 in I1, F1. simpl in I1, F1.
    pose proof (maintains_finite_calculateARR tza db now userId date c1 I1)
      as [I2 F2]. rewrite E2 in I2, F2. simpl in I2, F2.
    pose proof (maintains_finite_calculateChurnRate tza db now userId date c2 I2)
      as [I3 F3]. rewrite E3 in I3, F3. simpl in I3, F3.
    pose proof (maintains_finite_calculateLTV tza db now userId date c3 I3)
      as [I4 F4]. rewrite E4 in I4, F4. simpl in I4, F4.
    pose proof (maintains_finite_calculateCAC tza db now userId date c4 I4)
      as [I5 F5]. rewrite E5 in I5, F5. simpl in I5, F5.
    assert (Hw : forall x, finite_metric x -> finite_metric (withGrowth x)).
    { intros x (Hx1 & Hx2 & _). repeat split; simpl; auto.
      now apply is_finite_calculateGrowth. }
    simpl.
    repeat first [apply List.Forall_nil | apply List.Forall_cons];
      apply Hw; auto.
Qed.

Lemma reachable_all_finite tza cache : reachable tza cache -> all_finite cache.
Proof.
  induction 1 as [|db now call cache _ IH].
  - intros key e. now rewrite lookup_empty.
  - destruct call as [u d|u d|u d|u d|u d|u d|]; simpl.
    + now apply maintains_finite_calculateMRR.
    + now apply maintains_finite_calculateARR.
    + now apply maintains_finite_calculateChurnRate.
    + now apply maintains_finite_calculateLTV.
    + now apply maintains_finite_calculateCAC.
    + now apply maintains_finite_getAllMetrics.
    + intros key e. unfold clearCache. now rewrite lookup_empty.
Qed.

(** ** The growth stored with an MRR *)

Lemma churn_not_mrr_key u d : not_mrr_key (cacheKey "churn" u d).
Proof. intros u' d'. unfold cacheKey. simpl. discriminate. Qed.

Lemma ltv_not_mrr_key u d : not_mrr_key (cacheKey "ltv" u d).
Proof. intros u' d'. unfold cacheKey. simpl. discriminate. Qed.

Lemma cac_not_mrr_key u d : not_mrr_key (cacheKey "cac" u d).
Proof. intros u' d'. unfold cacheKey. simpl. discriminate. Qed.

Lemma mrr_growth_zero_insert_mrr cache u d m now :
  mrr_growth_zero cache -> growth m = Fin 0 ->
  mrr_growth_zero
    (<[cacheKey "mrr" u d := {| data := m; timestamp := now |}]> cache).
Proof.
  intros Hc Hm u' d' e. rewrite lookup_insert.
  case_decide; [intros [= <-]; exact Hm | apply Hc].
Qed.

Lemma mrr_growth_zero_insert_other cache key e :
  not_mrr_key key -> mrr_growth_zero cache ->
  mrr_growth_zero (<[key := e]> cache).
Proof.
  intros Hk Hc u d e'. rewrite lookup_insert_ne by apply Hk. apply Hc.
Qed.

Section ServiceGrowthZero.
Variables (tza : Z) (db : Db) (now : Z) (userId : string) (date : Z).

Lemma maintains_zero_getPreviousMRR :
  maintains mrr_growth_zero (fun _ => True)
    (getPreviousMRR tza db userId date).
Proof.
  unfold getPreviousMRR.
  apply maintains_bind with (P := fun _ => True);
    [now apply maintains_lift|].
  intros cs _. now apply maintains_lift.
Qed.

Lemma maintains_zero_calculateMRR :
  maintains mrr_growth_zero (fun m => growth m = Fin 0)
    (calculateMRR tza db now userId date).
Proof.
  unfold calculateMRR. apply maintains_getCachedOrCompute.
  - intros cache e Hc He. eapply Hc, He.
  - intros cache d Hc Hd. now apply mrr_growth_zero_insert_mrr.
  - do 2 (apply maintains_bind with (P := fun _ => True);
          [now apply maintains_lift | intros ? _]).
    eapply maintains_bind; [apply maintains_zero_getPreviousMRR|].
    intros y _. now apply maintains_ret.
Qed.

Lemma maintains_zero_calculateARR :
  maintains mrr_growth_zero (fun m => growth m = Fin 0)
    (calculateARR tza db now userId date).
Proof.
  unfold calculateARR.
  eapply maintains_bind; [apply maintains_zero_calculateMRR|].
  intros m Hm. now apply maintains_ret.
Qed.

Lemma maintains_zero_calculateChurnRate :
  maintains mrr_growth_zero (fun _ => True)
    (calculateChurnRate tza db now userId date).
Proof.
  unfold calculateChurnRate. apply maintains_getCachedOrCompute; auto.
  - intros cache d Hc _.
    now apply mrr_growth_zero_insert_other, Hc; apply churn_not_mrr_key.
  - do 4 (apply maintains_bind with (P := fun _ => True);
          [now apply maintains_lift | intros ? _]).
    now apply maintains_ret.
Qed.

Lemma maintains_zero_calculateLTV :
  maintains mrr_growth_zero (fun _ => True)
    (calculateLTV tza db now userId date).
Proof.
  unfold calculateLTV. apply maintains_getCachedOrCompute; auto.
  - intros cache d Hc _.
    now apply mrr_growth_zero_insert_other, Hc; apply ltv_not_mrr_key.
  - eapply maintains_bind; [apply maintains_zero_calculateChurnRate|].
    intros churnData _.
    eapply maintains_bind; [apply maintains_zero_calculateMRR|].
    intros mrrData _.
    do 2 (apply maintains_bind with (P := fun _ => True);
          [now apply maintains_lift | intros ? _]).
    now apply maintains_ret.
Qed.

Lemma maintains_zero_calculateCAC :
  maintains mrr_growth_zero (fun _ => True)
    (calculateCAC tza db now userId date).
Proof.
  unfold calculateCAC. apply maintains_getCachedOrCompute; auto.
  - intros cache d Hc _.
    now apply mrr_growth_zero_insert_other, Hc; apply cac_not_mrr_key.
  - apply maintains_bind with (P := fun _ => True);
      [now apply maintains_lift | intros ? _].
    now apply maintains_ret.
Qed.

Lemma maintains_zero_getAllMetrics :
  maintains mrr_growth_zero (fun _ => True)
    (getAllMetrics tza db now userId date).
Proof.
  unfold getAllMetrics.
  apply maintains_bind with (P := Forall (fun _ : Metric => True)).
  - apply maintains_promiseAll.
    repeat first [apply List.Forall_nil | apply List.Forall_cons];
      first [ apply maintains_zero_calculateChurnRate
            | apply maintains_zero_calculateLTV
            | apply maintains_zero_calculateCAC
            | eapply maintains_weaken;
              [| first [ apply maintains_zero_calculateMRR
                       | apply maintains_zero_calculateARR ]]; auto ].
  - intros [|m [|a [|c [|l [|k [|]]]]]] _;
      first [now apply maintains_ret | now apply maintains_lift].
Qed.
End ServiceGrowthZero.

Lemma reachable_mrr_growth_zero tza cache :
  reachable tza cache -> mrr_growth_zero cache.
Proof.
  induction 1 as [|db now call cache _ IH].
  - intros u d e. now rewrite lookup_empty.
  - destruct call as [u d|u d|u d|u d|u d|u d|]; simpl.
    + now apply maintains_zero_calculateMRR.
    + now apply maintains_zero_calculateARR.
    + now apply maintains_zero_calculateChurnRate.
    + now apply maintains_zero_calculateLTV.
    + now apply maintains_zero_calculateCAC.
    + now apply maintains_zero_getAllMetrics.
    + intros u d e. unfold clearCache. now rewrite lookup_empty.
Qed.

(** ** Growth *)

Lemma Qzerob_true q : Qzerob q = true <-> (q == 0)%Q.
Proof. unfold Qzerob. apply Qeq_bool_iff. Qed.

Lemma Qzerob_false q : Qzerob q = false <-> ~ (q == 0)%Q.
Proof.
  rewrite <- Qzerob_true. destruct (Qzerob q); split; congruence.
Qed.

Lemma withGrowth_formula m : growth_formula (withGrowth m).
Proof.
  split; simpl.
  - intros p -> Hp. unfold calculateGrowth. simpl.
    now apply Qzerob_true in Hp as ->.
  - intros c p -> -> Hp. unfold calculateGrowth. simpl.
    now apply Qzerob_false in Hp as ->.
Qed.

(** Without the guard the division would be by zero, and its result not a
    finite number. *)
Lemma unguarded_growth_not_finite c :
  is_finite (((Fin c - Fin 0) / Fin 0) * of_Z 100)%num = false.
Proof.
  simpl. destruct (Qzerob (c + - 0)); [reflexivity|].
  destruct (Qposb (c + - 0)); reflexivity.
Qed.


(** ** ARR *)

Lemma getCachedOrCompute_again {V} now key (f g : M V V) cache d cache' :
  getCachedOrCompute now key f cache = (Ok d, cache') ->
  getCachedOrCompute now key g cache' = (Ok d, cache').
Proof.
  unfold getCachedOrCompute at 1. unfold computeAndStore.
  assert (Hmiss : forall x c1,
    (Ok x, <[key := {| data := x; timestamp := now |}]> c1) = (Ok d, cache') ->
    getCachedOrCompute now key g cache' = (Ok d, cache')).
  { intros x c1 [= -> <-].
    set (e := {| data := d; timestamp := now |}).
    change d with (data e) at 1.
    apply getCachedOrCompute_valid; [apply lookup_insert_eq|].
    rewrite lookup_insert_eq. simpl. replace (now - now) with 0 by lia.
    reflexivity. }
  destruct (cache !! key) as [e|] eqn:He;
    [destruct (now - timestamp e <? cacheTimeout) eqn:Hv|].
  - intros [= <- <-]. apply getCachedOrCompute_valid; [exact He|].
    rewrite He. exact Hv.
  - destruct (f cache) as [[x|err] c1]; [apply Hmiss | discriminate].
  - destruct (f cache) as [[x|err] c1]; [apply Hmiss | discriminate].
Qed.

Lemma calculateMRR_again tza db now userId date cache m cache' :
  calculateMRR tza db now userId date cache = (Ok m, cache') ->
  calculateMRR tza db now userId date cache' = (Ok m, cache').
Proof. unfold calculateMRR. apply getCachedOrCompute_again. Qed.

(** C2. In any state, [calculateARR] returns exactly when [calculateMRR]
    does, with [current] and [previous] twelve times those of the MRR; and
    in the result of [getAllMetrics] the ARR is twelve times the MRR. *)
Theorem calculateARR_twelve_times_MRR tza db now userId date cache :
  (forall m, (calculateMRR tza db now userId date cache).1 = Ok m ->
     exists a, (calculateARR tza db now userId date cache).1 = Ok a
       /\ (calculateARR tza db now userId date cache).2
          = (calculateMRR tza db now userId date cache).2
       /\ current a = (current m * of_Z 12)%num
       /\ previous a = (previous m * of_Z 12)%num
       /\ (forall q, current m = Fin q -> current a = Fin (q * 12)%Q)
       /\ (forall q, previous m = Fin q -> previous a = Fin (q * 12)%Q))
  /\ (forall a, (calculateARR tza db now userId date cache).1 = Ok a ->
        exists m, (calculateMRR tza db now userId date cache).1 = Ok m)
  /\ (forall r, (getAllMetrics tza db now userId date cache).1 = Ok r ->
        current (arr r) = (current (mrr r) * of_Z 12)%num
        /\ previous (arr r) = (previous (mrr r) * of_Z 12)%num).
Proof.
  assert (HA : forall c m c1,
    calculateMRR tza db now userId date c = (Ok m, c1) ->
    calculateARR tza db now userId date c
    = (Ok {| current := (current m * of_Z 12)%num;
             previous := (previous m * of_Z 12)%num;
             growth := growth m |}, c1)).
  { intros c m c1 H. unfold calculateARR, bind. now rewrite H. }
  split; [|split].
  - intros m H. apply result_pair in H. rewrite (HA _ _ _ H). simpl.
    eexists. split; [reflexivity|]. simpl.
    split; [reflexivity|]. split; [reflexivity|]. split; [reflexivity|].
    split; intros q ->; reflexivity.
  - intros a. unfold calculateARR, bind.
    destruct (calculateMRR tza db now userId date cache) as [[m|e] c2];
      [|discriminate].
    intros _. simpl. eauto.
  - intros r H. apply result_pair, getAllMetrics_Ok in H.
    destruct H as (m & a & ch & l & k & c1 & c2 & c3 & c4
                   & E1 & E2 & _ & _ & _ & ->).
    apply calculateMRR_again, HA in E1. rewrite E1 in E2.
    injection E2 as <- _. simpl. split; reflexivity.
Qed.

(** ** Calendar facts *)

Lemma days_from_civil_day y m d :
  days_from_civil y m d = days_from_civil y m 1 + (d - 1).
Proof. unfold days_from_civil. lia. Qed.

Lemma MakeDay_date year month date :
  MakeDay year month date = MakeDay year month 1 + (date - 1).
Proof. unfold MakeDay. lia. Qed.

(** Every month has at least 28 and at most 31 days. *)
Lemma MakeDay_month_length year month :
  28 <= MakeDay year (month + 1) 1 - MakeDay year month 1 <= 31.
Proof.
  unfold MakeDay.
  assert (Hm : 0 <= month mod 12 < 12) by (apply Z.mod_pos_bound; lia).
  pose proof (Z.div_mod month 12 ltac:(lia)) as Hdm.
  set (k := month / 12) in *. set (mn := month mod 12) in *.
  assert (Hcase : mn = 0 \/ mn = 1 \/ mn = 2 \/ mn = 3 \/ mn = 4 \/ mn = 5
                  \/ mn = 6 \/ mn = 7 \/ mn = 8 \/ mn = 9 \/ mn = 10 \/ mn = 11)
    by lia.
  assert (Hnext : (mn < 11 /\ (month + 1) / 12 = k /\ (month + 1) mod 12 = mn + 1)
                  \/ (mn = 11 /\ (month + 1) / 12 = k + 1 /\ (month + 1) mod 12 = 0)).
  { destruct (Z.eq_dec mn 11) as [E|E]; [right|left]; repeat split; try lia.
    - symmetry. apply (Z.div_unique (month + 1) 12 (k + 1) 0); lia.
    - symmetry. apply (Z.mod_unique (month + 1) 12 (k + 1) 0); lia.
    - symmetry. apply (Z.div_unique (month + 1) 12 k (mn + 1)); lia.
    - symmetry. apply (Z.mod_unique (month + 1) 12 k (mn + 1)); lia. }
  destruct Hnext as [(Hlt & -> & ->)|(Heq & -> & ->)].
  - repeat (destruct Hcase as [->|Hcase]); try lia;
      unfold days_from_civil; simpl; Z.div_mod_to_equations; lia.
  - rewrite Heq. unfold days_from_civil; simpl; Z.div_mod_to_equations; lia.
Qed.

Lemma startOfMonth_endOfMonth tza date :
  27 * msPerDay <= endOfMonth tza date - startOfMonth tza date <= 30 * msPerDay.
Proof.
  unfold endOfMonth, startOfMonth, newDate, UTC.
  set (yr := fullYear _). set (m := getMonth tza date).
  rewrite (MakeDay_date yr (m + 1) 0).
  pose proof (MakeDay_month_length yr m). unfold msPerDay. lia.
Qed.

Lemma prevMonthEnd_startOfMonth tza date :
  prevMonthEnd tza date = startOfMonth tza date - msPerDay.
Proof.
  unfold prevMonthEnd, startOfMonth, newDate, UTC.
  set (yr := fullYear _). set (m := getMonth tza date).
  rewrite (MakeDay_date yr m 0). unfold msPerDay. lia.
Qed.

Lemma prevMonth_startOfMonth tza date :
  28 * msPerDay <= startOfMonth tza date - prevMonth tza date <= 31 * msPerDay.
Proof.
  unfold prevMonth, startOfMonth, newDate, UTC.
  set (yr := fullYear _). set (m := getMonth tza date).
  pose proof (MakeDay_month_length yr (m - 1)) as H.
  replace (m - 1 + 1) with m in H by lia. unfold msPerDay. lia.
Qed.

Lemma doe_facts doe :
  0 <= doe < 146097 ->
  let yoe := (doe - doe / 1460 + doe / 36524 - doe / 146096) / 365 in
  let doy := doe - (365 * yoe + yoe / 4 - yoe / 100) in
  0 <= yoe <= 399 /\ 0 <= doy <= 365.
Proof.
  intros H yoe doy. subst yoe doy.
  Z.div_mod_to_equations; lia.
Qed.

(** The civil date of a day number denotes that day number; its month and
    day are those of a calendar. *)
Lemma civil_from_days_inverse z :
  let '(y, m, d) := civil_from_days z in
  days_from_civil y m d = z /\ 1 <= m <= 12 /\ 1 <= d <= 31.
Proof.
  unfold civil_from_days.
  set (era := (z + 719468) / 146097).
  set (doe := z + 719468 - era * 146097).
  assert (Hdoe : 0 <= doe < 146097).
  { subst doe era. pose proof (Z.div_mod (z + 719468) 146097 ltac:(lia)).
    pose proof (Z.mod_pos_bound (z + 719468) 146097 ltac:(lia)). lia. }
  destruct (doe_facts doe Hdoe) as [Hyoe Hdoy].
  set (yoe := (doe - doe / 1460 + doe / 36524 - doe / 146096) / 365) in *.
  set (doy := doe - (365 * yoe + yoe / 4 - yoe / 100)) in *.
  set (mp := (5 * doy + 2) / 153).
  assert (Hmp : 0 <= mp <= 11) by (subst mp; Z.div_mod_to_equations; lia).
  set (d := doy - (153 * mp + 2) / 5 + 1).
  assert (Hd : 1 <= d <= 31) by (subst d mp; Z.div_mod_to_equations; lia).
  assert (Hera : forall y', y' = yoe + era * 400 ->
            y' / 400 = era /\ y' - era * 400 = yoe).
  { intros y' ->. split; [|lia].
    symmetry. apply (Z.div_unique (yoe + era * 400) 400 era yoe); lia. }
  unfold days_from_civil.
  destruct (mp <? 10) eqn:E10.
  - apply Z.ltb_lt in E10.
    replace (mp + 3 <=? 2) with false by (symmetry; apply Z.leb_gt; lia).
    replace (2 <? mp + 3) with true by (symmetry; apply Z.ltb_lt; lia).
    destruct (Hera (yoe + era * 400) eq_refl) as [-> ->].
    replace (mp + 3 - 3) with mp by lia.
    split; [|lia]. subst d doy doe. lia.
  - apply Z.ltb_ge in E10.
    replace (mp - 9 <=? 2) with true by (symmetry; apply Z.leb_le; lia).
    replace (2 <? mp - 9) with false by (symmetry; apply Z.ltb_ge; lia).
    replace (yoe + era * 400 + 1 - 1) with (yoe + era * 400) by lia.
    destruct (Hera (yoe + era * 400) eq_refl) as [-> ->].
    replace (mp - 9 + 9) with mp by lia.
    split; [|lia]. subst d doy doe. lia.
Qed.

Lemma doe_next_year doe :
  0 <= doe < 146097 ->
  let yoe := (doe - doe / 1460 + doe / 36524 - doe / 146096) / 365 in
  yoe < 399 ->
  doe < 365 * (yoe + 1) + (yoe + 1) / 4 - (yoe + 1) / 100.
Proof.
  intros H yoe. subst yoe.
  Z.div_mod_to_equations; lia.
Qed.

(** [days_from_civil] in terms of the era, the year of the era (which
    starts in March) and the month counted from March. *)
Lemma days_from_civil_repr era yoe mp d :
  0 <= yoe < 400 -> 0 <= mp <= 11 ->
  let m := if mp <? 10 then mp + 3 else mp - 9 in
  let y := yoe + era * 400 + (if m <=? 2 then 1 else 0) in
  days_from_civil y m d
  = era * 146097 + (yoe * 365 + yoe / 4 - yoe / 100)
    + (153 * mp + 2) / 5 + d - 1 - 719468.
Proof.
  intros Hyoe Hmp m y. subst y m. unfold days_from_civil.
  assert (Hera : (yoe + era * 400) / 400 = era)
    by (symmetry; apply (Z.div_unique (yoe + era * 400) 400 era yoe); lia).
  destruct (mp <? 10) eqn:E10.
  - apply Z.ltb_lt in E10.
    replace (mp + 3 <=? 2) with false by (symmetry; apply Z.leb_gt; lia).
    replace (2 <? mp + 3) with true by (symmetry; apply Z.ltb_lt; lia).
    replace (yoe + era * 400 + 0) with (yoe + era * 400) by lia.
    rewrite Hera. replace (mp + 3 - 3) with mp by lia.
    replace (yoe + era * 400 - era * 400) with yoe by lia. lia.
  - apply Z.ltb_ge in E10.
    replace (mp - 9 <=? 2) with true by (symmetry; apply Z.leb_le; lia).
    replace (2 <? mp - 9) with false by (symmetry; apply Z.ltb_ge; lia).
    replace (yoe + era * 400 + 1 - 1) with (yoe + era * 400) by lia.
    rewrite Hera. replace (mp - 9 + 9) with mp by lia.
    replace (yoe + era * 400 - era * 400) with yoe by lia. lia.
Qed.

(** A day lies in the month of its civil date: on or after the first of
    that month and before the first of the next. *)
Lemma civil_from_days_month z :
  let '(y, m, d) := civil_from_days z in
  MakeDay y (m - 1) 1 <= z < MakeDay y m 1.
Proof.
  pose proof (civil_from_days_inverse z) as Hinv.
  unfold civil_from_days in *.
  set (era := (z + 719468) / 146097) in *.
  set (doe := z + 719468 - era * 146097) in *.
  assert (Hdoe : 0 <= doe < 146097).
  { subst doe era. pose proof (Z.div_mod (z + 719468) 146097 ltac:(lia)).
    pose proof (Z.mod_pos_bound (z + 719468) 146097 ltac:(lia)). lia. }
  destruct (doe_facts doe Hdoe) as [Hyoe Hdoy].
  pose proof (doe_next_year doe Hdoe) as Hnext.
  set (yoe := (doe - doe / 1460 + doe / 36524 - doe / 146096) / 365) in *.
  set (doy := doe - (365 * yoe + yoe / 4 - yoe / 100)) in *.
  set (mp := (5 * doy + 2) / 153) in *.
  assert (Hmp : 0 <= mp <= 11) by (subst mp; Z.div_mod_to_equations; lia).
  set (d := doy - (153 * mp + 2) / 5 + 1) in *.
  set (m := if mp <? 10 then mp + 3 else mp - 9) in *.
  set (y := if m <=? 2 then yoe + era * 400 + 1 else yoe + era * 400) in *.
  destruct Hinv as (Hz & Hm & Hd).
  assert (Hz' : z = era * 146097 + doe - 719468) by (subst doe; lia).
  assert (Hdoy' : doe = yoe * 365 + yoe / 4 - yoe / 100 + doy)
    by (subst doy; lia).
  split.
  - (* the first of the month *)
    unfold MakeDay.
    replace ((m - 1) / 12) with 0
      by (apply (Z.div_unique (m - 1) 12 0 (m - 1)); lia).
    replace ((m - 1) mod 12) with (m - 1)
      by (apply (Z.mod_unique (m - 1) 12 0 (m - 1)); lia).
    replace (y + 0) with y by lia. replace (m - 1 + 1) with m by lia.
    rewrite (days_from_civil_day y m d) in Hz. lia.
  - (* the first of the next month *)
    assert (Hlt : doy < (153 * (mp + 1) + 2) / 5)
      by (subst mp; Z.div_mod_to_equations; lia).
    unfold MakeDay.
    destruct (Z.eq_dec mp 11) as [E11|N11].
    + (* February: the next month opens the next year of the era *)
      assert (Em : m = 2) by (subst m; rewrite E11; reflexivity).
      assert (Ey : y = yoe + era * 400 + 1) by (subst y; rewrite Em; reflexivity).
      rewrite Em. change (2 / 12) with 0. change (2 mod 12 + 1) with 3.
      replace (y + 0) with y by lia. rewrite Ey.
      destruct (Z.eq_dec yoe 399) as [E399|N399].
      * pose proof (days_from_civil_repr (era + 1) 0 0 1 ltac:(lia) ltac:(lia))
          as R. cbv zeta in R.
        assert (E : days_from_civil (yoe + era * 400 + 1) 3 1
                    = days_from_civil
                        (0 + (era + 1) * 400
                         + (if (if 0 <? 10 then 0 + 3 else 0 - 9) <=? 2
                            then 1 else 0))
                        (if 0 <? 10 then 0 + 3 else 0 - 9) 1)
          by (simpl; f_equal; lia).
        rewrite E, R. clear - Hz' Hdoe. clearbody doe era.
        Z.div_mod_to_equations. lia.
      * pose proof (days_from_civil_repr era (yoe + 1) 0 1
                      ltac:(lia) ltac:(lia)) as R. cbv zeta in R.
        assert (E : days_from_civil (yoe + era * 400 + 1) 3 1
                    = days_from_civil
                        (yoe + 1 + era * 400
                         + (if (if 0 <? 10 then 0 + 3 else 0 - 9) <=? 2
                            then 1 else 0))
                        (if 0 <? 10 then 0 + 3 else 0 - 9) 1)
          by (simpl; f_equal; lia).
        rewrite E, R. specialize (Hnext ltac:(lia)).
        clear - Hz' Hdoe Hnext Hyoe N399. clearbody doe era yoe.
        Z.div_mod_to_equations. lia.
    + (* any other month: the same year of the era, the next month *)
      pose proof (days_from_civil_repr era yoe (mp + 1) 1
                    ltac:(lia) ltac:(lia)) as R.
      cbv zeta in R.
      assert (Enext :
        days_from_civil (y + m / 12) (m mod 12 + 1) 1
        = days_from_civil
            (yoe + era * 400
             + (if (if mp + 1 <? 10 then mp + 1 + 3 else mp + 1 - 9) <=? 2
                then 1 else 0))
            (if mp + 1 <? 10 then mp + 1 + 3 else mp + 1 - 9) 1).
      { subst y m. clear - Hmp N11. clearbody mp yoe era.
        assert (Hc : mp = 0 \/ mp = 1 \/ mp = 2 \/ mp = 3 \/ mp = 4 \/ mp = 5
                     \/ mp = 6 \/ mp = 7 \/ mp = 8 \/ mp = 9 \/ mp = 10)
          by lia.
        clear Hmp N11 doy doe.
        repeat (destruct Hc as [->|Hc]); try rewrite Hc; simpl;
          f_equal; Z.div_mod_to_equations; lia. }
      rewrite Enext, R.
      clear - Hz' Hdoy' Hlt. clearbody doe era yoe doy mp.
      Z.div_mod_to_equations. lia.
Qed.

(** The reference date lies in the month the service computes for it: at or
    after [startOfMonth], and less than a day after [endOfMonth], which is
    the midnight that opens the last day of the month.  (A year in 0..99 is
    excluded: the [Date] constructor reads it as 1900 + year.) *)
Lemma reference_month tza date :
  fullYear (getFullYear tza date) = getFullYear tza date ->
  0 <= getMonth tza date <= 11
  /\ startOfMonth tza date <= date < endOfMonth tza date + msPerDay.
Proof.
  unfold startOfMonth, endOfMonth, newDate, UTC. intros ->.
  unfold getFullYear, getMonth, YearFromTime, MonthFromTime, LocalTime, Day.
  pose proof (civil_from_days_month ((date + tza) / msPerDay)) as Hm.
  pose proof (civil_from_days_inverse ((date + tza) / msPerDay)) as Hi.
  destruct (civil_from_days ((date + tza) / msPerDay)) as [[y m] d].
  simpl. replace (m - 1 + 1) with m by lia.
  rewrite (MakeDay_date y m 0).
  assert (Hms : 0 < msPerDay) by reflexivity.
  pose proof (Z.div_mod (date + tza) msPerDay ltac:(lia)) as Hdm.
  pose proof (Z.mod_pos_bound (date + tza) msPerDay Hms) as Hb.
  destruct Hm as [Hlo Hhi]. destruct Hi as (_ & Hmr & _).
  split; [lia|]. split; nia.
Qed.

(** ** MRR *)

Lemma Status_eqb_spec a b : Status_eqb a b = true <-> a = b.
Proof. destruct a, b; simpl; split; congruence. Qed.

Lemma getMonthlyPrice_normalized p :
  exists q, getMonthlyPrice p = Fin q /\ (q == normalizedPrice p)%Q.
Proof.
  unfold getMonthlyPrice, normalizedPrice.
  destruct (billingCycle p); simpl; eexists; (split; [reflexivity|]).
  - field.
  - reflexivity.
  - reflexivity.
Qed.

Lemma reduceMonthlyPrice_sum customers :
  Forall (fun c => plan c <> None) customers ->
  forall t, exists q,
    reduceMonthlyPrice (Fin t) customers = Ok (Fin q)
    /\ (q == t + Qsum (map customerPrice customers))%Q.
Proof.
  induction 1 as [|c cs Hc _ IH]; intros t; simpl.
  - exists t. split; [reflexivity | ring].
  - unfold customerPrice at 1. destruct (plan c) as [p|]; [|congruence].
    destruct (getMonthlyPrice_normalized p) as (x & -> & Hx). simpl.
    destruct (IH (t + x)%Q) as (q & -> & Hq).
    exists q. split; [reflexivity|]. rewrite Hq, Hx. ring.
Qed.

Lemma matches_active_Lte u cutoff c :
  matches {| q_userId := u; q_status := Some active;
             q_subscriptionDate := [Lte cutoff]; q_churnDate := [] |} c
  = isActive u c && (subscriptionDate c <=? cutoff).
Proof.
  unfold matches, isActive. simpl. now rewrite !andb_true_r.
Qed.

Lemma filter_populated db (f : Customer -> bool) :
  plansPopulated db = true ->
  (forall c, f c = true -> status c = active) ->
  Forall (fun c => plan c <> None) (List.filter f (docs db)).
Proof.
  unfold plansPopulated. intros Hp Hf.
  rewrite forallb_forall in Hp.
  apply List.Forall_forall. intros c Hc. apply filter_In in Hc as [Hin Hfc].
  specialize (Hp c Hin). apply Hf in Hfc. rewrite Hfc in Hp. simpl in Hp.
  destruct (plan c); congruence.
Qed.

Lemma isActive_status u c : isActive u c = true -> status c = active.
Proof.
  unfold isActive. intros H. apply andb_true_iff in H as [_ H].
  symmetry. now apply Status_eqb_spec.
Qed.

Lemma find_active_Lte_sum db u cutoff :
  fault db {| q_userId := u; q_status := Some active;
              q_subscriptionDate := [Lte cutoff]; q_churnDate := [] |} = None ->
  plansPopulated db = true ->
  exists customers q,
    find db {| q_userId := u; q_status := Some active;
               q_subscriptionDate := [Lte cutoff]; q_churnDate := [] |}
    = Ok customers
    /\ reduceMonthlyPrice (Fin 0) customers = Ok (Fin q)
    /\ (q == mrrAt db u cutoff)%Q.
Proof.
  intros Hfault Hp. unfold find. rewrite Hfault.
  rewrite (filter_ext _ _ (matches_active_Lte u cutoff)).
  eexists. 
  destruct (reduceMonthlyPrice_sum
    (List.filter (fun c => isActive u c && (subscriptionDate c <=? cutoff)) (docs db)))
    with (t := 0%Q) as (q & Hq & Hsum).
  { apply filter_populated; [exact Hp|].
    intros c Hc. apply andb_true_iff in Hc as [Hc _].
    now apply isActive_status in Hc. }
  exists q. split; [reflexivity|]. split; [exact Hq|].
  rewrite Hsum. unfold mrrAt. ring.
Qed.

Lemma calculateMRR_compute tza db now u date cache :
  (forall q, fault db q = None) ->
  plansPopulated db = true ->
  exists cur prev,
    calculateMRR tza db now u date cache
    = getCachedOrCompute now (cacheKey "mrr" u date)
        (ret {| current := Fin cur; previous := Fin prev; growth := Fin 0 |})
        cache
    /\ (cur == mrrAt db u (endOfMonth tza date))%Q
    /\ (prev == mrrAt db u (prevMonthEnd tza date))%Q.
Proof.
  intros Hfault Hp.
  destruct (find_active_Lte_sum db u (endOfMonth tza date) (Hfault _) Hp)
    as (cs & cur & Hfind & Hred & Hcur).
  destruct (find_active_Lte_sum db u (prevMonthEnd tza date) (Hfault _) Hp)
    as (cs' & prev & Hfind' & Hred' & Hprev).
  exists cur, prev. split; [|split; assumption].
  unfold calculateMRR, getCachedOrCompute, computeAndStore, getPreviousMRR.
  unfold bind, lift, ret.
  now rewrite Hfind, Hred, Hfind', Hred'.
Qed.


(** ** Churn rate *)

Lemma ratePercent_percentOf part count :
  exists q, ratePercent part count = Fin q /\ (q == percentOf part count)%Q.
Proof.
  unfold ratePercent, percentOf. destruct count as [|n].
  - exists 0%Q. split; reflexivity.
  - change (0 <? S n)%nat with true. cbv iota.
    pose proof (is_zero_of_nat_pos (S n) ltac:(lia)) as Hz.
    unfold is_zero, of_nat in Hz. unfold of_nat, Num.div. rewrite Hz.
    eexists. split; reflexivity.
Qed.

Lemma matches_active_Lt u start c :
  matches {| q_userId := u; q_status := Some active;
             q_subscriptionDate := [Lt start]; q_churnDate := [] |} c
  = isActive u c && (subscriptionDate c <? start).
Proof.
  unfold matches, isActive. simpl. now rewrite !andb_true_r.
Qed.

Lemma matches_churned_within u first last c :
  matches {| q_userId := u; q_status := Some churned;
             q_subscriptionDate := [];
             q_churnDate := [Gte first; Lte last] |} c
  = String.eqb u (userId c) && Status_eqb churned (status c)
    && match churnDate c with
       | Some d => (first <=? d) && (d <=? last)
       | None => false
       end.
Proof.
  unfold matches. simpl. rewrite !andb_true_r.
  destruct (churnDate c); simpl; now rewrite ?andb_true_r.
Qed.

Lemma count_customersAtStart db u start :
  fault db {| q_userId := u; q_status := Some active;
              q_subscriptionDate := [Lt start]; q_churnDate := [] |} = None ->
  countDocuments db {| q_userId := u; q_status := Some active;
                       q_subscriptionDate := [Lt start]; q_churnDate := [] |}
  = Ok (customersAtStart db u start).
Proof.
  intros Hf. unfold countDocuments, customersAtStart. rewrite Hf.
  now rewrite (filter_ext _ _ (matches_active_Lt u start)).
Qed.

Lemma count_churnedWithin db u first last :
  fault db {| q_userId := u; q_status := Some churned;
              q_subscriptionDate := [];
              q_churnDate := [Gte first; Lte last] |} = None ->
  countDocuments db {| q_userId := u; q_status := Some churned;
                       q_subscriptionDate := [];
                       q_churnDate := [Gte first; Lte last] |}
  = Ok (churnedWithin db u first last).
Proof.
  intros Hf. unfold countDocuments, churnedWithin. rewrite Hf.
  now rewrite (filter_ext _ _ (matches_churned_within u first last)).
Qed.

Lemma calculateChurnRate_compute tza db now u date cache :
  valid now (cache !! cacheKey "churn" u date) = false ->
  (forall q, fault db q = None) ->
  exists cur prev,
    calculateChurnRate tza db now u date cache
    = (Ok {| current := Fin cur; previous := Fin prev;
             growth := Fin (cur - prev) |},
       <[cacheKey "churn" u date :=
           {| data := {| current := Fin cur; previous := Fin prev;
                         growth := Fin (cur - prev) |};
              timestamp := now |}]> cache)
    /\ (cur == percentOf
                 (churnedWithin db u (startOfMonth tza date)
                                     (endOfMonth tza date))
                 (customersAtStart db u (startOfMonth tza date)))%Q
    /\ (prev == percentOf
                  (churnedWithin db u (prevMonth tza date)
                                      (prevMonthEnd tza date))
                  (customersAtStart db u (prevMonth tza date)))%Q.
Proof.
  intros Hv Hfault.
  destruct (ratePercent_percentOf
    (churnedWithin db u (startOfMonth tza date) (endOfMonth tza date))
    (customersAtStart db u (startOfMonth tza date))) as (cur & Hcur & Ecur).
  destruct (ratePercent_percentOf
    (churnedWithin db u (prevMonth tza date) (prevMonthEnd tza date))
    (customersAtStart db u (prevMonth tza date))) as (prev & Hprev & Eprev).
  exists cur, prev. split; [|split; [exact Ecur | exact Eprev]].
  unfold calculateChurnRate. rewrite getCachedOrCompute_invalid by exact Hv.
  unfold computeAndStore, bind, lift, ret.
  rewrite !count_customersAtStart, !count_churnedWithin by apply Hfault.
  rewrite Hcur, Hprev. reflexivity.
Qed.


(** ** LTV *)

Lemma matches_active u c :
  matches {| q_userId := u; q_status := Some active;
             q_subscriptionDate := []; q_churnDate := [] |} c
  = isActive u c.
Proof. unfold matches, isActive. simpl. now rewrite !andb_true_r. Qed.

Lemma Qposb_true q : Qposb q = true <-> (0 < q)%Q.
Proof.
  unfold Qposb. rewrite negb_true_iff.
  split.
  - intros H. apply Qnot_le_lt. intros Hle.
    apply Qle_bool_iff in Hle. congruence.
  - intros H. destruct (Qle_bool q 0) eqn:E; [|reflexivity].
    apply Qle_bool_iff in E. exfalso. now apply (Qlt_not_le 0 q).
Qed.

Lemma ltv_value avg rate :
  exists q,
    (if gt (Fin rate) (Fin 0) then (Fin avg / Fin rate)%num else Fin 0) = Fin q
    /\ (q == ltvOf avg rate)%Q.
Proof.
  unfold gt, ltvOf. fold (Qposb rate).
  destruct (Qposb rate) eqn:E.
  - pose proof (Qposb_not_zero _ E) as Hz. apply Qposb_true in E.
    simpl. rewrite Hz. eexists. split; [reflexivity|].
    destruct (Qlt_le_dec 0 rate) as [_|Hle]; [reflexivity|].
    exfalso. now apply (Qlt_not_le 0 rate).
  - exists 0%Q. split; [reflexivity|].
    destruct (Qlt_le_dec 0 rate) as [Hlt|_]; [|reflexivity].
    apply Qposb_true in Hlt. congruence.
Qed.

Lemma avg_value db u :
  (forall q, fault db q = None) ->
  plansPopulated db = true ->
  exists customers total avg,
    find db {| q_userId := u; q_status := Some active;
               q_subscriptionDate := []; q_churnDate := [] |} = Ok customers
    /\ reduceMonthlyPrice (Fin 0) customers = Ok (Fin total)
    /\ (if (0 <? length customers)%nat
        then (Fin total / of_nat (length customers))%num
        else Fin 0) = Fin avg
    /\ (avg == avgRevenuePerUser db u)%Q.
Proof.
  intros Hfault Hp. unfold find, avgRevenuePerUser. rewrite Hfault.
  rewrite (filter_ext _ _ (matches_active u)).
  set (cs := List.filter (isActive u) (docs db)).
  destruct (reduceMonthlyPrice_sum cs) with (t := 0%Q) as (total & Hred & Hsum).
  { apply filter_populated; [exact Hp | apply isActive_status]. }
  exists cs, total. destruct (length cs) as [|n] eqn:El.
  - exists 0%Q. split; [reflexivity|]. split; [exact Hred|].
    split; reflexivity.
  - change (0 <? S n)%nat with true. cbv iota.
    pose proof (is_zero_of_nat_pos (S n) ltac:(lia)) as Hz.
    unfold is_zero, of_nat in Hz. unfold of_nat, Num.div. rewrite Hz.
    eexists. split; [reflexivity|]. split; [exact Hred|].
    split; [reflexivity|].
    rewrite Hsum. now rewrite Qplus_0_l.
Qed.

Lemma calculateMRR_succeeds tza db now u date cache :
  (forall q, fault db q = None) ->
  plansPopulated db = true ->
  exists m, (calculateMRR tza db now u date cache).1 = Ok m.
Proof.
  intros Hfault Hp.
  destruct (calculateMRR_compute tza db now u date cache Hfault Hp)
    as (cur & prev & -> & _).
  unfold getCachedOrCompute, computeAndStore, ret.
  destruct (cache !! cacheKey "mrr" u date) as [e|];
    [destruct (now - timestamp e <? cacheTimeout)|]; simpl; eauto.
Qed.

(** C5, as the code has it.  When no valid entry for the LTV key is cached,
    the store answers and every active customer has a plan, [calculateLTV]
    returns (and caches) [current] = avgRevenuePerUser / monthlyChurnRate
    when monthlyChurnRate > 0 and 0 otherwise, [previous] = 0 and
    [growth] = 0, where avgRevenuePerUser is the mean normalised price of the
    customers active now, and monthlyChurnRate is a hundredth of the
    [current] that [calculateChurnRate(userId, date)] returns in that state:
    the churn rate of the month of the reference date, unless a valid cached
    value stands for it. *)
Theorem calculateLTV_formula tza db now u date cache churnData rate :
  valid now (cache !! cacheKey "ltv" u date) = false ->
  (forall q, fault db q = None) ->
  plansPopulated db = true ->
  (calculateChurnRate tza db now u date cache).1 = Ok churnData ->
  current churnData = Fin rate ->
  exists cur,
    (calculateLTV tza db now u date cache).1
    = Ok {| current := Fin cur; previous := Fin 0; growth := Fin 0 |}
    /\ (calculateLTV tza db now u date cache).2
       = <[cacheKey "ltv" u date :=
             {| data := {| current := Fin cur; previous := Fin 0;
                           growth := Fin 0 |};
                timestamp := now |}]>
           (calculateMRR tza db now u date
              (calculateChurnRate tza db now u date cache).2).2
    /\ (cur == ltvOf (avgRevenuePerUser db u) (rate / 100))%Q
    /\ (valid now (cache !! cacheKey "churn" u date) = false ->
        (rate == churnRateOf tza db u date)%Q).
Proof.
  intros Hv Hfault Hp Hchurn Hrate. apply result_pair in Hchurn.
  set (c1 := (calculateChurnRate tza db now u date cache).2) in *.
  destruct (avg_value db u Hfault Hp) as (cs & total & avg & Hfind & Hred & Havg & Eavg).
  destruct (ltv_value avg (rate / inject_Z 100)) as (cur & Hcur & Ecur).
  destruct (calculateMRR_succeeds tza db now u date c1 Hfault Hp) as (m & Hm).
  exists cur.
  assert (Hcalc : calculateLTV tza db now u date cache
    = (Ok {| current := Fin cur; previous := Fin 0; growth := Fin 0 |},
       <[cacheKey "ltv" u date :=
           {| data := {| current := Fin cur; previous := Fin 0;
                         growth := Fin 0 |};
              timestamp := now |}]>
         (calculateMRR tza db now u date c1).2)).
  { unfold calculateLTV. rewrite getCachedOrCompute_invalid by exact Hv.
    unfold computeAndStore, bind. rewrite Hchurn.
    destruct (calculateMRR tza db now u date c1) as [r c2].
    simpl in Hm. subst r. unfold lift, ret. rewrite Hfind, Hred, Havg, Hrate.
    change (Fin rate / of_Z 100)%num with (Fin (rate / inject_Z 100)).
    rewrite Hcur. reflexivity. }
  rewrite Hcalc. split; [reflexivity|]. split; [reflexivity|]. split.
  - rewrite Ecur. unfold ltvOf.
    destruct (Qlt_le_dec 0 (rate / inject_Z 100));
      destruct (Qlt_le_dec 0 (rate / 100)); try reflexivity.
    + now rewrite Eavg.
    + exfalso. eapply Qlt_not_le; eassumption.
    + exfalso. eapply Qlt_not_le; eassumption.
  - intros Hvc.
    destruct (calculateChurnRate_compute tza db now u date cache Hvc Hfault)
      as (cur' & prev' & Hcalc' & Ecur' & _).
    rewrite Hcalc' in Hchurn. injection Hchurn as <- _.
    simpl in Hrate. injection Hrate as <-. exact Ecur'.
Qed.

(** ** Errors *)

Lemma raised_incl db qs qs' e :
  incl qs qs' -> raised db qs e -> raised db qs' e.
Proof. intros Hi [->|(q & Hq & Hf)]; [now left | right; eauto]. Qed.

Lemma reduceMonthlyPrice_Err customers : forall total e,
  reduceMonthlyPrice total customers = Err e -> e = TypeError.
Proof.
  induction customers as [|c cs IH]; simpl; intros total e; [discriminate|].
  destruct (plan c); [apply IH | now intros [= <-]].
Qed.

(** Case analysis on the store's answer to the next query of the goal. *)
Ltac case_fault E e :=
  match goal with
  | |- context [fault ?db ?q] => destruct (fault db q) as [e|] eqn:E
  end.

Ltac case_reduce E x e :=
  match goal with
  | |- context [reduceMonthlyPrice ?t ?l] =>
      destruct (reduceMonthlyPrice t l) as [x|e] eqn:E
  end.

Section ErrorsOfMetrics.
Variables (tza : Z) (db : Db) (now : Z) (u : string) (date : Z).

Lemma getCachedOrCompute_Err (key : string) (f : M Metric Metric) cache e :
  (getCachedOrCompute now key f cache).1 = Err e ->
  (f cache).1 = Err e
  /\ (getCachedOrCompute now key f cache).2 = (f cache).2.
Proof.
  unfold getCachedOrCompute, computeAndStore.
  destruct (cache !! key) as [x|];
    [destruct (now - timestamp x <? cacheTimeout); [discriminate|]|];
    destruct (f cache) as [[d|e'] c']; simpl; try discriminate;
    intros [= ->]; auto.
Qed.

Lemma getCachedOrCompute_Ok_invalid (key : string) (f : M Metric Metric)
    cache m :
  valid now (cache !! key) = false ->
  (getCachedOrCompute now key f cache).1 = Ok m ->
  f cache = (Ok m, (f cache).2)
  /\ (getCachedOrCompute now key f cache).2
     = <[key := {| data := m; timestamp := now |}]> (f cache).2.
Proof.
  intros Hv. rewrite getCachedOrCompute_invalid by exact Hv.
  unfold computeAndStore.
  destruct (f cache) as [[d|e'] c']; simpl; try discriminate.
  intros [= ->]; auto.
Qed.

Lemma calculateMRR_Err cache e :
  (calculateMRR tza db now u date cache).1 = Err e ->
  raised db (mrrQueries tza u date) e.
Proof.
  unfold calculateMRR. intros H. apply getCachedOrCompute_Err in H as [H _].
  revert H. unfold bind, lift, ret, getPreviousMRR, find, mrrQueries.
  case_fault E1 e1; simpl.
  { intros [= <-]. right. eexists. split; [|exact E1]. simpl; auto. }
  case_reduce E2 x e2; simpl.
  2:{ intros [= <-]. left. eapply reduceMonthlyPrice_Err, E2. }
  case_fault E3 e3; simpl.
  { intros [= <-]. right. eexists. split; [|exact E3]. simpl; auto. }
  case_reduce E4 y e4; simpl; [discriminate|].
  intros [= <-]. left. eapply reduceMonthlyPrice_Err, E4.
Qed.

Lemma calculateMRR_Ok_invalid cache m :
  valid now (cache !! cacheKey "mrr" u date) = false ->
  (calculateMRR tza db now u date cache).1 = Ok m ->
  Forall (fun q => fault db q = None) (mrrQueries tza u date)
  /\ (calculateMRR tza db now u date cache).2
     = <[cacheKey "mrr" u date := {| data := m; timestamp := now |}]> cache.
Proof.
  unfold calculateMRR. intros Hv H.
  apply getCachedOrCompute_Ok_invalid in H as [H ->]; [|exact Hv].
  revert H. unfold bind, lift, ret, getPreviousMRR, find, mrrQueries.
  case_fault E1 e1; simpl; [discriminate|].
  case_reduce ER x e2; simpl; [|discriminate].
  case_fault E3 e3; simpl; [discriminate|].
  case_reduce ER' y e4; simpl; [|discriminate].
  intros _. split; [|reflexivity].
  repeat first [apply List.Forall_nil | apply List.Forall_cons]; assumption.
Qed.

Lemma calculateARR_Err cache e :
  (calculateARR tza db now u date cache).1 = Err e ->
  raised db (mrrQueries tza u date) e.
Proof.
  unfold calculateARR, bind. intros H. apply (calculateMRR_Err cache).
  destruct (calculateMRR tza db now u date cache) as [[m|e'] c'];
    [discriminate | exact H].
Qed.

Lemma calculateChurnRate_Err cache e :
  (calculateChurnRate tza db now u date cache).1 = Err e ->
  raised db (churnQueries tza u date) e.
Proof.
  unfold calculateChurnRate. intros H.
  apply getCachedOrCompute_Err in H as [H _].
  revert H. unfold bind, lift, ret, countDocuments, churnQueries.
  case_fault E1 e1; simpl.
  { intros [= <-]. right. eexists. split; [|exact E1]. simpl; auto. }
  case_fault E2 e2; simpl.
  { intros [= <-]. right. eexists. split; [|exact E2]. simpl; auto. }
  case_fault E3 e3; simpl.
  { intros [= <-]. right. eexists. split; [|exact E3]. simpl; auto. }
  case_fault E4 e4; simpl; [|discriminate].
  intros [= <-]. right. eexists. split; [|exact E4]. simpl; auto.
Qed.

Lemma calculateChurnRate_Ok_invalid cache m :
  valid now (cache !! cacheKey "churn" u date) = false ->
  (calculateChurnRate tza db now u date cache).1 = Ok m ->
  Forall (fun q => fault db q = None) (churnQueries tza u date)
  /\ (calculateChurnRate tza db now u date cache).2
     = <[cacheKey "churn" u date := {| data := m; timestamp := now |}]>
         cache.
Proof.
  unfold calculateChurnRate. intros Hv H.
  apply getCachedOrCompute_Ok_invalid in H as [H ->]; [|exact Hv].
  revert H. unfold bind, lift, ret, countDocuments, churnQueries.
  case_fault E1 e1; simpl; [discriminate|].
  case_fault E2 e2; simpl; [discriminate|].
  case_fault E3 e3; simpl; [discriminate|].
  case_fault E4 e4; simpl; [discriminate|].
  intros _. split; [|reflexivity].
  repeat first [apply List.Forall_nil | apply List.Forall_cons]; assumption.
Qed.

Lemma calculateCAC_Err cache e :
  (calculateCAC tza db now u date cache).1 = Err e ->
  raised db (cacQueries tza u date) e.
Proof.
  unfold calculateCAC. intros H.
  apply getCachedOrCompute_Err in H as [H _].
  revert H. unfold bind, lift, ret, find, cacQueries.
  case_fault E1 e1; simpl; [|discriminate].
  intros [= <-]. right. eexists. split; [|exact E1]. simpl; auto.
Qed.

Lemma calculateCAC_Ok_invalid cache m :
  valid now (cache !! cacheKey "cac" u date) = false ->
  (calculateCAC tza db now u date cache).1 = Ok m ->
  Forall (fun q => fault db q = None) (cacQueries tza u date).
Proof.
  unfold calculateCAC. intros Hv H.
  apply getCachedOrCompute_Ok_invalid in H as [H _]; [|exact Hv].
  revert H. unfold bind, lift, ret, find, cacQueries.
  case_fault E1 e1; simpl; [discriminate|].
  intros _.
  repeat first [apply List.Forall_nil | apply List.Forall_cons]; assumption.
Qed.

Lemma calculateLTV_Err cache e :
  (calculateLTV tza db now u date cache).1 = Err e ->
  raised db (allQueries tza u date) e.
Proof.
  unfold calculateLTV. intros H.
  apply getCachedOrCompute_Err in H as [H _].
  revert H. unfold bind.
  destruct (calculateChurnRate tza db now u date cache) as [[cd|e1] c1] eqn:E1.
  2:{ simpl. intros [= <-].
      eapply raised_incl; [|apply (calculateChurnRate_Err cache)].
      - unfold allQueries. intros q Hq. rewrite !in_app_iff. auto.
      - now rewrite E1. }
  destruct (calculateMRR tza db now u date c1) as [[md|e2] c2] eqn:E2.
  2:{ simpl. intros [= <-].
      eapply raised_incl; [|apply (calculateMRR_Err c1)].
      - unfold allQueries. intros q Hq. rewrite !in_app_iff. auto.
      - now rewrite E2. }
  unfold lift, ret, find.
  case_fault E3 e3; simpl.
  { intros [= <-]. right. eexists. split; [|exact E3].
    unfold allQueries, ltvQueries. rewrite !in_app_iff. simpl. auto. }
  case_reduce E4 x e4; simpl; [discriminate|].
  intros [= <-]. left. eapply reduceMonthlyPrice_Err, E4.
Qed.

Lemma calculateLTV_Ok_invalid cache m :
  valid now (cache !! cacheKey "ltv" u date) = false ->
  (calculateLTV tza db now u date cache).1 = Ok m ->
  Forall (fun q => fault db q = None) (ltvQueries tza u date).
Proof.
  unfold calculateLTV. intros Hv H.
  apply getCachedOrCompute_Ok_invalid in H as [H _]; [|exact Hv].
  revert H. unfold bind.
  destruct (calculateChurnRate tza db now u date cache) as [[cd|e1] c1];
    [|discriminate].
  destruct (calculateMRR tza db now u date c1) as [[md|e2] c2];
    [|discriminate].
  unfold lift, ret, find, ltvQueries.
  case_fault E3 e3; simpl; [discriminate|].
  intros _.
  repeat first [apply List.Forall_nil | apply List.Forall_cons]; assumption.
Qed.
End ErrorsOfMetrics.

(** ** Which keys a call writes *)

Section Frame.
Variables (tza : Z) (db : Db) (now : Z) (u : string) (date : Z).
Variables (key : string) (v : option (Entry Metric)).

Lemma untouched_insert k e cache :
  key <> k -> untouched key v cache -> untouched key v (<[k := e]> cache).
Proof. intros Hk Hc. unfold untouched. now rewrite lookup_insert_ne. Qed.

Lemma frame_calculateMRR :
  key <> cacheKey "mrr" u date ->
  maintains (untouched key v) (fun _ => True) (calculateMRR tza db now u date).
Proof.
  intros Hk. unfold calculateMRR. apply maintains_getCachedOrCompute; auto.
  - intros cache d Hc _. now apply untouched_insert.
  - do 2 (apply maintains_bind with (P := fun _ => True);
          [now apply maintains_lift | intros ? _]).
    apply maintains_bind with (P := fun _ => True);
      [|intros ? _; now apply maintains_ret].
    unfold getPreviousMRR.
    apply maintains_bind with (P := fun _ => True);
      [now apply maintains_lift | intros ? _].
    now apply maintains_lift.
Qed.

Lemma frame_calculateARR :
  key <> cacheKey "mrr" u date ->
  maintains (untouched key v) (fun _ => True) (calculateARR tza db now u date).
Proof.
  intros Hk. unfold calculateARR.
  eapply maintains_bind; [now apply frame_calculateMRR|].
  intros m _. now apply maintains_ret.
Qed.

Lemma frame_calculateChurnRate :
  key <> cacheKey "churn" u date ->
  maintains (untouched key v) (fun _ => True) (calculateChurnRate tza db now u date).
Proof.
  intros Hk. unfold calculateChurnRate.
  apply maintains_getCachedOrCompute; auto.
  - intros cache d Hc _. now apply untouched_insert.
  - do 4 (apply maintains_bind with (P := fun _ => True);
          [now apply maintains_lift | intros ? _]).
    now apply maintains_ret.
Qed.

Lemma frame_calculateLTV :
  key <> cacheKey "mrr" u date -> key <> cacheKey "churn" u date ->
  key <> cacheKey "ltv" u date ->
  maintains (untouched key v) (fun _ => True) (calculateLTV tza db now u date).
Proof.
  intros Hm Hc Hl. unfold calculateLTV.
  apply maintains_getCachedOrCompute; auto.
  - intros cache d Hu _. now apply untouched_insert.
  - eapply maintains_bind; [now apply frame_calculateChurnRate|].
    intros cd _.
    eapply maintains_bind; [now apply frame_calculateMRR|].
    intros md _.
    do 2 (apply maintains_bind with (P := fun _ => True);
          [now apply maintains_lift | intros ? _]).
    now apply maintains_ret.
Qed.
End Frame.

Lemma churn_key_ne_mrr u d : cacheKey "churn" u d <> cacheKey "mrr" u d.
Proof. unfold cacheKey. simpl. discriminate. Qed.

Lemma ltv_key_ne_mrr u d : cacheKey "ltv" u d <> cacheKey "mrr" u d.
Proof. unfold cacheKey. simpl. discriminate. Qed.

Lemma ltv_key_ne_churn u d : cacheKey "ltv" u d <> cacheKey "churn" u d.
Proof. unfold cacheKey. simpl. discriminate. Qed.

Lemma cac_key_ne_mrr u d : cacheKey "cac" u d <> cacheKey "mrr" u d.
Proof. unfold cacheKey. simpl. discriminate. Qed.

Lemma cac_key_ne_churn u d : cacheKey "cac" u d <> cacheKey "churn" u d.
Proof. unfold cacheKey. simpl. discriminate. Qed.

Lemma cac_key_ne_ltv u d : cacheKey "cac" u d <> cacheKey "ltv" u d.
Proof. unfold cacheKey. simpl. discriminate. Qed.

Lemma getAllMetrics_Err_inv tza db now u date cache e :
  (getAllMetrics tza db now u date cache).1 = Err e ->
  exists c,
    (calculateMRR tza db now u date c).1 = Err e
    \/ (calculateARR tza db now u date c).1 = Err e
    \/ (calculateChurnRate tza db now u date c).1 = Err e
    \/ (calculateLTV tza db now u date c).1 = Err e
    \/ (calculateCAC tza db now u date c).1 = Err e.
Proof.
  unfold getAllMetrics, bind. cbn [promiseAll].
  destruct (calculateMRR tza db now u date cache) as [r1 c1] eqn:E1.
  destruct (calculateARR tza db now u date c1) as [r2 c2] eqn:E2.
  destruct (calculateChurnRate tza db now u date c2) as [r3 c3] eqn:E3.
  destruct (calculateLTV tza db now u date c3) as [r4 c4] eqn:E4.
  destruct (calculateCAC tza db now u date c4) as [r5 c5] eqn:E5.
  unfold ret.
  destruct r1 as [m|e1].
  2:{ intros [= <-]. exists cache. rewrite E1. auto. }
  destruct r2 as [a|e2].
  2:{ intros [= <-]. exists c1. rewrite E2. auto. }
  destruct r3 as [ch|e3].
  2:{ intros [= <-]. exists c2. rewrite E3. auto. }
  destruct r4 as [l|e4].
  2:{ intros [= <-]. exists c3. rewrite E4. auto 6. }
  destruct r5 as [k|e5]; [discriminate|].
  intros [= <-]. exists c4. rewrite E5. auto 6.
Qed.


(** ** Keys *)

(** C9. No call of [getCachedOrCompute] removes a key: if the compute
    function removes none, every key of the cache before the call is a key
    after it.  An expired entry is replaced, under the same key, by the value
    just computed; if the computation throws, it stays.  None of the service's
    metric calls removes a key; [clearCache] removes them all. *)
Theorem cache_keys_never_shrink {V} (now : Z) (key : string)
    (computeFn : M V V) (cache : gmap string (Entry V)) :
  keeps_keys computeFn ->
  dom cache ⊆ dom (getCachedOrCompute now key computeFn cache).2
  /\ (forall e, cache !! key = Some e -> ~ now - timestamp e < cacheTimeout ->
        match computeFn cache with
        | (Ok d, _) =>
            (getCachedOrCompute now key computeFn cache).2 !! key
            = Some {| data := d; timestamp := now |}
        | (Err _, cache') =>
            (getCachedOrCompute now key computeFn cache).2 = cache'
            /\ is_Some (cache' !! key)
        end)
  /\ (forall tza db u date (c : gmap string (Entry Metric)),
        dom c ⊆ dom (calculateMRR tza db now u date c).2
        /\ dom c ⊆ dom (calculateARR tza db now u date c).2
        /\ dom c ⊆ dom (calculateChurnRate tza db now u date c).2
        /\ dom c ⊆ dom (calculateLTV tza db now u date c).2
        /\ dom c ⊆ dom (calculateCAC tza db now u date c).2
        /\ dom c ⊆ dom (getAllMetrics tza db now u date c).2)
  /\ dom (clearCache cache) = ∅.
Proof.
  intros Hf. split; [|split; [|split]].
  - now apply keeps_keys_getCachedOrCompute.
  - intros e He Hstale.
    rewrite getCachedOrCompute_invalid
      by (apply valid_false; intros e' He'; congruence).
    unfold computeAndStore. specialize (Hf cache).
    destruct (computeFn cache) as [[d|err] cache']; simpl in *.
    + apply lookup_insert_eq.
    + split; [reflexivity|].
      apply elem_of_dom, Hf, elem_of_dom. eauto.
  - intros tza db u date c.
    split; [apply keeps_keys_calculateMRR|].
    split; [apply keeps_keys_calculateARR|].
    split; [apply keeps_keys_calculateChurnRate|].
    split; [apply keeps_keys_calculateLTV|].
    split; [apply keeps_keys_calculateCAC | apply keeps_keys_getAllMetrics].
  - unfold clearCache. apply dom_empty_L.
Qed.

(** ** Growth of a directly computed MRR *)

Lemma getCachedOrCompute_stored {V} now key (f : M V V) cache d cache' :
  getCachedOrCompute now key f cache = (Ok d, cache') ->
  exists e, cache' !! key = Some e /\ data e = d.
Proof.
  unfold getCachedOrCompute, computeAndStore.
  destruct (cache !! key) as [e|] eqn:He;
    [destruct (now - timestamp e <? cacheTimeout)|].
  - intros [= <- <-]. eauto.
  - destruct (f cache) as [[x|err] c1]; [|discriminate].
    intros [= <- <-]. eexists. split; [apply lookup_insert_eq | reflexivity].
  - destruct (f cache) as [[x|err] c1]; [|discriminate].
    intros [= <- <-]. eexists. split; [apply lookup_insert_eq | reflexivity].
Qed.

(** C10. On every cache a running service can hold, [calculateMRR] returns
    [growth] = 0, whatever [current] and [previous] are, and that is the
    growth of the entry it leaves under the key; [calculateARR] returns
    [growth] = 0 as well. *)
Theorem direct_MRR_growth_is_zero tza cache db now u date :
  reachable tza cache ->
  (forall m, (calculateMRR tza db now u date cache).1 = Ok m ->
     growth m = Fin 0
     /\ exists e,
          (calculateMRR tza db now u date cache).2 !! cacheKey "mrr" u date
          = Some e
          /\ data e = m /\ growth (data e) = Fin 0)
  /\ (forall a, (calculateARR tza db now u date cache).1 = Ok a ->
        growth a = Fin 0).
Proof.
  intros Hr. apply reachable_mrr_growth_zero in Hr. split.
  - intros m H.
    destruct (maintains_zero_calculateMRR tza db now u date cache Hr)
      as [_ Hg].
    specialize (Hg m H). split; [exact Hg|].
    apply result_pair in H. unfold calculateMRR in H.
    destruct (getCachedOrCompute_stored _ _ _ _ _ _ H) as (e & He & <-).
    exists e. auto.
  - intros a H.
    destruct (maintains_zero_calculateARR tza db now u date cache Hr)
      as [_ Hg].
    now apply Hg.
Qed.

(** ** The properties at concrete inputs *)

(** Two calls within the time-to-live: the stub runs once, and both calls
    return its value. *)
Example getCachedOrCompute_twice :
  let first := getCachedOrCompute 1000 "k" countingStub ∅ in
  let second := getCachedOrCompute 200000 "k" countingStub first.2 in
  first.1 = Ok 1%nat /\ second.1 = Ok 1%nat
  /\ data <$> (second.2 !! "runs") = Some 1%nat.
Proof. vm_compute. auto. Qed.

(** After the time-to-live, and after [clearCache], the stub runs again. *)
Example getCachedOrCompute_expired :
  let first := getCachedOrCompute 1000 "k" countingStub ∅ in
  let late := getCachedOrCompute 301000 "k" countingStub first.2 in
  let cleared := getCachedOrCompute 2000 "k" countingStub
                   (<["runs" := {| data := 1%nat; timestamp := 0 |}]>
                      (clearCache first.2)) in
  late.1 = Ok 2%nat /\ cleared.1 = Ok 2%nat.
Proof. vm_compute. auto. Qed.

Lemma getCachedOrCompute_contract_witness :
  getCachedOrCompute 2000 "k" countingStub oneEntry = (Ok 7%nat, oneEntry)
  /\ getCachedOrCompute 301000 "k" countingStub oneEntry
     = (Ok 1%nat,
        <["k" := {| data := 1%nat; timestamp := 301000 |}]>
          (<["runs" := {| data := 1%nat; timestamp := 0 |}]> oneEntry)).
Proof.
  split.
  - apply (proj1 (getCachedOrCompute_contract 2000 "k" countingStub oneEntry)
             {| data := 7%nat; timestamp := 1000 |});
      [reflexivity | unfold cacheTimeout; simpl; lia].
  - apply (proj1 (proj2
             (getCachedOrCompute_contract 301000 "k" countingStub oneEntry)
             ltac:(intros e He; vm_compute in He; injection He as <-;
                   unfold cacheTimeout; simpl; lia))).
    reflexivity.
Defined.

Lemma clearCache_forces_recompute_witness :
  getCachedOrCompute 2000 "k" countingStub (clearCache oneEntry)
  = (Ok 1%nat,
     <["k" := {| data := 1%nat; timestamp := 2000 |}]>
       (<["runs" := {| data := 1%nat; timestamp := 0 |}]> ∅)).
Proof.
  exact (proj2 (proj2
    (clearCache_forces_recompute oneEntry 2000 "k" countingStub))).
Defined.

Lemma cache_keys_never_shrink_witness :
  dom oneEntry ⊆ dom (getCachedOrCompute 301000 "k" countingStub oneEntry).2.
Proof.
  apply (cache_keys_never_shrink 301000 "k" countingStub oneEntry).
  intros cache. unfold countingStub. simpl.
  rewrite dom_insert. apply union_subseteq_r.
Defined.

(** The aggregate of the February account: MRR 300 after 200, a growth of
    50 percent; the churn rate fell from 50 to 0, a growth of -100. *)
Example getAllMetrics_february :
  match (getAllMetrics utc growthDb feb15 acct feb15 ∅).1 with
  | Ok r =>
      metricEqb (mrr r) (metric 300 200 50)
      && metricEqb (arr r) (metric 3600 2400 50)
      && metricEqb (churn r) (metric 0 50 (-100))
      && metricEqb (ltv r) (metric 0 0 0)
      && metricEqb (cac r) (metric 30 0 0) = true
  | Err _ => False
  end.
Proof. vm_compute. reflexivity. Qed.

(** The same metrics asked for one by one: the MRR and the ARR come with
    growth 0, the churn rate with the difference of the two rates. *)
Example direct_calls_february :
  metricEqb (valueOr (metric 0 0 1)
               (calculateMRR utc growthDb feb15 acct feb15 ∅).1)
            (metric 300 200 0)
  && metricEqb (valueOr (metric 0 0 1)
                  (calculateARR utc growthDb feb15 acct feb15 ∅).1)
               (metric 3600 2400 0)
  && metricEqb (valueOr (metric 0 0 1)
                  (calculateChurnRate utc growthDb feb15 acct feb15 ∅).1)
               (metric 0 50 (-50)) = true.
Proof. vm_compute. reflexivity. Qed.


Lemma calculateARR_twelve_times_MRR_witness :
  let m := valueOr (metric 0 0 0)
             (calculateMRR utc growthDb feb15 acct feb15 ∅).1 in
  exists a,
    (calculateARR utc growthDb feb15 acct feb15 ∅).1 = Ok a
    /\ current a = (current m * of_Z 12)%num
    /\ previous a = (previous m * of_Z 12)%num.
Proof.
  intros m.
  assert (E : (calculateMRR utc growthDb feb15 acct feb15 ∅).1 = Ok m)
    by (vm_compute; reflexivity).
  destruct (proj1 (calculateARR_twelve_times_MRR
                     utc growthDb feb15 acct feb15 ∅) _ E)
    as (a & Ha & _ & Hc & Hp & _).
  exists a. split; [exact Ha | split; assumption].
Defined.



(** In the January of the example account one of two customers left: the
    LTV for a date in January is 100 / 0.5 = 200, also when it is asked for
    in February, when nobody has left. *)
Lemma calculateLTV_formula_witness :
  exists cur,
    (calculateLTV utc growthDb feb15 acct jan15 ∅).1 = Ok (metric cur 0 0)
    /\ (cur == ltvOf (avgRevenuePerUser growthDb acct) ((100 # 2) / 100))%Q
    /\ ((100 # 2) == churnRateOf utc growthDb acct jan15)%Q.
Proof.
  destruct (calculateLTV_formula utc growthDb feb15 acct jan15 ∅
              (valueOr (metric 0 0 0)
                 (calculateChurnRate utc growthDb feb15 acct jan15 ∅).1)
              (100 # 2)%Q)
    as (cur & H & _ & Hcur & Hrate).
  - vm_compute. reflexivity.
  - intros q. reflexivity.
  - vm_compute. reflexivity.
  - vm_compute. reflexivity.
  - vm_compute. reflexivity.
  - exists cur. split; [exact H|]. split; [exact Hcur|].
    apply Hrate. vm_compute. reflexivity.
Defined.

(** C5, as the claim has it, fails.  Asked in February 2024 (when the
    current churn rate of the example account is 0, so that the claimed
    formula gives 0) for a date in January (churn rate 50 percent),
    [calculateLTV] returns 200; asked for a date in February it returns 0.
    The churn rate it divides by is that of the month of the reference
    date. *)
Lemma calculateLTV_depends_on_reference_date :
  match (calculateLTV utc growthDb feb15 acct jan15 ∅).1,
        (calculateLTV utc growthDb feb15 acct feb15 ∅).1 with
  | Ok january, Ok february =>
      (current january ≈ Fin 200)%num
      /\ (current february ≈ Fin 0)%num
      /\ (churnRateOf utc growthDb acct feb15 == 0)%Q
      /\ ~ (current january
            ≈ Fin (ltvOf (avgRevenuePerUser growthDb acct)
                         (churnRateOf utc growthDb acct feb15 / 100)))%num
  | _, _ => False
  end.
Proof.
  vm_compute. repeat split; try reflexivity. discriminate.
Qed.


(** The store fails on the query of the CAC only: the aggregate call throws
    the store's error, although four of the five metrics were computed. *)
Example getAllMetrics_one_failure :
  (getAllMetrics utc brokenDb feb15 acct feb15 ∅).1
  = Err (DbError "connection reset")
  /\ is_ok (calculateMRR utc brokenDb feb15 acct feb15 ∅).1 = true
  /\ is_ok (calculateChurnRate utc brokenDb feb15 acct feb15 ∅).1 = true
  /\ is_ok (calculateLTV utc brokenDb feb15 acct feb15 ∅).1 = true
  /\ (calculateCAC utc brokenDb feb15 acct feb15 ∅).1
     = Err (DbError "connection reset").
Proof. vm_compute. auto. Qed.

Lemma direct_MRR_growth_is_zero_witness :
  let cache := after utc growthDb feb15 (CallAllMetrics acct feb15) ∅ in
  let m := valueOr (metric 0 0 1)
             (calculateMRR utc growthDb (feb15 + 1000) acct feb15 cache).1 in
  growth m = Fin 0.
Proof.
  intros cache m.
  assert (E : (calculateMRR utc growthDb (feb15 + 1000) acct feb15 cache).1
              = Ok m)
    by (vm_compute; reflexivity).
  exact (proj1 (proj1 (direct_MRR_growth_is_zero utc cache growthDb
                  (feb15 + 1000) acct feb15
                  (reachable_call utc growthDb feb15
                     (CallAllMetrics acct feb15) ∅ (reachable_new utc)))
           _ E)).
Defined.

(** The cutoff of the MRR is a [Date], the midnight that opens the last day
    of the month: a subscription that starts at that midnight counts for the
    month; one that starts later that day counts from the next month on. *)
Example calculateMRR_cutoff :
  let mrrOf db date :=
    current (valueOr (metric 1 1 1) (calculateMRR utc db date acct date ∅).1) in
  Num.eqb (mrrOf (healthy [subscriber monthly100 (ymd 2024 2 29)]) feb15)
          (Fin 100)
  && Num.eqb (mrrOf (healthy [subscriber monthly100
                                (ymd 2024 2 29 + hms 12 0 0)]) feb15)
             (Fin 0)
  && Num.eqb (mrrOf (healthy [subscriber monthly100
                                (ymd 2024 2 29 + hms 12 0 0)])
                    (ymd 2024 3 15))
             (Fin 100) = true.
Proof. vm_compute. reflexivity. Qed.

(** ** More calendar facts *)

(** Month [n], counted from January of year 0. *)
Lemma MakeDay_index year month :
  MakeDay year month 1 = MakeDay 0 (12 * year + month) 1.
Proof.
  unfold MakeDay.
  replace ((12 * year + month) / 12) with (year + month / 12)
    by (Z.div_mod_to_equations; lia).
  replace ((12 * year + month) mod 12) with (month mod 12)
    by (Z.div_mod_to_equations; lia).
  reflexivity.
Qed.

Lemma MakeDay_steps (n : nat) a :
  MakeDay 0 a 1 + 28 * Z.of_nat n <= MakeDay 0 (a + Z.of_nat n) 1.
Proof.
  induction n as [|n IH].
  - replace (a + Z.of_nat 0) with a by lia. lia.
  - pose proof (MakeDay_month_length 0 (a + Z.of_nat n)) as Hn.
    replace (a + Z.of_nat (S n)) with (a + Z.of_nat n + 1) by lia. lia.
Qed.

Lemma MakeDay_increasing a b :
  a < b -> MakeDay 0 a 1 + 28 * (b - a) <= MakeDay 0 b 1.
Proof.
  intros Hab. pose proof (MakeDay_steps (Z.to_nat (b - a)) a) as H.
  replace (a + Z.of_nat (Z.to_nat (b - a))) with b in H by lia. lia.
Qed.

(** The civil date of the first day of a month. *)
Lemma civil_from_days_first y m :
  1 <= m <= 12 -> civil_from_days (days_from_civil y m 1) = (y, m, 1).
Proof.
  intros Hm.
  pose proof (civil_from_days_inverse (days_from_civil y m 1)) as Hi.
  pose proof (civil_from_days_month (days_from_civil y m 1)) as Hc.
  destruct (civil_from_days (days_from_civil y m 1)) as [[y' m'] d'].
  destruct Hi as (Hd & Hm' & Hd').
  assert (Hz : days_from_civil y m 1 = MakeDay 0 (12 * y + (m - 1)) 1).
  { rewrite <- MakeDay_index. unfold MakeDay.
    replace ((m - 1) / 12) with 0 by (Z.div_mod_to_equations; lia).
    replace ((m - 1) mod 12) with (m - 1) by (Z.div_mod_to_equations; lia).
    replace (y + 0) with y by lia. replace (m - 1 + 1) with m by lia. lia. }
  rewrite (MakeDay_index y' (m' - 1)), (MakeDay_index y' m') in Hc.
  rewrite Hz in Hc.
  assert (Hn : 12 * y + (m - 1) = 12 * y' + (m' - 1)).
  { destruct (Z.lt_trichotomy (12 * y + (m - 1)) (12 * y' + (m' - 1)))
      as [Hlt|[Heq|Hgt]]; [|exact Heq|].
    - pose proof (MakeDay_increasing _ _ Hlt). lia.
    - assert (Hlt : 12 * y' + m' <= 12 * y + (m - 1)) by lia.
      destruct (Z.eq_dec (12 * y' + m') (12 * y + (m - 1))) as [E|E].
      + rewrite E in Hc. lia.
      + pose proof (MakeDay_increasing (12 * y' + m') (12 * y + (m - 1))
                      ltac:(lia)). lia. }
  assert (y' = y) by lia. assert (m' = m) by lia. subst y' m'.
  rewrite (days_from_civil_day y m d') in Hd.
  assert (d' = 1) by lia. now subst d'.
Qed.

(** The local year and month of [new Date(year, month, 1)]. *)
Lemma local_month_newDate tza year month :
  getFullYear tza (newDate tza year month 1) = fullYear year + month / 12
  /\ getMonth tza (newDate tza year month 1) = month mod 12.
Proof.
  unfold getFullYear, getMonth, YearFromTime, MonthFromTime, LocalTime,
    newDate, UTC, Day.
  replace (MakeDay (fullYear year) month 1 * msPerDay - tza + tza)
    with (MakeDay (fullYear year) month 1 * msPerDay) by lia.
  rewrite Z.div_mul by (unfold msPerDay; lia).
  unfold MakeDay.
  replace (days_from_civil (fullYear year + month / 12) (month mod 12 + 1) 1
           + 1 - 1)
    with (days_from_civil (fullYear year + month / 12) (month mod 12 + 1) 1)
    by lia.
  pose proof (Z.mod_pos_bound month 12 ltac:(lia)).
  rewrite civil_from_days_first by lia. simpl. split; lia.
Qed.

(** ** CAC *)

Lemma matches_new u first last c :
  matches {| q_userId := u; q_status := None;
             q_subscriptionDate := [Gte first; Lte last];
             q_churnDate := [] |} c
  = isNewCustomer u first last c.
Proof.
  unfold matches, isNewCustomer. simpl. now rewrite !andb_true_r.
Qed.

Lemma acquisitionCostOr0_cost c :
  exists q, acquisitionCostOr0 c = Fin q /\ (q == customerCost c)%Q.
Proof.
  unfold acquisitionCostOr0, customerCost.
  destruct (acquisitionCost c) as [q|]; [|exists 0%Q; split; reflexivity].
  destruct (Qzerob q) eqn:E.
  - exists 0%Q. split; [reflexivity|]. apply Qzerob_true in E. now rewrite E.
  - exists q. split; reflexivity.
Qed.

Lemma reduceAcquisitionCost_sum customers : forall t, exists q,
  reduceAcquisitionCost (Fin t) customers = Fin q
  /\ (q == t + Qsum (map customerCost customers))%Q.
Proof.
  unfold reduceAcquisitionCost.
  induction customers as [|c cs IH]; intros t; simpl.
  - exists t. split; [reflexivity | ring].
  - destruct (acquisitionCostOr0_cost c) as (x & -> & Hx). simpl.
    destruct (IH (t + x)%Q) as (q & -> & Hq).
    exists q. split; [reflexivity|]. rewrite Hq, Hx. ring.
Qed.

Lemma calculateCAC_compute tza db now u date cache :
  fault db {| q_userId := u; q_status := None;
              q_subscriptionDate :=
                [Gte (startOfMonth tza date); Lte (endOfMonth tza date)];
              q_churnDate := [] |} = None ->
  exists cur,
    calculateCAC tza db now u date cache
    = getCachedOrCompute now (cacheKey "cac" u date)
        (ret {| current := Fin cur; previous := Fin 0; growth := Fin 0 |})
        cache
    /\ (cur == cacOf db u (startOfMonth tza date) (endOfMonth tza date))%Q.
Proof.
  intros Hfault.
  unfold calculateCAC, getCachedOrCompute, computeAndStore, bind, lift, ret,
    find.
  rewrite Hfault.
  rewrite (filter_ext _ _ (matches_new u _ _)).
  unfold cacOf.
  set (cs := List.filter _ (docs db)).
  destruct (reduceAcquisitionCost_sum cs 0%Q) as (q & -> & Hq).
  destruct (length cs) as [|n] eqn:En; simpl.
  - exists 0%Q. split; reflexivity.
  - eexists. split; [reflexivity|]. rewrite Hq.
    assert (Hnz : ~ (inject_Z (Z.of_nat (S n)) == 0)%Q).
    { intros H. unfold Qeq in H. simpl in H. lia. }
    field. exact Hnz.
Qed.

(** X1. [calculateCAC] returns the data of the entry cached for its key if
    that is less than five minutes old.  Otherwise, when the store answers
    its one query, it returns and caches [current] = the mean of
    [acquisitionCost || 0] over the account's customers, of any status,
    with [startOfMonth(date) <= subscriptionDate <= endOfMonth(date)] ([0]
    when there are none), [previous] = 0 and [growth] = 0; no plan is
    read. *)
Theorem calculateCAC_formula tza db now u date cache :
  (fault db {| q_userId := u; q_status := None;
               q_subscriptionDate :=
                 [Gte (startOfMonth tza date); Lte (endOfMonth tza date)];
               q_churnDate := [] |} = None ->
   valid now (cache !! cacheKey "cac" u date) = false ->
   exists m,
     calculateCAC tza db now u date cache
     = (Ok m, <[cacheKey "cac" u date := {| data := m; timestamp := now |}]>
                cache)
     /\ (current m
         ≈ Fin (cacOf db u (startOfMonth tza date) (endOfMonth tza date)))%num
     /\ previous m = Fin 0
     /\ growth m = Fin 0
     /\ (List.filter (isNewCustomer u (startOfMonth tza date)
                        (endOfMonth tza date)) (docs db) = [] ->
         (current m ≈ Fin 0)%num))
  /\ (forall e, cache !! cacheKey "cac" u date = Some e ->
        now - timestamp e < cacheTimeout ->
        calculateCAC tza db now u date cache = (Ok (data e), cache)).
Proof.
  split.
  - intros Hfault Hv.
    destruct (calculateCAC_compute tza db now u date cache Hfault)
      as (cur & Hcalc & Hcur).
    rewrite getCachedOrCompute_invalid in Hcalc by exact Hv.
    eexists. split; [exact Hcalc|]. simpl.
    split; [exact Hcur|]. split; [reflexivity|]. split; [reflexivity|].
    intros Hnone. rewrite Hcur. unfold cacOf. rewrite Hnone. reflexivity.
  - intros e He Hlt. unfold calculateCAC.
    eapply getCachedOrCompute_valid; eauto using valid_true.
Qed.

Lemma Qsum_bounds (f : Customer -> Q) (hi : Q) customers :
  (forall c, In c customers -> 0 <= f c <= hi)%Q ->
  (0 <= Qsum (map f customers)
   /\ Qsum (map f customers) <= hi * inject_Z (Z.of_nat (length customers)))%Q.
Proof.
  induction customers as [|c cs IH]; intros H.
  - simpl. split; [apply Qle_refl|]. rewrite Qmult_0_r. apply Qle_refl.
  - destruct (H c (or_introl eq_refl)) as [H0 H1].
    destruct IH as [IH0 IH1]; [intros x Hx; apply H; now right|].
    cbn [map Qsum length]. split.
    + apply (Qle_trans _ (0 + 0)%Q); [apply Qle_refl|].
      now apply Qplus_le_compat.
    + rewrite Nat2Z.inj_succ. unfold Z.succ. rewrite inject_Z_plus.
      assert (E : (hi * (inject_Z (Z.of_nat (length cs)) + inject_Z 1)
                   == hi + hi * inject_Z (Z.of_nat (length cs)))%Q) by ring.
      rewrite E. now apply Qplus_le_compat.
Qed.


(** ** When the metrics return *)

Lemma plansPopulated_account db u :
  plansPopulated db = true -> accountPopulated db u.
Proof.
  intros Hp. apply filter_populated; [exact Hp | apply isActive_status].
Qed.

Lemma reduceMonthlyPrice_Ok_sum customers : forall t x,
  reduceMonthlyPrice (Fin t) customers = Ok x ->
  exists q, x = Fin q /\ (q == t + Qsum (map customerPrice customers))%Q.
Proof.
  induction customers as [|c cs IH]; intros t x; simpl.
  - intros [= <-]. exists t. split; [reflexivity | ring].
  - unfold customerPrice at 1. destruct (plan c) as [p|]; [|discriminate].
    destruct (getMonthlyPrice_normalized p) as (y & -> & Hy). simpl.
    intros H. apply IH in H as (q & -> & Hq).
    exists q. split; [reflexivity|]. rewrite Hq, Hy. ring.
Qed.

Lemma accountPopulated_filter db u (f : Customer -> bool) :
  accountPopulated db u ->
  (forall c, f c = true -> isActive u c = true) ->
  Forall (fun c => plan c <> None) (List.filter f (docs db)).
Proof.
  unfold accountPopulated. rewrite !List.Forall_forall. intros Hp Hf c Hc.
  apply filter_In in Hc as [Hin Hfc]. apply Hp. apply filter_In. auto.
Qed.

Lemma find_active_Lte_account db u cutoff :
  fault db {| q_userId := u; q_status := Some active;
              q_subscriptionDate := [Lte cutoff]; q_churnDate := [] |} = None ->
  accountPopulated db u ->
  exists customers q,
    find db {| q_userId := u; q_status := Some active;
               q_subscriptionDate := [Lte cutoff]; q_churnDate := [] |}
    = Ok customers
    /\ reduceMonthlyPrice (Fin 0) customers = Ok (Fin q)
    /\ (q == mrrAt db u cutoff)%Q.
Proof.
  intros Hfault Hp. unfold find. rewrite Hfault.
  rewrite (filter_ext _ _ (matches_active_Lte u cutoff)).
  eexists.
  destruct (reduceMonthlyPrice_sum
    (List.filter (fun c => isActive u c && (subscriptionDate c <=? cutoff))
       (docs db)))
    with (t := 0%Q) as (q & Hq & Hsum).
  { apply (accountPopulated_filter db u); [exact Hp|].
    intros c Hc. now apply andb_true_iff in Hc as [Hc _]. }
  exists q. split; [reflexivity|]. split; [exact Hq|].
  rewrite Hsum. unfold mrrAt. ring.
Qed.

Lemma calculateMRR_compute_account tza db now u date cache :
  answers db (mrrQueries tza u date) ->
  accountPopulated db u ->
  exists cur prev,
    calculateMRR tza db now u date cache
    = getCachedOrCompute now (cacheKey "mrr" u date)
        (ret {| current := Fin cur; previous := Fin prev; growth := Fin 0 |})
        cache
    /\ (cur == mrrAt db u (endOfMonth tza date))%Q
    /\ (prev == mrrAt db u (prevMonthEnd tza date))%Q.
Proof.
  intros Hans Hp. unfold answers, mrrQueries in Hans.
  apply List.Forall_cons_iff in Hans as [H1 Hans].
  apply List.Forall_cons_iff in Hans as [H2 _].
  destruct (find_active_Lte_account db u (endOfMonth tza date) H1 Hp)
    as (cs & cur & Hfind & Hred & Hcur).
  destruct (find_active_Lte_account db u (prevMonthEnd tza date) H2 Hp)
    as (cs' & prev & Hfind' & Hred' & Hprev).
  exists cur, prev. split; [|split; assumption].
  unfold calculateMRR, getCachedOrCompute, computeAndStore, getPreviousMRR.
  unfold bind, lift, ret.
  now rewrite Hfind, Hred, Hfind', Hred'.
Qed.

Lemma getCachedOrCompute_ret_Ok {V} now key (d : V) cache :
  exists d', (getCachedOrCompute now key (ret d) cache).1 = Ok d'.
Proof.
  unfold getCachedOrCompute, computeAndStore, ret.
  destruct (cache !! key) as [e|];
    [destruct (now - timestamp e <? cacheTimeout)|]; simpl; eauto.
Qed.

Section Succeeds.
Variables (tza : Z) (db : Db) (now : Z) (u : string) (date : Z).

Lemma calculateMRR_returns cache :
  answers db (mrrQueries tza u date) -> accountPopulated db u ->
  exists m, (calculateMRR tza db now u date cache).1 = Ok m.
Proof.
  intros Hans Hp.
  destruct (calculateMRR_compute_account tza db now u date cache Hans Hp)
    as (cur & prev & -> & _).
  apply getCachedOrCompute_ret_Ok.
Qed.

Lemma calculateARR_returns cache :
  answers db (mrrQueries tza u date) -> accountPopulated db u ->
  exists a, (calculateARR tza db now u date cache).1 = Ok a.
Proof.
  intros Hans Hp. destruct (calculateMRR_returns cache Hans Hp) as (m & Hm).
  apply result_pair in Hm. unfold calculateARR, bind. rewrite Hm.
  simpl. eauto.
Qed.

Lemma calculateChurnRate_returns cache :
  answers db (churnQueries tza u date) ->
  exists m, (calculateChurnRate tza db now u date cache).1 = Ok m.
Proof.
  intros Hans. unfold answers, churnQueries in Hans.
  apply List.Forall_cons_iff in Hans as [H1 Hans].
  apply List.Forall_cons_iff in Hans as [H2 Hans].
  apply List.Forall_cons_iff in Hans as [H3 Hans].
  apply List.Forall_cons_iff in Hans as [H4 _].
  unfold calculateChurnRate, getCachedOrCompute, computeAndStore, bind, lift,
    ret, countDocuments.
  rewrite H1, H2, H3, H4.
  destruct (cache !! cacheKey "churn" u date) as [e|];
    [destruct (now - timestamp e <? cacheTimeout)|]; simpl; eauto.
Qed.

Lemma calculateCAC_returns cache :
  answers db (cacQueries tza u date) ->
  exists m, (calculateCAC tza db now u date cache).1 = Ok m.
Proof.
  intros Hans. apply List.Forall_inv in Hans.
  destruct (calculateCAC_compute tza db now u date cache Hans)
    as (cur & -> & _).
  apply getCachedOrCompute_ret_Ok.
Qed.

Lemma calculateLTV_returns cache :
  answers db (allQueries tza u date) -> accountPopulated db u ->
  exists m, (calculateLTV tza db now u date cache).1 = Ok m.
Proof.
  intros Hans Hp. unfold answers, allQueries in Hans.
  rewrite !List.Forall_app in Hans. destruct Hans as (Hm & Hc & Hl & _).
  apply List.Forall_inv in Hl.
  unfold calculateLTV, getCachedOrCompute, computeAndStore.
  destruct (cache !! cacheKey "ltv" u date) as [e|];
    [destruct (now - timestamp e <? cacheTimeout); [simpl; eauto|]|].
  all: unfold bind;
    destruct (calculateChurnRate_returns cache Hc) as (ch & Hch);
    apply result_pair in Hch; rewrite Hch;
    destruct (calculateMRR_returns
                (calculateChurnRate tza db now u date cache).2 Hm Hp)
      as (m & Hmrr);
    apply result_pair in Hmrr; rewrite Hmrr;
    unfold lift, ret, find; rewrite Hl;
    rewrite (filter_ext _ _ (matches_active u));
    destruct (reduceMonthlyPrice_sum (List.filter (isActive u) (docs db))
                Hp 0%Q) as (q & -> & _);
    simpl; eauto.
Qed.
End Succeeds.

Lemma getAllMetrics_answered tza db now u date cache :
  answers db (allQueries tza u date) ->
  accountPopulated db u ->
  exists r, (getAllMetrics tza db now u date cache).1 = Ok r.
Proof.
  intros Hans Hp.
  destruct (getAllMetrics tza db now u date cache) as [[r|e] c'] eqn:E;
    [eauto|].
  exfalso.
  pose proof Hans as Hall. unfold answers, allQueries in Hans.
  rewrite !List.Forall_app in Hans. destruct Hans as (Hm & Hc & Hl & Hk).
  assert (H : (getAllMetrics tza db now u date cache).1 = Err e)
    by now rewrite E.
  apply getAllMetrics_Err_inv in H as (c & [H|[H|[H|[H|H]]]]).
  - destruct (calculateMRR_returns tza db now u date c Hm Hp) as (m & Hr).
    congruence.
  - destruct (calculateARR_returns tza db now u date c Hm Hp) as (m & Hr).
    congruence.
  - destruct (calculateChurnRate_returns tza db now u date c Hc) as (m & Hr).
    congruence.
  - destruct (calculateLTV_returns tza db now u date c Hall Hp) as (m & Hr).
    congruence.
  - destruct (calculateCAC_returns tza db now u date c Hk) as (m & Hr).
    congruence.
Qed.


(** ** MRR and ARR in the aggregate *)

Lemma calculateMRR_Ok_sum tza db now u date cache m :
  valid now (cache !! cacheKey "mrr" u date) = false ->
  (calculateMRR tza db now u date cache).1 = Ok m ->
  exists cur prev,
    m = {| current := Fin cur; previous := Fin prev; growth := Fin 0 |}
    /\ (cur == mrrAt db u (endOfMonth tza date))%Q
    /\ (prev == mrrAt db u (prevMonthEnd tza date))%Q.
Proof.
  intros Hv H. unfold calculateMRR in H.
  apply getCachedOrCompute_Ok_invalid in H as [H _]; [|exact Hv].
  revert H. unfold getPreviousMRR, bind, lift, ret, find.
  case_fault E1 e1; [discriminate|].
  rewrite (filter_ext _ _ (matches_active_Lte u (endOfMonth tza date))).
  case_reduce R1 x1 e1; [|discriminate].
  case_fault E2 e2; [discriminate|].
  rewrite (filter_ext _ _ (matches_active_Lte u (prevMonthEnd tza date))).
  case_reduce R2 x2 e2; [|discriminate].
  apply reduceMonthlyPrice_Ok_sum in R1 as (cur & -> & Hcur).
  apply reduceMonthlyPrice_Ok_sum in R2 as (prev & -> & Hprev).
  intros [= <-]. exists cur, prev. split; [reflexivity|].
  unfold mrrAt. rewrite Hcur, Hprev. split; ring.
Qed.

Lemma calculateARR_of_MRR tza db now u date cache m cache' :
  calculateMRR tza db now u date cache = (Ok m, cache') ->
  calculateARR tza db now u date cache' 
  = (Ok {| current := (current m * of_Z 12)%num;
           previous := (previous m * of_Z 12)%num;
           growth := growth m |}, cache').
Proof.
  intros H. apply calculateMRR_again in H.
  unfold calculateARR, bind. rewrite H. reflexivity.
Qed.

(** The MRR and the ARR of an aggregate whose MRR was computed. *)
Lemma getAllMetrics_mrr_arr tza db now u date cache r :
  valid now (cache !! cacheKey "mrr" u date) = false ->
  (getAllMetrics tza db now u date cache).1 = Ok r ->
  exists cur prev,
    mrr r = withGrowth {| current := Fin cur; previous := Fin prev;
                          growth := Fin 0 |}
    /\ arr r = withGrowth {| current := Fin (cur * inject_Z 12);
                             previous := Fin (prev * inject_Z 12);
                             growth := Fin 0 |}
    /\ (cur == mrrAt db u (endOfMonth tza date))%Q
    /\ (prev == mrrAt db u (prevMonthEnd tza date))%Q.
Proof.
  intros Hv H. apply result_pair in H. apply getAllMetrics_Ok in H.
  destruct H as (m & a & ch & l & k & c1 & c2 & c3 & c4
                 & E1 & E2 & _ & _ & _ & ->).
  assert (Hm : (calculateMRR tza db now u date cache).1 = Ok m)
    by now rewrite E1.
  destruct (calculateMRR_Ok_sum tza db now u date cache m Hv Hm)
    as (cur & prev & -> & Hcur & Hprev).
  rewrite (calculateARR_of_MRR _ _ _ _ _ _ _ _ E1) in E2.
  injection E2 as <- _. exists cur, prev. simpl. auto.
Qed.

Lemma calculateGrowth_Fin c p :
  calculateGrowth (Fin c) (Fin p)
  = if Qzerob p then Fin 0 else Fin ((c + - p) / p * inject_Z 100).
Proof.
  unfold calculateGrowth, is_zero. destruct (Qzerob p) eqn:E; [reflexivity|].
  simpl. now rewrite E.
Qed.

Lemma calculateGrowth_nonneg c p :
  (0 <= p)%Q -> (p <= c)%Q ->
  exists g, calculateGrowth (Fin c) (Fin p) = Fin g /\ (0 <= g)%Q.
Proof.
  intros Hp Hc. rewrite calculateGrowth_Fin.
  destruct (Qzerob p) eqn:E.
  - exists 0%Q. split; [reflexivity | apply Qle_refl].
  - eexists. split; [reflexivity|].
    apply Qzerob_false in E.
    assert (Hpos : (0 < p)%Q).
    { apply Qle_lteq in Hp as [Hlt|Heq]; [exact Hlt|].
      exfalso. apply E. now symmetry. }
    apply Qmult_le_0_compat; [|discriminate].
    apply Qle_shift_div_l; [exact Hpos|].
    rewrite Qmult_0_l. unfold Qminus. 
    apply (Qplus_le_r _ _ p). ring_simplify. exact Hc.
Qed.

Lemma normalizedPrice_nonneg p : (0 <= price p)%Q -> (0 <= normalizedPrice p)%Q.
Proof.
  intros H. unfold normalizedPrice.
  apply Qle_shift_div_l; [destruct (billingCycle p); reflexivity|].
  now rewrite Qmult_0_l.
Qed.

Lemma Qsum_filter_le (f g : Customer -> bool) customers :
  (forall c, f c = true -> g c = true) ->
  (forall c, In c customers -> g c = true -> (0 <= customerPrice c)%Q) ->
  (0 <= Qsum (map customerPrice (List.filter f customers))
   /\ Qsum (map customerPrice (List.filter f customers))
      <= Qsum (map customerPrice (List.filter g customers)))%Q.
Proof.
  intros Hfg. induction customers as [|c cs IH]; intros Hpos.
  - simpl. split; apply Qle_refl.
  - destruct IH as [IH0 IH1]; [intros x Hx; apply Hpos; now right|].
    pose proof (Hpos c (or_introl eq_refl)) as Hc.
    cbn [List.filter].
    destruct (f c) eqn:Ef.
    + rewrite (Hfg c Ef) in *. cbn [map Qsum]. specialize (Hc eq_refl). split.
      * apply (Qle_trans _ (0 + 0)%Q); [apply Qle_refl|].
        now apply Qplus_le_compat.
      * apply Qplus_le_compat; [apply Qle_refl | exact IH1].
    + split; [exact IH0|].
      destruct (g c) eqn:Eg; [|exact IH1].
      cbn [map Qsum]. specialize (Hc eq_refl).
      apply (Qle_trans _ (0 + Qsum (map customerPrice (List.filter g cs)))%Q).
      * rewrite Qplus_0_l. exact IH1.
      * apply Qplus_le_compat; [exact Hc | apply Qle_refl].
Qed.

Lemma customerPrice_nonneg db u c :
  nonNegativePrices db u -> In c (docs db) -> isActive u c = true ->
  (0 <= customerPrice c)%Q.
Proof.
  intros Hn Hin Ha. unfold customerPrice.
  destruct (plan c) as [p|] eqn:Ep; [|apply Qle_refl].
  apply normalizedPrice_nonneg. now apply (Hn c p).
Qed.

Lemma mrrAt_monotone db u cutoff cutoff' :
  nonNegativePrices db u -> cutoff <= cutoff' ->
  (0 <= mrrAt db u cutoff /\ mrrAt db u cutoff <= mrrAt db u cutoff')%Q.
Proof.
  intros Hn Hle. unfold mrrAt. apply Qsum_filter_le.
  - intros c Hc. apply andb_true_iff in Hc as [Ha Hs].
    rewrite Ha. simpl. apply Z.leb_le in Hs. apply Z.leb_le. lia.
  - intros c Hin Hc. apply andb_true_iff in Hc as [Ha _].
    now apply (customerPrice_nonneg db u).
Qed.

Lemma prevMonthEnd_le_endOfMonth tza date :
  prevMonthEnd tza date <= endOfMonth tza date.
Proof.
  rewrite prevMonthEnd_startOfMonth.
  pose proof (startOfMonth_endOfMonth tza date). unfold msPerDay in *. lia.
Qed.


Lemma no_active_filter u (f : Customer -> bool) customers :
  (forall c, In c customers -> isActive u c = false) ->
  List.filter (fun c => isActive u c && f c) customers = [].
Proof.
  induction customers as [|c cs IH]; intros H; [reflexivity|].
  simpl. rewrite (H c (or_introl eq_refl)). simpl.
  apply IH. intros x Hx. apply H. now right.
Qed.

(** X5. For an account without active customers, when the store answers,
    [getAllMetrics] returns, and an MRR it computes is zero, and so is the
    ARR: [current], [previous] and [growth]. *)
Theorem no_active_customers_zero tza db now u date cache :
  answers db (allQueries tza u date) ->
  (forall c, In c (docs db) -> isActive u c = false) ->
  valid now (cache !! cacheKey "mrr" u date) = false ->
  exists r,
    (getAllMetrics tza db now u date cache).1 = Ok r
    /\ (current (mrr r) ≈ Fin 0)%num /\ (previous (mrr r) ≈ Fin 0)%num
    /\ growth (mrr r) = Fin 0
    /\ (current (arr r) ≈ Fin 0)%num /\ (previous (arr r) ≈ Fin 0)%num
    /\ growth (arr r) = Fin 0.
Proof.
  intros Hans Hnone Hv.
  assert (Hp : accountPopulated db u).
  { unfold accountPopulated.
    replace (List.filter (isActive u) (docs db)) with (@nil Customer);
      [constructor|].
    symmetry. rewrite <- (no_active_filter u (fun _ => true) _ Hnone).
    apply filter_ext. intros c. now rewrite andb_true_r. }
  destruct (getAllMetrics_answered tza db now u date cache Hans Hp)
    as (r & Hr).
  exists r. split; [exact Hr|].
  destruct (getAllMetrics_mrr_arr tza db now u date cache r Hv Hr)
    as (cur & prev & -> & -> & Hcur & Hprev).
  unfold mrrAt in Hcur, Hprev.
  rewrite (no_active_filter u _ _ Hnone) in Hcur.
  rewrite (no_active_filter u _ _ Hnone) in Hprev.
  simpl in Hcur, Hprev. simpl.
  rewrite !calculateGrowth_Fin.
  assert (Hz : Qzerob prev = true) by now apply Qzerob_true.
  assert (Hz' : Qzerob (prev * inject_Z 12) = true).
  { apply Qzerob_true. rewrite Hprev. reflexivity. }
  rewrite Hz, Hz'.
  split; [exact Hcur|]. split; [exact Hprev|]. split; [reflexivity|].
  split; [now rewrite Hcur|]. split; [now rewrite Hprev | reflexivity].
Qed.

(** ** Accounts do not see each other *)

Lemma filter_matches_account q customers :
  List.filter (matches q) customers
  = List.filter (matches q)
      (List.filter (fun c => String.eqb (q_userId q) (userId c)) customers).
Proof.
  induction customers as [|c cs IH]; [reflexivity|].
  cbn [List.filter].
  destruct (String.eqb (q_userId q) (userId c)) eqn:E.
  - cbn [List.filter]. now rewrite IH.
  - unfold matches at 1. rewrite E. simpl. exact IH.
Qed.

Section SameAccount.
Variables (tza : Z) (db db' : Db) (now : Z) (u : string).
Hypothesis Hsame : sameAccount u db db'.

Lemma find_sameAccount q : q_userId q = u -> find db q = find db' q.
Proof.
  intros Hq. destruct Hsame as [Hdocs Hfault]. unfold find.
  rewrite (Hfault q Hq).
  rewrite (filter_matches_account q (docs db)),
    (filter_matches_account q (docs db')).
  rewrite Hq. unfold accountDocs in Hdocs. now rewrite Hdocs.
Qed.

Lemma countDocuments_sameAccount q :
  q_userId q = u -> countDocuments db q = countDocuments db' q.
Proof.
  intros Hq. pose proof (find_sameAccount q Hq) as H. unfold find in H.
  unfold countDocuments.
  destruct (fault db q), (fault db' q); congruence.
Qed.

Lemma calculateMRR_sameAccount date :
  calculateMRR tza db now u date = calculateMRR tza db' now u date.
Proof.
  unfold calculateMRR, getPreviousMRR.
  now rewrite !find_sameAccount by reflexivity.
Qed.

Lemma calculateARR_sameAccount date :
  calculateARR tza db now u date = calculateARR tza db' now u date.
Proof. unfold calculateARR. now rewrite calculateMRR_sameAccount. Qed.

Lemma calculateChurnRate_sameAccount date :
  calculateChurnRate tza db now u date = calculateChurnRate tza db' now u date.
Proof.
  unfold calculateChurnRate.
  now rewrite !countDocuments_sameAccount by reflexivity.
Qed.

Lemma calculateLTV_sameAccount date :
  calculateLTV tza db now u date = calculateLTV tza db' now u date.
Proof.
  unfold calculateLTV.
  rewrite calculateChurnRate_sameAccount, calculateMRR_sameAccount.
  now rewrite !find_sameAccount by reflexivity.
Qed.

Lemma calculateCAC_sameAccount date :
  calculateCAC tza db now u date = calculateCAC tza db' now u date.
Proof.
  unfold calculateCAC. now rewrite !find_sameAccount by reflexivity.
Qed.

Lemma getAllMetrics_sameAccount date :
  getAllMetrics tza db now u date = getAllMetrics tza db' now u date.
Proof.
  unfold getAllMetrics.
  now rewrite calculateMRR_sameAccount, calculateARR_sameAccount,
    calculateChurnRate_sameAccount, calculateLTV_sameAccount,
    calculateCAC_sameAccount.
Qed.
End SameAccount.

Lemma forEach_ext {V A B} (l : list A) (f g : A -> M V B) :
  (forall a cache, f a cache = g a cache) ->
  forall cache, forEach l f cache = forEach l g cache.
Proof.
  intros Hfg. induction l as [|a l IH]; intros cache; [reflexivity|].
  cbn [forEach]. unfold bind. rewrite Hfg.
  destruct (g a cache) as [[b|e] c1]; [|reflexivity].
  now rewrite IH.
Qed.

Lemma getCachedOrCompute_ext {V} now key (f g : M V V) cache :
  f cache = g cache ->
  getCachedOrCompute now key f cache = getCachedOrCompute now key g cache.
Proof.
  intros H. unfold getCachedOrCompute, computeAndStore. now rewrite H.
Qed.

(** X6. The results of an account depend on the store only through the
    documents of the account: two stores that hold the same documents for
    the account, and fail on the same queries of the account, give the same
    results and the same cache, whatever documents of other accounts they
    hold; for [getAllMetrics], [getHistoricalData] and
    [getCustomerGrowth]. *)
Theorem results_depend_on_own_documents tza db db' now u :
  sameAccount u db db' ->
  (forall date cache,
     getAllMetrics tza db now u date cache
     = getAllMetrics tza db' now u date cache)
  /\ (forall months cache,
        getHistoricalData tza db now u months cache
        = getHistoricalData tza db' now u months cache)
  /\ (forall months cache,
        getCustomerGrowth tza db now u months cache
        = getCustomerGrowth tza db' now u months cache).
Proof.
  intros Hsame. split; [|split].
  - intros date cache.
    now rewrite (getAllMetrics_sameAccount tza db db' now u Hsame).
  - intros months cache.
    unfold getHistoricalData, getCachedOrComputeSeries.
    replace (historicalData tza db now u months cache.1)
      with (historicalData tza db' now u months cache.1); [reflexivity|].
    unfold historicalData. apply forEach_ext. intros i c.
    unfold historicalMonth.
    now rewrite (getAllMetrics_sameAccount tza db db' now u Hsame).
  - intros months cache. unfold getCustomerGrowth.
    apply getCachedOrCompute_ext. apply forEach_ext. intros i c.
    unfold customerGrowthMonth.
    now rewrite !(countDocuments_sameAccount db db' u Hsame) by reflexivity.
Qed.

(** *** Keys of different accounts *)

Lemma length_append (a b : string) :
  String.length (String.append a b) = (String.length a + String.length b)%nat.
Proof. induction a as [|c a IH]; simpl; [reflexivity | now rewrite IH]. Qed.

Lemma append_inv_length (a a' b b' : string) :
  String.length b = String.length b' ->
  String.append a b = String.append a' b' -> a = a' /\ b = b'.
Proof.
  revert a'. induction a as [|c a IH]; intros [|c' a'] Hlen H.
  - change (b = b') in H. auto.
  - exfalso. change (b = String c' (String.append a' b')) in H.
    rewrite H in Hlen. cbn [String.length] in Hlen.
    rewrite (length_append a' b') in Hlen. lia.
  - exfalso. change (String c (String.append a b) = b') in H.
    rewrite <- H in Hlen. cbn [String.length] in Hlen.
    rewrite (length_append a b) in Hlen. lia.
  - change (String c (String.append a b) = String c' (String.append a' b'))
      in H.
    injection H as -> H. destruct (IH a' Hlen H) as [-> ->]. auto.
Qed.

Lemma length_digits w : forall n, String.length (digits w n) = w.
Proof.
  induction w as [|w IH]; intros n; simpl; [reflexivity|].
  rewrite length_append, IH. simpl. lia.
Qed.

Lemma length_isoMonth date : String.length (isoMonth date) = 7%nat.
Proof.
  unfold isoMonth.
  destruct ((0 <=? YearFromTime date) && (YearFromTime date <=? 9999)).
  - rewrite !length_append, !length_digits. reflexivity.
  - rewrite length_append, length_digits.
    destruct (YearFromTime date <? 0); reflexivity.
Qed.

(** The key of a metric names one account. *)
Lemma cacheKey_account name name' u u' date date' :
  In name metricNames -> In name' metricNames ->
  cacheKey name u date = cacheKey name' u' date' -> u = u'.
Proof.
  assert (Hinv :
    String.append u (String.append "_" (isoMonth date))
    = String.append u' (String.append "_" (isoMonth date')) -> u = u').
  { intros H. apply append_inv_length in H as [H _]; [exact H|].
    rewrite !length_append, !length_isoMonth. reflexivity. }
  unfold metricNames. simpl.
  intros [<-|[<-|[<-|[<-|[]]]]] [<-|[<-|[<-|[<-|[]]]]]; unfold cacheKey; simpl;
    intros H; try discriminate H; injection H as H;
    now apply Hinv.
Qed.

Section FrameAggregate.
Variables (tza : Z) (db : Db) (now : Z) (u : string) (date : Z).
Variables (key : string) (v : option (Entry Metric)).

Lemma frame_calculateCAC :
  key <> cacheKey "cac" u date ->
  maintains (untouched key v) (fun _ => True) (calculateCAC tza db now u date).
Proof.
  intros Hk. unfold calculateCAC.
  apply maintains_getCachedOrCompute; auto.
  - intros cache d Hc _. now apply untouched_insert.
  - apply maintains_bind with (P := fun _ => True);
      [now apply maintains_lift | intros ? _].
    now apply maintains_ret.
Qed.

Lemma frame_getAllMetrics :
  key <> cacheKey "mrr" u date -> key <> cacheKey "churn" u date ->
  key <> cacheKey "ltv" u date -> key <> cacheKey "cac" u date ->
  maintains (untouched key v) (fun _ => True) (getAllMetrics tza db now u date).
Proof.
  intros Hm Hc Hl Hk. unfold getAllMetrics.
  apply maintains_bind with (P := fun _ => True).
  - eapply maintains_weaken;
      [|apply maintains_promiseAll with (Q := fun _ => True)].
    + auto.
    + repeat first [apply List.Forall_nil | apply List.Forall_cons].
      * now apply frame_calculateMRR.
      * now apply frame_calculateARR.
      * now apply frame_calculateChurnRate.
      * now apply frame_calculateLTV.
      * now apply frame_calculateCAC.
  - intros results _.
    destruct results as [|? [|? [|? [|? [|? [|? ?]]]]]];
      first [now apply maintains_ret | now apply maintains_lift].
Qed.
End FrameAggregate.

Lemma maintains_forEach {A B} (I : gmap string (Entry Metric) -> Prop)
    (l : list A) (body : A -> M Metric B) :
  (forall a, In a l -> maintains I (fun _ => True) (body a)) ->
  maintains I (fun _ => True) (forEach l body).
Proof.
  induction l as [|a l IH]; intros H.
  - now apply maintains_ret.
  - cbn [forEach].
    apply maintains_bind with (P := fun _ => True); [apply H; now left|].
    intros b _.
    apply maintains_bind with (P := fun _ => True);
      [apply IH; intros x Hx; apply H; now right|].
    intros bs _. now apply maintains_ret.
Qed.

(** X7. No call for an account writes an entry of another account: a key
    of the metrics of [u] holds after [getAllMetrics] or
    [getHistoricalData] for another account what it held before. *)
Theorem other_accounts_entries_untouched tza db now u u' key :
  accountKey u key -> u' <> u ->
  (forall date cache,
     (getAllMetrics tza db now u' date cache).2 !! key = cache !! key)
  /\ (forall months cache,
        (getHistoricalData tza db now u' months cache).2.1 !! key
        = cache.1 !! key).
Proof.
  intros (name & d & Hname & ->) Hu.
  assert (Hne : forall name' date', In name' metricNames ->
            cacheKey name u d <> cacheKey name' u' date').
  { intros name' date' Hn' H. apply Hu. symmetry.
    exact (cacheKey_account _ _ _ _ _ _ Hname Hn' H). }
  assert (Hall : forall date cache,
    (getAllMetrics tza db now u' date cache).2 !! cacheKey name u d
    = cache !! cacheKey name u d).
  { intros date cache.
    apply (frame_getAllMetrics tza db now u' date (cacheKey name u d)
             (cache !! cacheKey name u d));
      try (apply Hne; unfold metricNames; simpl; auto 6).
    reflexivity. }
  split; [exact Hall|].
  intros months [metrics series].
  unfold getHistoricalData, getCachedOrComputeSeries. cbn [fst snd].
  assert (Hloop : (historicalData tza db now u' months metrics).2
                  !! cacheKey name u d = metrics !! cacheKey name u d).
  { apply (maintains_forEach (untouched (cacheKey name u d)
                            (metrics !! cacheKey name u d)));
      [|reflexivity].
    intros i _. unfold historicalMonth.
    apply maintains_bind with (P := fun _ => True).
    - intros cache Hc. split; [|auto]. unfold untouched in *.
      now rewrite Hall.
    - intros r _. now apply maintains_ret. }
  destruct (historicalData tza db now u' months metrics) as [[data|e] m'];
    simpl in Hloop;
    destruct (series !! seriesKey "historical" u' months) as [cached|];
    try destruct (now - timestamp cached <? cacheTimeout); simpl; auto.
Qed.

(** ** The aggregate served from the cache *)

Lemma getCachedOrCompute_fresh {V} now key (f : M V V) cache d cache' :
  valid now (cache !! key) = false ->
  getCachedOrCompute now key f cache = (Ok d, cache') ->
  cache' !! key = Some {| data := d; timestamp := now |}.
Proof.
  intros Hv. rewrite getCachedOrCompute_invalid by exact Hv.
  unfold computeAndStore. destruct (f cache) as [[x|e] c1]; [|discriminate].
  intros [= <- <-]. apply lookup_insert_eq.
Qed.

(** An entry that is valid at the time of a call is not written by it. *)
Lemma fresh_getCachedOrCompute now key (f : M Metric Metric) k e :
  now - timestamp e < cacheTimeout ->
  maintains (untouched k (Some e)) (fun _ => True) f ->
  maintains (untouched k (Some e)) (fun _ => True)
    (getCachedOrCompute now key f).
Proof.
  intros Hlt Hf cache Hc. split; [|auto].
  unfold getCachedOrCompute, computeAndStore.
  destruct (Hf cache Hc) as [H1 _].
  assert (Hstore : forall x,
    valid now (cache !! key) = false ->
    untouched k (Some e)
      (<[key := {| data := x; timestamp := now |}]> (f cache).2)).
  { intros x Hv. unfold untouched in *.
    rewrite lookup_insert_ne; [exact H1|].
    intros ->. rewrite Hc in Hv. simpl in Hv.
    apply Z.ltb_ge in Hv. lia. }
  destruct (cache !! key) as [x|] eqn:Ex;
    [destruct (now - timestamp x <? cacheTimeout) eqn:Hv|].
  - exact Hc.
  - destruct (f cache) as [[d|err] c1]; simpl in *; [|exact H1].
    apply Hstore. exact Hv.
  - destruct (f cache) as [[d|err] c1]; simpl in *; [|exact H1].
    now apply Hstore.
Qed.

Section Fresh.
Variables (tza : Z) (db : Db) (now : Z) (u : string) (date : Z).
Variables (k : string) (e : Entry Metric).
Hypothesis Hfresh : now - timestamp e < cacheTimeout.

Lemma fresh_calculateMRR :
  maintains (untouched k (Some e)) (fun _ => True)
    (calculateMRR tza db now u date).
Proof.
  unfold calculateMRR. apply fresh_getCachedOrCompute; [exact Hfresh|].
  do 2 (apply maintains_bind with (P := fun _ => True);
        [now apply maintains_lift | intros ? _]).
  apply maintains_bind with (P := fun _ => True);
    [|intros ? _; now apply maintains_ret].
  unfold getPreviousMRR.
  apply maintains_bind with (P := fun _ => True);
    [now apply maintains_lift | intros ? _].
  now apply maintains_lift.
Qed.

Lemma fresh_calculateARR :
  maintains (untouched k (Some e)) (fun _ => True)
    (calculateARR tza db now u date).
Proof.
  unfold calculateARR.
  eapply maintains_bind; [apply fresh_calculateMRR|].
  intros m _. now apply maintains_ret.
Qed.

Lemma fresh_calculateChurnRate :
  maintains (untouched k (Some e)) (fun _ => True)
    (calculateChurnRate tza db now u date).
Proof.
  unfold calculateChurnRate. apply fresh_getCachedOrCompute; [exact Hfresh|].
  do 4 (apply maintains_bind with (P := fun _ => True);
        [now apply maintains_lift | intros ? _]).
  now apply maintains_ret.
Qed.

Lemma fresh_calculateLTV :
  maintains (untouched k (Some e)) (fun _ => True)
    (calculateLTV tza db now u date).
Proof.
  unfold calculateLTV. apply fresh_getCachedOrCompute; [exact Hfresh|].
  eapply maintains_bind; [apply fresh_calculateChurnRate|]. intros cd _.
  eapply maintains_bind; [apply fresh_calculateMRR|]. intros md _.
  do 2 (apply maintains_bind with (P := fun _ => True);
        [now apply maintains_lift | intros ? _]).
  now apply maintains_ret.
Qed.

Lemma fresh_calculateCAC :
  maintains (untouched k (Some e)) (fun _ => True)
    (calculateCAC tza db now u date).
Proof.
  unfold calculateCAC. apply fresh_getCachedOrCompute; [exact Hfresh|].
  apply maintains_bind with (P := fun _ => True);
    [now apply maintains_lift | intros ? _].
  now apply maintains_ret.
Qed.
End Fresh.

Lemma cacheKey_same_month name u date date' :
  isoMonth date' = isoMonth date ->
  cacheKey name u date' = cacheKey name u date.
Proof. intros H. unfold cacheKey. now rewrite H. Qed.

(** With a valid entry under each of the four keys, [getAllMetrics] is put
    together from the cache. *)
Lemma getAllMetrics_hits tza db now u date cache em ec el ek :
  cache !! cacheKey "mrr" u date = Some em ->
  cache !! cacheKey "churn" u date = Some ec ->
  cache !! cacheKey "ltv" u date = Some el ->
  cache !! cacheKey "cac" u date = Some ek ->
  now - timestamp em < cacheTimeout -> now - timestamp ec < cacheTimeout ->
  now - timestamp el < cacheTimeout -> now - timestamp ek < cacheTimeout ->
  getAllMetrics tza db now u date cache
  = (Ok {| mrr := withGrowth (data em);
           arr := withGrowth
                    {| current := (current (data em) * of_Z 12)%num;
                       previous := (previous (data em) * of_Z 12)%num;
                       growth := growth (data em) |};
           churn := withGrowth (data ec);
           ltv := withGrowth (data el);
           cac := withGrowth (data ek) |}, cache).
Proof.
  intros Hm Hc Hl Hk Tm Tc Tl Tk.
  assert (E1 : calculateMRR tza db now u date cache = (Ok (data em), cache)).
  { unfold calculateMRR.
    apply getCachedOrCompute_valid; [exact Hm | now apply valid_true with em]. }
  assert (E3 : calculateChurnRate tza db now u date cache
               = (Ok (data ec), cache)).
  { unfold calculateChurnRate.
    apply getCachedOrCompute_valid; [exact Hc | now apply valid_true with ec]. }
  assert (E4 : calculateLTV tza db now u date cache = (Ok (data el), cache)).
  { unfold calculateLTV.
    apply getCachedOrCompute_valid; [exact Hl | now apply valid_true with el]. }
  assert (E5 : calculateCAC tza db now u date cache = (Ok (data ek), cache)).
  { unfold calculateCAC.
    apply getCachedOrCompute_valid; [exact Hk | now apply valid_true with ek]. }
  assert (E2 : calculateARR tza db now u date cache
               = (Ok {| current := (current (data em) * of_Z 12)%num;
                        previous := (previous (data em) * of_Z 12)%num;
                        growth := growth (data em) |}, cache))
    by (unfold calculateARR, bind; now rewrite E1).
  unfold getAllMetrics, bind. cbn [promiseAll].
  rewrite E1. cbv beta iota. rewrite E2. cbv beta iota.
  rewrite E3. cbv beta iota. rewrite E4. cbv beta iota.
  rewrite E5. reflexivity.
Qed.

(** X8. After a [getAllMetrics] that computed all its metrics (no key had
    a valid entry), another [getAllMetrics] for the account and a date of
    the same month ([toISOString().slice(0, 7)]), made less than five
    minutes later, returns the same object and leaves the cache as it is,
    whatever the store holds by then, and even if it fails. *)
Theorem getAllMetrics_repeats tza db now u date cache r :
  valid now (cache !! cacheKey "mrr" u date) = false ->
  valid now (cache !! cacheKey "churn" u date) = false ->
  valid now (cache !! cacheKey "ltv" u date) = false ->
  valid now (cache !! cacheKey "cac" u date) = false ->
  (getAllMetrics tza db now u date cache).1 = Ok r ->
  forall db' now' date',
    now' - now < cacheTimeout ->
    isoMonth date' = isoMonth date ->
    getAllMetrics tza db' now' u date'
      (getAllMetrics tza db now u date cache).2
    = (Ok r, (getAllMetrics tza db now u date cache).2).
Proof.
  intros Vm Vc Vl Vk H db' now' date' Hnow Hiso.
  apply result_pair in H.
  set (cache' := (getAllMetrics tza db now u date cache).2) in *.
  destruct (getAllMetrics_Ok _ _ _ _ _ _ _ _ H)
    as (m & a & ch & l & k & c1 & c2 & c3 & c4
        & E1 & E2 & E3 & E4 & E5 & ->).
  assert (Ha := calculateARR_of_MRR _ _ _ _ _ _ _ _ E1).
  rewrite Ha in E2. injection E2 as <- <-.
  set (fresh := fun (x : Metric) => {| data := x; timestamp := now |}).
  assert (Tf : forall x, now - timestamp (fresh x) < cacheTimeout)
    by (intros x; simpl; unfold cacheTimeout; lia).
  (* the entry of the MRR *)
  assert (M1 : c1 !! cacheKey "mrr" u date = Some (fresh m))
    by (unfold calculateMRR in E1;
        exact (getCachedOrCompute_fresh _ _ _ _ _ _ Vm E1)).
  assert (M3 : c3 !! cacheKey "mrr" u date = Some (fresh m)).
  { pose proof (fresh_calculateChurnRate tza db now u date _ _ (Tf m) c1 M1)
      as [Hx _]. now rewrite E3 in Hx. }
  assert (M4 : c4 !! cacheKey "mrr" u date = Some (fresh m)).
  { pose proof (fresh_calculateLTV tza db now u date _ _ (Tf m) c3 M3)
      as [Hx _]. now rewrite E4 in Hx. }
  assert (M5 : cache' !! cacheKey "mrr" u date = Some (fresh m)).
  { pose proof (fresh_calculateCAC tza db now u date _ _ (Tf m) c4 M4)
      as [Hx _]. now rewrite E5 in Hx. }
  (* the entry of the churn rate *)
  assert (Vc1 : valid now (c1 !! cacheKey "churn" u date) = false).
  { pose proof (frame_calculateMRR tza db now u date _
                  (cache !! cacheKey "churn" u date)
                  (churn_key_ne_mrr u date) cache eq_refl) as [Hx _].
    rewrite E1 in Hx. unfold untouched in Hx. simpl in Hx. now rewrite Hx. }
  assert (C3 : c3 !! cacheKey "churn" u date = Some (fresh ch))
    by (unfold calculateChurnRate in E3;
        exact (getCachedOrCompute_fresh _ _ _ _ _ _ Vc1 E3)).
  assert (C4 : c4 !! cacheKey "churn" u date = Some (fresh ch)).
  { pose proof (fresh_calculateLTV tza db now u date _ _ (Tf ch) c3 C3)
      as [Hx _]. now rewrite E4 in Hx. }
  assert (C5 : cache' !! cacheKey "churn" u date = Some (fresh ch)).
  { pose proof (fresh_calculateCAC tza db now u date _ _ (Tf ch) c4 C4)
      as [Hx _]. now rewrite E5 in Hx. }
  (* the entry of the LTV *)
  assert (Vl1 : valid now (c1 !! cacheKey "ltv" u date) = false).
  { pose proof (frame_calculateMRR tza db now u date _
                  (cache !! cacheKey "ltv" u date)
                  (ltv_key_ne_mrr u date) cache eq_refl) as [Hx _].
    rewrite E1 in Hx. unfold untouched in Hx. simpl in Hx. now rewrite Hx. }
  assert (Vl3 : valid now (c3 !! cacheKey "ltv" u date) = false).
  { pose proof (frame_calculateChurnRate tza db now u date _
                  (c1 !! cacheKey "ltv" u date)
                  (ltv_key_ne_churn u date) c1 eq_refl) as [Hx _].
    rewrite E3 in Hx. unfold untouched in Hx. simpl in Hx. now rewrite Hx. }
  assert (L4 : c4 !! cacheKey "ltv" u date = Some (fresh l))
    by (unfold calculateLTV in E4;
        exact (getCachedOrCompute_fresh _ _ _ _ _ _ Vl3 E4)).
  assert (L5 : cache' !! cacheKey "ltv" u date = Some (fresh l)).
  { pose proof (fresh_calculateCAC tza db now u date _ _ (Tf l) c4 L4)
      as [Hx _]. now rewrite E5 in Hx. }
  (* the entry of the CAC *)
  assert (Vk1 : valid now (c1 !! cacheKey "cac" u date) = false).
  { pose proof (frame_calculateMRR tza db now u date _
                  (cache !! cacheKey "cac" u date)
                  (cac_key_ne_mrr u date) cache eq_refl) as [Hx _].
    rewrite E1 in Hx. unfold untouched in Hx. simpl in Hx. now rewrite Hx. }
  assert (Vk3 : valid now (c3 !! cacheKey "cac" u date) = false).
  { pose proof (frame_calculateChurnRate tza db now u date _
                  (c1 !! cacheKey "cac" u date)
                  (cac_key_ne_churn u date) c1 eq_refl) as [Hx _].
    rewrite E3 in Hx. unfold untouched in Hx. simpl in Hx. now rewrite Hx. }
  assert (Vk4 : valid now (c4 !! cacheKey "cac" u date) = false).
  { pose proof (frame_calculateLTV tza db now u date _
                  (c3 !! cacheKey "cac" u date)
                  (cac_key_ne_mrr u date) (cac_key_ne_churn u date)
                  (cac_key_ne_ltv u date) c3 eq_refl) as [Hx _].
    rewrite E4 in Hx. unfold untouched in Hx. simpl in Hx. now rewrite Hx. }
  assert (K5 : cache' !! cacheKey "cac" u date = Some (fresh k))
    by (unfold calculateCAC in E5;
        exact (getCachedOrCompute_fresh _ _ _ _ _ _ Vk4 E5)).
  rewrite <- (cacheKey_same_month "mrr" u date date' Hiso) in M5.
  rewrite <- (cacheKey_same_month "churn" u date date' Hiso) in C5.
  rewrite <- (cacheKey_same_month "ltv" u date date' Hiso) in L5.
  rewrite <- (cacheKey_same_month "cac" u date date' Hiso) in K5.
  rewrite (getAllMetrics_hits tza db' now' u date' cache' _ _ _ _
             M5 C5 L5 K5); try (simpl; exact Hnow).
  reflexivity.
Qed.

(** ** The month of the key and the month of the computation *)

Lemma digit_inj n n' : digit n = digit n' -> n mod 10 = n' mod 10.
Proof.
  unfold digit. intros H.
  pose proof (Z.mod_pos_bound n 10 ltac:(lia)) as Hn.
  pose proof (Z.mod_pos_bound n' 10 ltac:(lia)) as Hn'.
  set (a := n mod 10) in *. set (b := n' mod 10) in *.
  apply (f_equal nat_of_ascii) in H.
  rewrite !nat_ascii_embedding in H by lia. lia.
Qed.

Lemma digit_not_sign n : digit n <> "+"%char /\ digit n <> "-"%char.
Proof.
  unfold digit.
  pose proof (Z.mod_pos_bound n 10 ltac:(lia)) as Hn.
  set (a := n mod 10) in *.
  split; intros H; apply (f_equal nat_of_ascii) in H;
    rewrite nat_ascii_embedding in H by lia;
    change (nat_of_ascii "+") with 43%nat in H;
    change (nat_of_ascii "-") with 45%nat in H; lia.
Qed.

Lemma digits_inj w : forall n n',
  0 <= n < 10 ^ Z.of_nat w -> 0 <= n' < 10 ^ Z.of_nat w ->
  digits w n = digits w n' -> n = n'.
Proof.
  induction w as [|w IH]; intros n n' Hn Hn' H.
  - simpl in Hn, Hn'. lia.
  - cbn [digits] in H.
    apply append_inv_length in H as [H1 H2]; [|reflexivity].
    injection H2 as H2. apply digit_inj in H2.
    rewrite Nat2Z.inj_succ, Z.pow_succ_r in Hn, Hn' by lia.
    assert (Hq : n / 10 = n' / 10).
    { apply IH; [| |exact H1]; Z.div_mod_to_equations; lia. }
    Z.div_mod_to_equations; lia.
Qed.

Lemma month_bounds t : 0 <= MonthFromTime t <= 11.
Proof.
  unfold MonthFromTime.
  pose proof (civil_from_days_inverse (Day t)) as H.
  destruct (civil_from_days (Day t)) as [[y m] d]. simpl. lia.
Qed.

(** Within the years 0 to 9999 the seven characters name the year and the
    month. *)
Lemma isoMonth_inj date date' :
  0 <= YearFromTime date <= 9999 ->
  isoMonth date' = isoMonth date ->
  YearFromTime date' = YearFromTime date
  /\ MonthFromTime date' = MonthFromTime date.
Proof.
  intros Hy. unfold isoMonth.
  pose proof (month_bounds date) as Hm. pose proof (month_bounds date') as Hm'.
  set (y := YearFromTime date) in *. set (y' := YearFromTime date') in *.
  set (m := MonthFromTime date) in *. set (m' := MonthFromTime date') in *.
  replace ((0 <=? y) && (y <=? 9999)) with true
    by (symmetry; apply andb_true_iff; split; apply Z.leb_le; lia).
  destruct ((0 <=? y') && (y' <=? 9999)) eqn:E.
  - apply andb_true_iff in E as [E1 E2].
    apply Z.leb_le in E1. apply Z.leb_le in E2.
    intros H. apply append_inv_length in H as [H1 H2];
      [|now rewrite !length_append, !length_digits].
    apply digits_inj in H1; [|simpl; lia..].
    apply append_inv_length in H2 as [_ H2];
      [|now rewrite !length_digits].
    apply digits_inj in H2; [|simpl; lia..].
    lia.
  - intros H. exfalso. cbn [digits] in H.
    destruct (digit_not_sign (y / 10 / 10 / 10)) as [Hp Hn].
    destruct (y' <? 0); injection H as H _; congruence.
Qed.

Section SameMonth.
Variables (db : Db) (now : Z) (u : string) (date date' : Z).
Hypothesis Hyear : YearFromTime date' = YearFromTime date.
Hypothesis Hmonth : MonthFromTime date' = MonthFromTime date.
Hypothesis Hiso : isoMonth date' = isoMonth date.

Lemma local_utc d :
  getFullYear 0 d = YearFromTime d /\ getMonth 0 d = MonthFromTime d.
Proof.
  unfold getFullYear, getMonth, LocalTime. now rewrite Z.add_0_r.
Qed.

Lemma month_of_utc :
  startOfMonth 0 date' = startOfMonth 0 date
  /\ endOfMonth 0 date' = endOfMonth 0 date
  /\ prevMonth 0 date' = prevMonth 0 date
  /\ prevMonthEnd 0 date' = prevMonthEnd 0 date.
Proof.
  unfold startOfMonth, endOfMonth, prevMonth, prevMonthEnd.
  destruct (local_utc date) as [-> ->]. destruct (local_utc date') as [-> ->].
  now rewrite Hyear, Hmonth.
Qed.

Lemma calculateMRR_same_month :
  calculateMRR 0 db now u date' = calculateMRR 0 db now u date.
Proof.
  destruct month_of_utc as (Hs & He & Hp & Hpe).
  unfold calculateMRR, getPreviousMRR.
  now rewrite (cacheKey_same_month _ _ _ _ Hiso), He, Hpe.
Qed.

Lemma calculateChurnRate_same_month :
  calculateChurnRate 0 db now u date' = calculateChurnRate 0 db now u date.
Proof.
  destruct month_of_utc as (Hs & He & Hp & Hpe).
  unfold calculateChurnRate.
  now rewrite (cacheKey_same_month _ _ _ _ Hiso), Hs, He, Hp, Hpe.
Qed.

Lemma calculateLTV_same_month :
  calculateLTV 0 db now u date' = calculateLTV 0 db now u date.
Proof.
  unfold calculateLTV.
  now rewrite (cacheKey_same_month _ _ _ _ Hiso),
    calculateChurnRate_same_month, calculateMRR_same_month.
Qed.

Lemma calculateCAC_same_month :
  calculateCAC 0 db now u date' = calculateCAC 0 db now u date.
Proof.
  destruct month_of_utc as (Hs & He & Hp & Hpe).
  unfold calculateCAC.
  now rewrite (cacheKey_same_month _ _ _ _ Hiso), Hs, He.
Qed.
End SameMonth.

(** X9. On a server whose local time is UTC, and for years 0 to 9999, the
    key of a cache entry determines the computation: two dates with the
    same year and month in their ISO string give the same month bounds, so
    each metric and [getAllMetrics] behave the same for both; an entry
    cached for one date holds what the other date would compute from the
    same store. *)
Theorem utc_key_determines_month db now u date date' :
  0 <= YearFromTime date <= 9999 ->
  isoMonth date' = isoMonth date ->
  startOfMonth 0 date' = startOfMonth 0 date
  /\ endOfMonth 0 date' = endOfMonth 0 date
  /\ calculateMRR 0 db now u date' = calculateMRR 0 db now u date
  /\ calculateChurnRate 0 db now u date' = calculateChurnRate 0 db now u date
  /\ calculateLTV 0 db now u date' = calculateLTV 0 db now u date
  /\ calculateCAC 0 db now u date' = calculateCAC 0 db now u date
  /\ getAllMetrics 0 db now u date' = getAllMetrics 0 db now u date.
Proof.
  intros Hy Hiso. destruct (isoMonth_inj date date' Hy Hiso) as [Hyear Hmonth].
  destruct (month_of_utc date date' Hyear Hmonth) as (Hs & He & _).
  pose proof (calculateMRR_same_month db now u date date' Hyear Hmonth Hiso).
  pose proof (calculateChurnRate_same_month db now u date date' Hyear Hmonth
                Hiso).
  pose proof (calculateLTV_same_month db now u date date' Hyear Hmonth Hiso).
  pose proof (calculateCAC_same_month db now u date date' Hyear Hmonth Hiso).
  repeat (split; [assumption|]).
  unfold getAllMetrics, calculateARR. congruence.
Qed.

(** ** The month before *)

Lemma MakeDay_inj y m y' m' :
  MakeDay y m 1 = MakeDay y' m' 1 -> 12 * y + m = 12 * y' + m'.
Proof.
  rewrite (MakeDay_index y m), (MakeDay_index y' m'). intros H.
  destruct (Z.lt_trichotomy (12 * y + m) (12 * y' + m')) as [Hlt|[Heq|Hgt]];
    [|exact Heq|].
  - pose proof (MakeDay_increasing _ _ Hlt). lia.
  - pose proof (MakeDay_increasing _ _ Hgt). lia.
Qed.

Lemma MakeDay_same_index y m y' m' :
  12 * y + m = 12 * y' + m' -> MakeDay y m 1 = MakeDay y' m' 1.
Proof.
  intros H. rewrite (MakeDay_index y m), (MakeDay_index y' m'). now rewrite H.
Qed.

(** The civil date of a day of the month that starts at
    [MakeDay y m 1]. *)
Lemma civil_from_days_in_month y m z :
  MakeDay y m 1 <= z < MakeDay y (m + 1) 1 ->
  civil_from_days z = (y + m / 12, m mod 12 + 1, z - MakeDay y m 1 + 1).
Proof.
  intros Hz.
  pose proof (civil_from_days_inverse z) as Hi.
  pose proof (civil_from_days_month z) as Hc.
  destruct (civil_from_days z) as [[y' m'] d'].
  destruct Hi as (Hd & Hm' & Hd').
  rewrite (MakeDay_index y' (m' - 1)), (MakeDay_index y' m') in Hc.
  rewrite (MakeDay_index y m), (MakeDay_index y (m + 1)) in Hz.
  assert (Hn : 12 * y + m = 12 * y' + (m' - 1)).
  { destruct (Z.lt_trichotomy (12 * y + m) (12 * y' + (m' - 1)))
      as [Hlt|[Heq|Hgt]]; [|exact Heq|].
    - destruct (Z.eq_dec (12 * y + (m + 1)) (12 * y' + (m' - 1))) as [E|E].
      + rewrite E in Hz. lia.
      + pose proof (MakeDay_increasing (12 * y + (m + 1))
                      (12 * y' + (m' - 1)) ltac:(lia)). lia.
    - destruct (Z.eq_dec (12 * y' + m') (12 * y + m)) as [E|E].
      + rewrite E in Hc. lia.
      + pose proof (MakeDay_increasing (12 * y' + m') (12 * y + m)
                      ltac:(lia)). lia. }
  assert (Hy : y' = y + m / 12) by (Z.div_mod_to_equations; lia).
  assert (Hm : m' = m mod 12 + 1) by (Z.div_mod_to_equations; lia).
  assert (Hfirst : MakeDay y m 1 = days_from_civil y' m' 1).
  { unfold MakeDay. rewrite <- Hy, <- Hm. lia. }
  rewrite (days_from_civil_day y' m' d') in Hd.
  rewrite Hfirst. f_equal; [f_equal; assumption | lia].
Qed.

(** The local year and month of a date, from the month it lies in. *)
Lemma local_month_in tza y m date :
  MakeDay y m 1 * msPerDay <= date + tza < MakeDay y (m + 1) 1 * msPerDay ->
  getFullYear tza date = y + m / 12 /\ getMonth tza date = m mod 12.
Proof.
  intros H.
  unfold getFullYear, getMonth, YearFromTime, MonthFromTime, LocalTime, Day.
  rewrite (civil_from_days_in_month y m).
  - simpl. split; lia.
  - unfold msPerDay in *. Z.div_mod_to_equations; lia.
Qed.

Lemma month_next_start tza date date' :
  startOfMonth tza date' = prevMonth tza date ->
  endOfMonth tza date' = prevMonthEnd tza date.
Proof.
  unfold startOfMonth, prevMonth, endOfMonth, prevMonthEnd, newDate, UTC.
  set (y := fullYear (getFullYear tza date)).
  set (y' := fullYear (getFullYear tza date')).
  set (m := getMonth tza date). set (m' := getMonth tza date').
  intros H.
  assert (Hd : MakeDay y' m' 1 = MakeDay y (m - 1) 1)
    by (unfold msPerDay in H; lia).
  apply MakeDay_inj in Hd.
  rewrite (MakeDay_date y' (m' + 1) 0), (MakeDay_date y m 0).
  rewrite (MakeDay_same_index y' (m' + 1) y m) by lia. reflexivity.
Qed.

Lemma calculateChurnRate_Ok_rate tza db now u date cache m :
  valid now (cache !! cacheKey "churn" u date) = false ->
  (calculateChurnRate tza db now u date cache).1 = Ok m ->
  exists cur prev,
    m = {| current := Fin cur; previous := Fin prev;
           growth := Fin (cur - prev) |}
    /\ (cur == percentOf
                 (churnedWithin db u (startOfMonth tza date)
                                     (endOfMonth tza date))
                 (customersAtStart db u (startOfMonth tza date)))%Q
    /\ (prev == percentOf
                  (churnedWithin db u (prevMonth tza date)
                                      (prevMonthEnd tza date))
                  (customersAtStart db u (prevMonth tza date)))%Q.
Proof.
  intros Hv H.
  pose proof (calculateChurnRate_Ok_invalid tza db now u date cache m Hv H)
    as [Hans _].
  unfold churnQueries in Hans.
  apply List.Forall_cons_iff in Hans as [H1 Hans].
  apply List.Forall_cons_iff in Hans as [H2 Hans].
  apply List.Forall_cons_iff in Hans as [H3 Hans].
  apply List.Forall_cons_iff in Hans as [H4 _].
  destruct (ratePercent_percentOf
    (churnedWithin db u (startOfMonth tza date) (endOfMonth tza date))
    (customersAtStart db u (startOfMonth tza date))) as (cur & Hcur & Ecur).
  destruct (ratePercent_percentOf
    (churnedWithin db u (prevMonth tza date) (prevMonthEnd tza date))
    (customersAtStart db u (prevMonth tza date))) as (prev & Hprev & Eprev).
  exists cur, prev. split; [|split; [exact Ecur | exact Eprev]].
  revert H. unfold calculateChurnRate.
  rewrite getCachedOrCompute_invalid by exact Hv.
  unfold computeAndStore, bind, lift, ret.
  rewrite !count_customersAtStart, !count_churnedWithin by assumption.
  rewrite Hcur, Hprev. simpl. now intros [= <-].
Qed.

(** X10. The [previous] of a month is the [current] of the month before:
    when [date'] lies in the month before that of [date] (its month starts
    at [prevMonth(date)]), the [previous] that [calculateMRR] and
    [calculateChurnRate] compute for [date] are the [current] they compute
    for [date'] from the same store. *)
Theorem previous_is_current_of_month_before tza db u date date'
    now cache now' cache' :
  startOfMonth tza date' = prevMonth tza date ->
  (forall m m',
     valid now (cache !! cacheKey "mrr" u date) = false ->
     valid now' (cache' !! cacheKey "mrr" u date') = false ->
     (calculateMRR tza db now u date cache).1 = Ok m ->
     (calculateMRR tza db now' u date' cache').1 = Ok m' ->
     (previous m ≈ current m')%num)
  /\ (forall m m',
        valid now (cache !! cacheKey "churn" u date) = false ->
        valid now' (cache' !! cacheKey "churn" u date') = false ->
        (calculateChurnRate tza db now u date cache).1 = Ok m ->
        (calculateChurnRate tza db now' u date' cache').1 = Ok m' ->
        (previous m ≈ current m')%num).
Proof.
  intros Hstart. pose proof (month_next_start tza date date' Hstart) as Hend.
  split; intros m m' Hv Hv' H H'.
  - apply calculateMRR_Ok_sum in H as (cur & prev & -> & _ & Hprev);
      [|exact Hv].
    apply calculateMRR_Ok_sum in H' as (cur' & prev' & -> & Hcur' & _);
      [|exact Hv'].
    simpl. rewrite Hprev, Hcur', Hend. reflexivity.
  - apply calculateChurnRate_Ok_rate in H as (cur & prev & -> & _ & Hprev);
      [|exact Hv].
    apply calculateChurnRate_Ok_rate in H' as (cur' & prev' & -> & Hcur' & _);
      [|exact Hv'].
    simpl. rewrite Hprev, Hcur', Hstart, Hend. reflexivity.
Qed.

(** X11. For a date after the year 100, [prevMonth(date)] is the first
    midnight of the calendar month before that of [date]: December of the
    year before when [date] is in January.  [prevMonthEnd(date)] lies in
    that month, which starts at [prevMonth(date)] and whose [endOfMonth] is
    [prevMonthEnd(date)]; and [startOfMonth(date)] starts its own month. *)
Theorem prevMonth_is_calendar_month tza date :
  100 < getFullYear tza date ->
  getFullYear tza (prevMonth tza date)
  = (if getMonth tza date =? 0 then getFullYear tza date - 1
     else getFullYear tza date)
  /\ getMonth tza (prevMonth tza date)
     = (if getMonth tza date =? 0 then 11 else getMonth tza date - 1)
  /\ startOfMonth tza (prevMonthEnd tza date) = prevMonth tza date
  /\ endOfMonth tza (prevMonthEnd tza date) = prevMonthEnd tza date
  /\ startOfMonth tza (startOfMonth tza date) = startOfMonth tza date.
Proof.
  intros Hy.
  assert (Hfy : fullYear (getFullYear tza date) = getFullYear tza date).
  { unfold fullYear.
    replace (getFullYear tza date <=? 99) with false
      by (symmetry; apply Z.leb_gt; lia).
    now rewrite andb_false_r. }
  assert (Hm : 0 <= getMonth tza date <= 11)
    by (unfold getMonth; apply month_bounds).
  set (y := getFullYear tza date) in *. set (m := getMonth tza date) in *.
  assert (Hprev : getFullYear tza (prevMonth tza date) = y + (m - 1) / 12
                  /\ getMonth tza (prevMonth tza date) = (m - 1) mod 12).
  { unfold prevMonth. fold y m.
    pose proof (local_month_newDate tza y (m - 1)) as H.
    now rewrite Hfy in H. }
  assert (Hpe : getFullYear tza (prevMonthEnd tza date) = y + (m - 1) / 12
                /\ getMonth tza (prevMonthEnd tza date) = (m - 1) mod 12).
  { apply local_month_in. unfold prevMonthEnd, newDate, UTC. fold y m.
    rewrite Hfy. rewrite (MakeDay_date y m 0).
    pose proof (MakeDay_month_length y (m - 1)) as Hl.
    replace (m - 1 + 1) with m in * by lia. unfold msPerDay. lia. }
  assert (Hst : getFullYear tza (startOfMonth tza date) = y + m / 12
                /\ getMonth tza (startOfMonth tza date) = m mod 12).
  { unfold startOfMonth. fold y m.
    pose proof (local_month_newDate tza y m) as H.
    now rewrite Hfy in H. }
  assert (Hfy' : fullYear (y + (m - 1) / 12) = y + (m - 1) / 12).
  { unfold fullYear.
    replace (y + (m - 1) / 12 <=? 99) with false
      by (symmetry; apply Z.leb_gt; Z.div_mod_to_equations; lia).
    now rewrite andb_false_r. }
  assert (Hstart : startOfMonth tza (prevMonthEnd tza date)
                   = prevMonth tza date).
  { unfold startOfMonth at 1. destruct Hpe as [-> ->]. rewrite <- Hfy'.
    unfold prevMonth, newDate. fold y m. rewrite Hfy, !Hfy'.
    rewrite (MakeDay_same_index (y + (m - 1) / 12) ((m - 1) mod 12)
               y (m - 1)) by (Z.div_mod_to_equations; lia).
    reflexivity. }
  assert (Hidem : startOfMonth tza (startOfMonth tza date)
                  = startOfMonth tza date).
  { unfold startOfMonth at 1. destruct Hst as [-> ->].
    unfold startOfMonth, newDate. fold y m.
    replace (m / 12) with 0 by (Z.div_mod_to_equations; lia).
    replace (m mod 12) with m by (Z.div_mod_to_equations; lia).
    now rewrite Z.add_0_r. }
  destruct Hprev as [Hp1 Hp2]. rewrite Hp1, Hp2.
  split; [|split; [|split; [exact Hstart|split;
                             [now apply month_next_start | exact Hidem]]]].
  - destruct (m =? 0) eqn:E0;
      [apply Z.eqb_eq in E0 | apply Z.eqb_neq in E0];
      Z.div_mod_to_equations; lia.
  - destruct (m =? 0) eqn:E0;
      [apply Z.eqb_eq in E0 | apply Z.eqb_neq in E0];
      Z.div_mod_to_equations; lia.
Qed.

(** ** Loops *)

Lemma countDown_lookup n k :
  countDown n !! k
  = if (k <? n)%nat then Some (Z.of_nat (n - 1 - k)) else None.
Proof.
  revert k. induction n as [|n IH]; intros k; [reflexivity|].
  destruct k as [|k]; cbn [countDown lookup list_lookup].
  - change (0 <? S n)%nat with true. cbv iota. do 2 f_equal. lia.
  - change (countDown n !! k
            = if (S k <? S n)%nat then Some (Z.of_nat (S n - 1 - S k))
              else None).
    rewrite IH. change (S k <? S n)%nat with (k <? n)%nat.
    destruct (k <? n)%nat eqn:E; [|reflexivity].
    apply Nat.ltb_lt in E. do 2 f_equal. lia.
Qed.

Lemma length_countDown n : length (countDown n) = n.
Proof. induction n as [|n IH]; simpl; [reflexivity | now rewrite IH]. Qed.

(** The element at [k] of a series is that of the month [months - 1 - k]
    months back; the last one is that of the current month. *)
Lemma loop_lookup {A} (f : Z -> A) months k x :
  map f (loopIndices months) !! k = Some x ->
  (k < Z.to_nat months)%nat /\ x = f (Z.of_nat (Z.to_nat months - 1 - k)).
Proof.
  rewrite list_lookup_fmap. unfold loopIndices. rewrite countDown_lookup.
  destruct (k <? Z.to_nat months)%nat eqn:E; [|discriminate].
  apply Nat.ltb_lt in E. simpl. intros [= <-]. auto.
Qed.

Lemma loop_last {A} (f : Z -> A) months x :
  last (map f (loopIndices months)) = Some x -> x = f 0.
Proof.
  rewrite last_lookup, length_map. unfold loopIndices.
  rewrite length_countDown. intros H. apply loop_lookup in H as [Hk ->].
  f_equal. lia.
Qed.

Lemma loop_next {A} (f : Z -> A) months k x y :
  map f (loopIndices months) !! k = Some x ->
  map f (loopIndices months) !! S k = Some y ->
  exists i, x = f i /\ y = f (i - 1).
Proof.
  intros Hx Hy. apply loop_lookup in Hx as [Hk ->].
  apply loop_lookup in Hy as [Hk' ->].
  eexists. split; [reflexivity|]. f_equal. lia.
Qed.

(** A loop whose turns do not use the cache returns the elements its turns
    return, and leaves the cache. *)
Lemma forEach_pure_Ok {V A B} (l : list A) (body : A -> M V B)
    (f : A -> B) cache data cache' :
  (forall a c b c', body a c = (Ok b, c') -> b = f a /\ c' = c) ->
  forEach l body cache = (Ok data, cache') ->
  data = map f l /\ cache' = cache.
Proof.
  intros Hbody. revert cache data cache'.
  induction l as [|a l IH]; intros cache data cache'.
  - simpl. unfold ret. now intros [= <- <-].
  - cbn [forEach]. unfold bind.
    destruct (body a cache) as [[b|e] c1] eqn:Eb; [|discriminate].
    destruct (Hbody _ _ _ _ Eb) as [-> ->].
    destruct (forEach l body cache) as [[bs|e] c2] eqn:El; [|discriminate].
    destruct (IH _ _ _ El) as [-> ->].
    unfold ret. now intros [= <- <-].
Qed.

Lemma forEach_pure_Err {V A B} (l : list A) (body : A -> M V B)
    cache e cache' :
  (forall a c r c', body a c = (r, c') -> c' = c) ->
  forEach l body cache = (Err e, cache') ->
  cache' = cache /\ exists a c, In a l /\ (body a c).1 = Err e.
Proof.
  intros Hbody. revert cache cache'.
  induction l as [|a l IH]; intros cache cache'.
  - simpl. unfold ret. discriminate.
  - cbn [forEach]. unfold bind.
    destruct (body a cache) as [[b|e1] c1] eqn:Eb.
    + pose proof (Hbody _ _ _ _ Eb) as ->.
      destruct (forEach l body cache) as [[bs|e2] c2] eqn:El.
      * unfold ret. discriminate.
      * intros [= <- <-]. destruct (IH _ _ El) as (-> & a' & c & Hin & Ha).
        split; [reflexivity|]. exists a', c. split; [now right | exact Ha].
    + pose proof (Hbody _ _ _ _ Eb) as ->.
      intros [= <- <-]. split; [reflexivity|].
      exists a, cache. split; [now left | now rewrite Eb].
Qed.

(** The elements of a loop, each with the caches its turn ran in. *)
Lemma forEach_Ok_inv {V A B} (l : list A) (body : A -> M V B)
    cache data cache' :
  forEach l body cache = (Ok data, cache') ->
  Forall2 (fun a b => exists c c', body a c = (Ok b, c')) l data.
Proof.
  revert cache data cache'.
  induction l as [|a l IH]; intros cache data cache'.
  - simpl. unfold ret. intros [= <- _]. constructor.
  - cbn [forEach]. unfold bind.
    destruct (body a cache) as [[b|e] c1] eqn:Eb; [|discriminate].
    destruct (forEach l body c1) as [[bs|e] c2] eqn:El; [|discriminate].
    unfold ret. intros [= <- _]. constructor; [eauto|].
    exact (IH _ _ _ El).
Qed.

Lemma forEach_Err_inv {V A B} (l : list A) (body : A -> M V B)
    cache e cache' :
  forEach l body cache = (Err e, cache') ->
  exists a c, In a l /\ (body a c).1 = Err e.
Proof.
  revert cache cache'. induction l as [|a l IH]; intros cache cache'.
  - simpl. unfold ret. discriminate.
  - cbn [forEach]. unfold bind.
    destruct (body a cache) as [[b|e1] c1] eqn:Eb.
    + destruct (forEach l body c1) as [[bs|e2] c2] eqn:El.
      * unfold ret. discriminate.
      * intros [= <- _]. destruct (IH _ _ El) as (a' & c & Hin & Ha).
        exists a', c. split; [now right | exact Ha].
    + intros [= <- _]. exists a, cache. split; [now left | now rewrite Eb].
Qed.

Lemma forEach_returns {V A B} (l : list A) (body : A -> M V B) :
  (forall a, In a l -> forall c, exists b, (body a c).1 = Ok b) ->
  forall cache, exists data, (forEach l body cache).1 = Ok data.
Proof.
  induction l as [|a l IH]; intros H cache.
  - simpl. eauto.
  - cbn [forEach]. unfold bind.
    destruct (H a (or_introl eq_refl) cache) as (b & Hb).
    apply result_pair in Hb. rewrite Hb.
    destruct (IH (fun x Hx => H x (or_intror Hx)) (body a cache).2)
      as (bs & Hbs).
    apply result_pair in Hbs. rewrite Hbs. simpl. eauto.
Qed.

Lemma keeps_keys_forEach {V A B} (l : list A) (body : A -> M V B) :
  (forall a, keeps_keys (body a)) -> keeps_keys (forEach l body).
Proof.
  intros H. induction l as [|a l IH]; cbn [forEach].
  - apply keeps_keys_ret.
  - apply keeps_keys_bind; [apply H|]. intros b.
    apply keeps_keys_bind; [exact IH|]. intros bs. apply keeps_keys_ret.
Qed.

(** ** The series of customer counts *)

Lemma matches_total u cutoff c :
  matches {| q_userId := u; q_status := None;
             q_subscriptionDate := [Lte cutoff]; q_churnDate := [] |} c
  = String.eqb u (userId c) && (subscriptionDate c <=? cutoff).
Proof. unfold matches. simpl. now rewrite !andb_true_r. Qed.

Lemma matches_churned_by u cutoff c :
  matches {| q_userId := u; q_status := Some churned;
             q_subscriptionDate := []; q_churnDate := [Lte cutoff] |} c
  = String.eqb u (userId c) && Status_eqb churned (status c)
    && match churnDate c with
       | Some d => d <=? cutoff
       | None => false
       end.
Proof.
  unfold matches. simpl. rewrite !andb_true_r.
  destruct (churnDate c); simpl; now rewrite ?andb_true_r.
Qed.

Section GrowthMonth.
Variables (tza : Z) (db : Db) (now : Z) (u : string).

Lemma customerGrowthMonth_cache i c r c' :
  customerGrowthMonth tza db now u i c = (r, c') -> c' = c.
Proof.
  unfold customerGrowthMonth, bind, lift, ret, countDocuments.
  repeat match goal with
         | |- context [fault ?d ?q] =>
             destruct (fault d q) eqn:?; [now intros [= _ <-]|]
         end.
  now intros [= _ <-].
Qed.

Lemma customerGrowthMonth_Ok i c p c' :
  customerGrowthMonth tza db now u i c = (Ok p, c') ->
  p = growthPointAt tza db now u i /\ c' = c.
Proof.
  intros H. split; [|exact (customerGrowthMonth_cache _ _ _ _ H)].
  revert H. unfold customerGrowthMonth, bind, lift, ret, countDocuments.
  repeat match goal with
         | |- context [fault ?d ?q] =>
             destruct (fault d q) eqn:?; [discriminate|]
         end.
  intros [= <- _].
  unfold growthPointAt, totalAt, activeAt, churnedBy, monthStartBack,
    monthEndBack.
  rewrite (filter_ext _ _ (matches_total u _)),
    (filter_ext _ _ (matches_active_Lte u _)),
    (filter_ext _ _ (matches_churned_by u _)).
  reflexivity.
Qed.

Lemma customerGrowthMonth_Err i c e :
  (customerGrowthMonth tza db now u i c).1 = Err e ->
  exists q, In q (growthQueriesAt u (monthEndBack tza now i))
            /\ fault db q = Some e.
Proof.
  unfold customerGrowthMonth, bind, lift, ret, countDocuments,
    growthQueriesAt, monthEndBack.
  case_fault E1 e1;
    [intros [= <-]; eexists; split; [|exact E1]; cbn [In]; auto|].
  case_fault E2 e2;
    [intros [= <-]; eexists; split; [|exact E2]; cbn [In]; auto|].
  case_fault E3 e3;
    [intros [= <-]; eexists; split; [|exact E3]; cbn [In]; auto|].
  discriminate.
Qed.

(** What a computing [getCustomerGrowth] returns. *)
Lemma getCustomerGrowth_Ok_map months cache data :
  valid now (cache !! seriesKey "customer_growth" u months) = false ->
  (getCustomerGrowth tza db now u months cache).1 = Ok data ->
  data = map (growthPointAt tza db now u) (loopIndices months)
  /\ (getCustomerGrowth tza db now u months cache).2
     = <[seriesKey "customer_growth" u months
         := {| data := data; timestamp := now |}]> cache.
Proof.
  intros Hv. unfold getCustomerGrowth.
  rewrite getCachedOrCompute_invalid by exact Hv.
  unfold computeAndStore.
  destruct (forEach (loopIndices months) (customerGrowthMonth tza db now u)
              cache) as [[d|e] c'] eqn:E; [|discriminate].
  destruct (forEach_pure_Ok _ _ (growthPointAt tza db now u) _ _ _
              customerGrowthMonth_Ok E) as [-> ->].
  cbn [fst snd]. intros [= <-]. auto.
Qed.

Lemma growthPointAt_gap i :
  28 * msPerDay
  <= g_date (growthPointAt tza db now u (i - 1))
     - g_date (growthPointAt tza db now u i)
  <= 31 * msPerDay
  /\ monthEndBack tza now i
     = g_date (growthPointAt tza db now u (i - 1)) - msPerDay.
Proof.
  unfold growthPointAt, monthStartBack, monthEndBack, newDate, UTC.
  cbn [g_date].
  set (y := fullYear _). set (m := getMonth tza now).
  pose proof (MakeDay_month_length y (m - i)) as H.
  replace (m - (i - 1)) with (m - i + 1) by lia.
  rewrite (MakeDay_date y (m - i + 1) 0). unfold msPerDay. lia.
Qed.

Lemma growthPointAt_current :
  g_date (growthPointAt tza db now u 0) = startOfMonth tza now
  /\ monthEndBack tza now 0 = endOfMonth tza now.
Proof.
  unfold growthPointAt, monthStartBack, monthEndBack, startOfMonth,
    endOfMonth.
  cbn [g_date]. now rewrite Z.sub_0_r.
Qed.

Lemma growthPointAt_counts i :
  g_total (growthPointAt tza db now u i)
  = totalAt db u (monthEndBack tza now i)
  /\ g_active (growthPointAt tza db now u i)
     = activeAt db u (monthEndBack tza now i)
  /\ g_churned (growthPointAt tza db now u i)
     = churnedBy db u (monthEndBack tza now i)
  /\ g_month (growthPointAt tza db now u i)
     = isoMonth (g_date (growthPointAt tza db now u i)).
Proof. unfold growthPointAt. cbn. auto. Qed.
End GrowthMonth.

Lemma monthEndBack_increasing tza now i :
  monthEndBack tza now i <= monthEndBack tza now (i - 1).
Proof.
  unfold monthEndBack, newDate, UTC.
  set (y := fullYear _). set (m := getMonth tza now).
  pose proof (MakeDay_month_length y (m - i + 1)) as H.
  replace (m - (i - 1) + 1) with (m - i + 1 + 1) by lia.
  rewrite (MakeDay_date y (m - i + 1) 0), (MakeDay_date y (m - i + 1 + 1) 0).
  unfold msPerDay. lia.
Qed.

Lemma filter_length_le {A} (f g : A -> bool) (l : list A) :
  (forall a, In a l -> f a = true -> g a = true) ->
  (length (List.filter f l) <= length (List.filter g l))%nat.
Proof.
  induction l as [|a l IH]; intros H; [simpl; lia|].
  assert (IH' := IH (fun x Hx => H x (or_intror Hx))).
  pose proof (H a (or_introl eq_refl)) as Ha.
  cbn [List.filter]. destruct (f a).
  - rewrite Ha by reflexivity. simpl. lia.
  - destruct (g a); simpl; lia.
Qed.

Lemma filter_length_disjoint {A} (f1 f2 g : A -> bool) (l : list A) :
  (forall a, In a l -> f1 a = true -> g a = true /\ f2 a = false) ->
  (forall a, In a l -> f2 a = true -> g a = true) ->
  (length (List.filter f1 l) + length (List.filter f2 l)
   <= length (List.filter g l))%nat.
Proof.
  induction l as [|a l IH]; intros H1 H2; [simpl; lia|].
  assert (IH' := IH (fun x Hx => H1 x (or_intror Hx))
                    (fun x Hx => H2 x (or_intror Hx))).
  pose proof (H1 a (or_introl eq_refl)) as Ha1.
  pose proof (H2 a (or_introl eq_refl)) as Ha2.
  cbn [List.filter]. destruct (f1 a).
  - destruct (Ha1 eq_refl) as [-> ->]. simpl. lia.
  - destruct (f2 a).
    + rewrite Ha2 by reflexivity. simpl. lia.
    + destruct (g a); simpl; lia.
Qed.

Lemma counts_monotone db u cutoff cutoff' :
  cutoff <= cutoff' ->
  (totalAt db u cutoff <= totalAt db u cutoff')%nat
  /\ (activeAt db u cutoff <= activeAt db u cutoff')%nat
  /\ (churnedBy db u cutoff <= churnedBy db u cutoff')%nat.
Proof.
  intros Hle. unfold totalAt, activeAt, churnedBy.
  split; [|split]; apply filter_length_le; intros c _ Hc.
  - apply andb_true_iff in Hc as [-> Hs]. simpl.
    apply Z.leb_le in Hs. apply Z.leb_le. lia.
  - apply andb_true_iff in Hc as [-> Hs]. simpl.
    apply Z.leb_le in Hs. apply Z.leb_le. lia.
  - apply andb_true_iff in Hc as [-> Hs]. simpl.
    destruct (churnDate c) as [d|]; [|discriminate].
    apply Z.leb_le in Hs. apply Z.leb_le. lia.
Qed.

Lemma active_le_total db u cutoff :
  (activeAt db u cutoff <= totalAt db u cutoff)%nat.
Proof.
  unfold activeAt, totalAt. apply filter_length_le. intros c _ Hc.
  apply andb_true_iff in Hc as [Ha ->]. unfold isActive in Ha.
  apply andb_true_iff in Ha as [-> _]. reflexivity.
Qed.

Lemma active_churned_le_total db u cutoff :
  churnAfterSubscription db u ->
  (activeAt db u cutoff + churnedBy db u cutoff <= totalAt db u cutoff)%nat.
Proof.
  intros Hcs. unfold activeAt, churnedBy, totalAt.
  apply filter_length_disjoint.
  - intros c _ Hc. apply andb_true_iff in Hc as [Ha ->]. unfold isActive in Ha.
    apply andb_true_iff in Ha as [-> Hs]. split; [reflexivity|].
    apply Status_eqb_spec in Hs. rewrite <- Hs. reflexivity.
  - intros c Hin Hc. apply andb_true_iff in Hc as [Hc Hd].
    apply andb_true_iff in Hc as [Hu _]. rewrite Hu. simpl.
    destruct (churnDate c) as [d|] eqn:Ed; [|discriminate].
    apply String.eqb_eq in Hu. symmetry in Hu.
    pose proof (Hcs c d Hin Hu Ed). apply Z.leb_le in Hd. apply Z.leb_le. lia.
Qed.

(** X12. A [getCustomerGrowth] that finds no valid entry and returns has
    computed, and cached under its key, one element for each of the last
    [months] calendar months, oldest first ([] when [months] is below 1).
    The last one is for the month of the call.  Each [date] is the first
    midnight of a month, a month after that of the element before, and
    [month] is the start of its ISO string.  The counts of a month are taken
    at the midnight that opens its last day: [total] counts the account's
    customers with [subscriptionDate] up to it, [active] those of them that
    are active now, [churned] the churned customers with [churnDate] up to
    it. *)
Theorem getCustomerGrowth_series tza db now u months cache data :
  valid now (cache !! seriesKey "customer_growth" u months) = false ->
  (getCustomerGrowth tza db now u months cache).1 = Ok data ->
  length data = Z.to_nat months
  /\ Forall (fun p => g_month p = isoMonth (g_date p)) data
  /\ (forall p, last data = Some p ->
        g_date p = startOfMonth tza now
        /\ g_total p = totalAt db u (endOfMonth tza now)
        /\ g_active p = activeAt db u (endOfMonth tza now)
        /\ g_churned p = churnedBy db u (endOfMonth tza now))
  /\ (forall k p q, data !! k = Some p -> data !! S k = Some q ->
        28 * msPerDay <= g_date q - g_date p <= 31 * msPerDay
        /\ g_total p = totalAt db u (g_date q - msPerDay)
        /\ g_active p = activeAt db u (g_date q - msPerDay)
        /\ g_churned p = churnedBy db u (g_date q - msPerDay))
  /\ (getCustomerGrowth tza db now u months cache).2
     = <[seriesKey "customer_growth" u months
         := {| data := data; timestamp := now |}]> cache.
Proof.
  intros Hv H.
  destruct (getCustomerGrowth_Ok_map tza db now u months cache data Hv H)
    as [-> Hcache].
  split; [|split; [|split; [|split; [|exact Hcache]]]].
  - rewrite length_map. unfold loopIndices. apply length_countDown.
  - apply List.Forall_forall. intros p Hp.
    apply in_map_iff in Hp as (i & <- & _).
    apply (growthPointAt_counts tza db now u i).
  - intros p Hp. apply loop_last in Hp as ->.
    destruct (growthPointAt_current tza db now u) as [Hd He].
    destruct (growthPointAt_counts tza db now u 0) as (Ht & Ha & Hc & _).
    rewrite Hd, Ht, Ha, Hc, He. split; [|split; [|split]]; reflexivity.
  - intros k p q Hp Hq.
    destruct (loop_next _ _ _ _ _ Hp Hq) as (i & -> & ->).
    destruct (growthPointAt_gap tza db now u i) as [Hgap Hend].
    destruct (growthPointAt_counts tza db now u i) as (Ht & Ha & Hc & _).
    rewrite Ht, Ha, Hc, Hend.
    split; [exact Hgap|]. split; [|split]; reflexivity.
Qed.

(** X13. In the series that [getCustomerGrowth] computes, no month has more
    active customers than customers; the three counts never decrease from a
    month to the next; and when no customer of the account has a churn date
    before its subscription date, [active + churned <= total] in every
    month. *)
Theorem getCustomerGrowth_counts tza db now u months cache data :
  valid now (cache !! seriesKey "customer_growth" u months) = false ->
  (getCustomerGrowth tza db now u months cache).1 = Ok data ->
  Forall (fun p => (g_active p <= g_total p)%nat) data
  /\ (forall k p q, data !! k = Some p -> data !! S k = Some q ->
        (g_total p <= g_total q)%nat /\ (g_active p <= g_active q)%nat
        /\ (g_churned p <= g_churned q)%nat)
  /\ (churnAfterSubscription db u ->
      Forall (fun p => (g_active p + g_churned p <= g_total p)%nat) data).
Proof.
  intros Hv H.
  destruct (getCustomerGrowth_Ok_map tza db now u months cache data Hv H)
    as [-> _].
  split; [|split].
  - apply List.Forall_forall. intros p Hp.
    apply in_map_iff in Hp as (i & <- & _).
    destruct (growthPointAt_counts tza db now u i) as (-> & -> & _).
    apply active_le_total.
  - intros k p q Hp Hq.
    destruct (loop_next _ _ _ _ _ Hp Hq) as (i & -> & ->).
    destruct (growthPointAt_counts tza db now u i) as (-> & -> & -> & _).
    destruct (growthPointAt_counts tza db now u (i - 1)) as (-> & -> & -> & _).
    apply counts_monotone. apply monthEndBack_increasing.
  - intros Hcs. apply List.Forall_forall. intros p Hp.
    apply in_map_iff in Hp as (i & <- & _).
    destruct (growthPointAt_counts tza db now u i) as (-> & -> & -> & _).
    now apply active_churned_le_total.
Qed.

(** X14. [getCustomerGrowth] returns whenever the store answers its
    queries, three for each month, and so always when [months] is below 1.
    What it throws is the error the store raised on one of these queries,
    and then the cache is as it was: no part of the series is kept. *)
Theorem getCustomerGrowth_errors tza db now u months cache :
  (answers db (growthQueries tza now u months) ->
   exists data, (getCustomerGrowth tza db now u months cache).1 = Ok data)
  /\ (months < 1 ->
      exists data, (getCustomerGrowth tza db now u months cache).1 = Ok data)
  /\ (forall e,
        (getCustomerGrowth tza db now u months cache).1 = Err e ->
        (exists q, In q (growthQueries tza now u months)
                   /\ fault db q = Some e)
        /\ (getCustomerGrowth tza db now u months cache).2 = cache).
Proof.
  assert (Hans : answers db (growthQueries tza now u months) ->
    exists data, (getCustomerGrowth tza db now u months cache).1 = Ok data).
  { intros Hans. unfold getCustomerGrowth, getCachedOrCompute, computeAndStore.
    destruct (cache !! seriesKey "customer_growth" u months) as [x|];
      [destruct (now - timestamp x <? cacheTimeout); [cbn [fst]; eauto|]|].
    all: destruct (forEach (loopIndices months) _ cache) as [[d|e] c'] eqn:E;
           [cbn [fst]; eauto | exfalso].
    all: apply forEach_pure_Err in E;
           [|intros a c r c2; apply (customerGrowthMonth_cache tza db now u)].
    all: destruct E as (_ & i & c & Hin & Herr).
    all: apply (customerGrowthMonth_Err tza db now u) in Herr as (q & Hq & Hf).
    all: unfold answers, growthQueries in Hans;
         rewrite List.Forall_forall in Hans.
    all: rewrite (Hans q) in Hf; [discriminate|].
    all: apply in_flat_map; eauto. }
  split; [exact Hans|]. split.
  - intros Hm. apply Hans. unfold growthQueries, loopIndices.
    replace (Z.to_nat months) with 0%nat by lia. constructor.
  - intros e. unfold getCustomerGrowth, getCachedOrCompute, computeAndStore.
    destruct (cache !! seriesKey "customer_growth" u months) as [x|];
      [destruct (now - timestamp x <? cacheTimeout); [discriminate|]|].
    all: destruct (forEach (loopIndices months) _ cache) as [[d|e'] c'] eqn:E;
           [discriminate|].
    all: cbn [fst snd]; intros [= ->].
    all: apply forEach_pure_Err in E;
           [|intros a c r c2; apply (customerGrowthMonth_cache tza db now u)].
    all: destruct E as (-> & i & c & Hin & Herr).
    all: apply (customerGrowthMonth_Err tza db now u) in Herr as (q & Hq & Hf).
    all: split; [|reflexivity].
    all: exists q; split; [|exact Hf].
    all: unfold growthQueries; apply in_flat_map; eauto.
Qed.

(** ** The series of snapshots *)

Lemma monthStartBack_gap tza now i :
  28 * msPerDay <= monthStartBack tza now (i - 1) - monthStartBack tza now i
  <= 31 * msPerDay.
Proof.
  unfold monthStartBack, newDate, UTC.
  set (y := fullYear _). set (m := getMonth tza now).
  pose proof (MakeDay_month_length y (m - i)) as H.
  replace (m - (i - 1)) with (m - i + 1) by lia. unfold msPerDay. lia.
Qed.

Lemma monthStartBack_current tza now :
  monthStartBack tza now 0 = startOfMonth tza now.
Proof. unfold monthStartBack, startOfMonth. now rewrite Z.sub_0_r. Qed.

Lemma getAllMetrics_raised tza db now u date cache e :
  (getAllMetrics tza db now u date cache).1 = Err e ->
  raised db (allQueries tza u date) e.
Proof.
  intros H. apply getAllMetrics_Err_inv in H as (c & H).
  assert (Hm : incl (mrrQueries tza u date) (allQueries tza u date))
    by (unfold allQueries; intros q Hq; rewrite !in_app_iff; auto).
  assert (Hc : incl (churnQueries tza u date) (allQueries tza u date))
    by (unfold allQueries; intros q Hq; rewrite !in_app_iff; auto).
  assert (Hk : incl (cacQueries tza u date) (allQueries tza u date))
    by (unfold allQueries; intros q Hq; rewrite !in_app_iff; auto).
  destruct H as [H|[H|[H|[H|H]]]].
  - eapply raised_incl; [exact Hm | eapply calculateMRR_Err, H].
  - eapply raised_incl; [exact Hm | eapply calculateARR_Err, H].
  - eapply raised_incl; [exact Hc | eapply calculateChurnRate_Err, H].
  - eapply calculateLTV_Err, H.
  - eapply raised_incl; [exact Hk | eapply calculateCAC_Err, H].
Qed.

Lemma getAllMetrics_consistent tza db now u date cache r cache' :
  getAllMetrics tza db now u date cache = (Ok r, cache') ->
  consistentMetrics r.
Proof.
  intros H. apply getAllMetrics_Ok in H.
  destruct H as (m & a & ch & l & k & c1 & c2 & c3 & c4
                 & E1 & E2 & _ & _ & _ & ->).
  rewrite (calculateARR_of_MRR _ _ _ _ _ _ _ _ E1) in E2.
  injection E2 as <- _.
  unfold consistentMetrics. simpl.
  repeat (split; [apply withGrowth_formula|]). auto.
Qed.

Section HistoricalMonth.
Variables (tza : Z) (db : Db) (now : Z) (u : string).

Lemma historicalMonth_Ok i c p c' :
  historicalMonth tza db now u i c = (Ok p, c') ->
  h_date p = monthStartBack tza now i
  /\ h_month p = isoMonth (h_date p)
  /\ getAllMetrics tza db now u (h_date p) c = (Ok (h_metrics p), c').
Proof.
  unfold historicalMonth, bind, ret, monthStartBack.
  destruct (getAllMetrics _ _ _ _ _ c) as [[r|e] c1] eqn:E; [|discriminate].
  intros [= <- <-]. cbn [h_date h_month h_metrics]. auto.
Qed.

Lemma historicalMonth_Err i c e :
  (historicalMonth tza db now u i c).1 = Err e ->
  raised db (allQueries tza u (monthStartBack tza now i)) e.
Proof.
  unfold historicalMonth, bind, ret, monthStartBack. intros H.
  apply (getAllMetrics_raised tza db now u _ c).
  destruct (getAllMetrics _ _ _ _ _ c) as [[r|e'] c1]; [discriminate|].
  cbn [fst] in *. now injection H as ->.
Qed.

Lemma historicalData_Ok months cache data cache' :
  historicalData tza db now u months cache = (Ok data, cache') ->
  map h_date data = map (monthStartBack tza now) (loopIndices months)
  /\ Forall (fun p =>
       h_month p = isoMonth (h_date p)
       /\ exists c c',
            getAllMetrics tza db now u (h_date p) c = (Ok (h_metrics p), c'))
       data.
Proof.
  unfold historicalData. intros H. apply forEach_Ok_inv in H.
  induction H as [|i p l data (c & c' & Hp) _ [IH1 IH2]].
  - split; constructor.
  - apply historicalMonth_Ok in Hp as (Hd & Hm & Hg).
    split; [cbn [map]; now rewrite Hd, IH1|].
    constructor; [|exact IH2]. split; [exact Hm|]. eauto.
Qed.
End HistoricalMonth.

Lemma getCachedOrComputeSeries_invalid {V} now key (f : M Metric V) cache :
  valid now (cache.2 !! key) = false ->
  getCachedOrComputeSeries now key f cache
  = match f cache.1 with
    | (Ok d, metrics') =>
        (Ok d, (metrics',
                <[key := {| data := d; timestamp := now |}]> cache.2))
    | (Err e, metrics') => (Err e, (metrics', cache.2))
    end.
Proof.
  intros Hv. unfold getCachedOrComputeSeries.
  destruct (cache.2 !! key) as [e|]; [|reflexivity].
  simpl in Hv. now rewrite Hv.
Qed.

(** The series part of the [Map] under [getCachedOrComputeSeries] is what
    [getCachedOrCompute] makes of it, with the outcome of the compute
    function on the metrics. *)
Lemma getCachedOrComputeSeries_getCachedOrCompute {V} now key
    (f : M Metric V) cache :
  (getCachedOrComputeSeries now key f cache).1
  = (getCachedOrCompute now key (lift (f cache.1).1) cache.2).1
  /\ (getCachedOrComputeSeries now key f cache).2.2
     = (getCachedOrCompute now key (lift (f cache.1).1) cache.2).2.
Proof.
  unfold getCachedOrComputeSeries, getCachedOrCompute, computeAndStore, lift.
  destruct (cache.2 !! key) as [e|];
    [destruct (now - timestamp e <? cacheTimeout); [auto|]|];
    destruct (f cache.1) as [[d|err] m']; auto.
Qed.

(** X15. A [getHistoricalData] that finds no valid entry and returns has
    computed, and cached under its key, one snapshot for each of the last
    [months] calendar months, oldest first ([] when [months] is below 1),
    the last one for the month of the call.  Each [date] is the first
    midnight of a month, a month after that of the snapshot before; [month]
    is the start of its ISO string; and the metrics are what
    [getAllMetrics] returned for that [date]: each has the growth of the
    generic formula, and the ARR is twelve times the MRR. *)
Theorem getHistoricalData_series tza db now u months cache data :
  valid now (cache.2 !! seriesKey "historical" u months) = false ->
  (getHistoricalData tza db now u months cache).1 = Ok data ->
  length data = Z.to_nat months
  /\ Forall (fun p =>
       h_month p = isoMonth (h_date p)
       /\ (exists c c',
             getAllMetrics tza db now u (h_date p) c
             = (Ok (h_metrics p), c'))
       /\ consistentMetrics (h_metrics p)) data
  /\ (forall p, last data = Some p -> h_date p = startOfMonth tza now)
  /\ (forall k p q, data !! k = Some p -> data !! S k = Some q ->
        28 * msPerDay <= h_date q - h_date p <= 31 * msPerDay)
  /\ (getHistoricalData tza db now u months cache).2.2
     = <[seriesKey "historical" u months
         := {| data := data; timestamp := now |}]> cache.2.
Proof.
  intros Hv. unfold getHistoricalData.
  rewrite getCachedOrComputeSeries_invalid by exact Hv.
  destruct (historicalData tza db now u months cache.1) as [[d|e] m'] eqn:E;
    [|discriminate].
  simpl. intros [= ->].
  destruct (historicalData_Ok _ _ _ _ _ _ _ _ E) as [Hdates Hall].
  assert (Hlook : forall k p, data !! k = Some p ->
            map (monthStartBack tza now) (loopIndices months) !! k
            = Some (h_date p)).
  { intros k p Hp. rewrite <- Hdates, list_lookup_fmap, Hp. reflexivity. }
  split; [|split; [|split; [|split; [|reflexivity]]]].
  - rewrite <- (length_map h_date), Hdates, length_map.
    unfold loopIndices. apply length_countDown.
  - eapply List.Forall_impl; [|exact Hall].
    intros p (Hm & c & c' & Hg). split; [exact Hm|].
    split; [eauto|]. exact (getAllMetrics_consistent _ _ _ _ _ _ _ _ Hg).
  - intros p Hp. rewrite last_lookup in Hp. apply Hlook in Hp.
    rewrite <- (length_map h_date), Hdates, <- last_lookup in Hp.
    apply loop_last in Hp. rewrite Hp. apply monthStartBack_current.
  - intros k p q Hp Hq. apply Hlook in Hp, Hq.
    destruct (loop_next _ _ _ _ _ Hp Hq) as (i & -> & ->).
    apply monthStartBack_gap.
Qed.

Lemma historicalQueries_month tza db now u months i :
  answers db (historicalQueries tza now u months) ->
  In i (loopIndices months) ->
  answers db (allQueries tza u
    (newDate tza (getFullYear tza now) (getMonth tza now - i) 1)).
Proof.
  intros Hans Hi. unfold answers, historicalQueries in *.
  rewrite List.Forall_forall in *. intros q Hq. apply Hans.
  apply in_flat_map. exists i. split; [exact Hi | exact Hq].
Qed.

Lemma historicalData_returns tza db now u months :
  answers db (historicalQueries tza now u months) ->
  accountPopulated db u ->
  forall cache,
    exists data, (historicalData tza db now u months cache).1 = Ok data.
Proof.
  intros Hans Hp. unfold historicalData. apply forEach_returns.
  intros i Hi c.
  pose proof (historicalQueries_month tza db now u months i Hans Hi) as Hi'.
  destruct (getAllMetrics_answered tza db now u _ c Hi' Hp) as (r & Hr).
  apply result_pair in Hr.
  unfold historicalMonth, bind. rewrite Hr. cbn [fst ret]. eauto.
Qed.

Lemma keeps_keys_historicalData tza db now u months :
  keeps_keys (historicalData tza db now u months).
Proof.
  unfold historicalData. apply keeps_keys_forEach. intros i.
  unfold historicalMonth.
  apply keeps_keys_bind; [apply keeps_keys_getAllMetrics|].
  intros r. apply keeps_keys_ret.
Qed.


(** ** The metrics that a series leaves in the cache *)

Lemma getCachedOrCompute_Ok_entry {V} now key (f : M V V) cache d cache' :
  getCachedOrCompute now key f cache = (Ok d, cache') ->
  exists e, cache' !! key = Some e /\ data e = d
            /\ now - timestamp e < cacheTimeout.
Proof.
  unfold getCachedOrCompute, computeAndStore.
  assert (Hnow : now - now < cacheTimeout) by (unfold cacheTimeout; lia).
  destruct (cache !! key) as [e|] eqn:He;
    [destruct (now - timestamp e <? cacheTimeout) eqn:Hv|].
  - intros [= <- <-]. apply Z.ltb_lt in Hv. eauto.
  - destruct (f cache) as [[x|err] c1]; [|discriminate].
    intros [= <- <-]. eexists. split; [apply lookup_insert_eq|]. auto.
  - destruct (f cache) as [[x|err] c1]; [|discriminate].
    intros [= <- <-]. eexists. split; [apply lookup_insert_eq|]. auto.
Qed.

(** An invariant that storing a value with the time of the call keeps is
    kept by every call. *)
Section InsertClosed.
Variables (tza : Z) (db : Db) (now : Z) (u : string) (date : Z).
Variable I : gmap string (Entry Metric) -> Prop.
Hypothesis Hins : forall cache key d,
  I cache -> I (<[key := {| data := d; timestamp := now |}]> cache).

Lemma closed_getCachedOrCompute key (f : M Metric Metric) :
  maintains I (fun _ => True) f ->
  maintains I (fun _ => True) (getCachedOrCompute now key f).
Proof.
  intros Hf. apply maintains_getCachedOrCompute; auto.
Qed.

Lemma closed_calculateMRR :
  maintains I (fun _ => True) (calculateMRR tza db now u date).
Proof.
  unfold calculateMRR. apply closed_getCachedOrCompute.
  do 2 (apply maintains_bind with (P := fun _ => True);
        [now apply maintains_lift | intros ? _]).
  apply maintains_bind with (P := fun _ => True);
    [|intros ? _; now apply maintains_ret].
  unfold getPreviousMRR.
  apply maintains_bind with (P := fun _ => True);
    [now apply maintains_lift | intros ? _].
  now apply maintains_lift.
Qed.

Lemma closed_calculateARR :
  maintains I (fun _ => True) (calculateARR tza db now u date).
Proof.
  unfold calculateARR.
  eapply maintains_bind; [apply closed_calculateMRR|].
  intros m _. now apply maintains_ret.
Qed.

Lemma closed_calculateChurnRate :
  maintains I (fun _ => True) (calculateChurnRate tza db now u date).
Proof.
  unfold calculateChurnRate. apply closed_getCachedOrCompute.
  do 4 (apply maintains_bind with (P := fun _ => True);
        [now apply maintains_lift | intros ? _]).
  now apply maintains_ret.
Qed.

Lemma closed_calculateLTV :
  maintains I (fun _ => True) (calculateLTV tza db now u date).
Proof.
  unfold calculateLTV. apply closed_getCachedOrCompute.
  eapply maintains_bind; [apply closed_calculateChurnRate|]. intros cd _.
  eapply maintains_bind; [apply closed_calculateMRR|]. intros md _.
  do 2 (apply maintains_bind with (P := fun _ => True);
        [now apply maintains_lift | intros ? _]).
  now apply maintains_ret.
Qed.

Lemma closed_calculateCAC :
  maintains I (fun _ => True) (calculateCAC tza db now u date).
Proof.
  unfold calculateCAC. apply closed_getCachedOrCompute.
  apply maintains_bind with (P := fun _ => True);
    [now apply maintains_lift | intros ? _].
  now apply maintains_ret.
Qed.
End InsertClosed.

(** The aggregate keeps what each of its five calls keeps. *)
Lemma maintains_getAllMetrics_of (I : gmap string (Entry Metric) -> Prop)
    tza db now u date :
  maintains I (fun _ => True) (calculateMRR tza db now u date) ->
  maintains I (fun _ => True) (calculateARR tza db now u date) ->
  maintains I (fun _ => True) (calculateChurnRate tza db now u date) ->
  maintains I (fun _ => True) (calculateLTV tza db now u date) ->
  maintains I (fun _ => True) (calculateCAC tza db now u date) ->
  maintains I (fun _ => True) (getAllMetrics tza db now u date).
Proof.
  intros Hm Ha Hc Hl Hk. unfold getAllMetrics.
  apply maintains_bind with (P := fun _ => True).
  - eapply maintains_weaken;
      [|apply maintains_promiseAll with (Q := fun _ => True)].
    + auto.
    + repeat first [apply List.Forall_nil | apply List.Forall_cons];
        assumption.
  - intros results _.
    destruct results as [|? [|? [|? [|? [|? [|? ?]]]]]];
      first [now apply maintains_ret | now apply maintains_lift].
Qed.

Lemma fresh_getAllMetrics tza db now u date k e :
  now - timestamp e < cacheTimeout ->
  maintains (untouched k (Some e)) (fun _ => True)
    (getAllMetrics tza db now u date).
Proof.
  intros Hf. apply maintains_getAllMetrics_of.
  - now apply fresh_calculateMRR.
  - now apply fresh_calculateARR.
  - now apply fresh_calculateChurnRate.
  - now apply fresh_calculateLTV.
  - now apply fresh_calculateCAC.
Qed.

Lemma closed_getAllMetrics tza db now u date
    (I : gmap string (Entry Metric) -> Prop) :
  (forall cache key d,
     I cache -> I (<[key := {| data := d; timestamp := now |}]> cache)) ->
  maintains I (fun _ => True) (getAllMetrics tza db now u date).
Proof.
  intros Hins. apply maintains_getAllMetrics_of.
  - now apply closed_calculateMRR.
  - now apply closed_calculateARR.
  - now apply closed_calculateChurnRate.
  - now apply closed_calculateLTV.
  - now apply closed_calculateCAC.
Qed.

Lemma getAllMetrics_servedFrom tza db now u date cache r cache' :
  getAllMetrics tza db now u date cache = (Ok r, cache') ->
  servedFrom now u date r cache'.
Proof.
  intros H.
  destruct (getAllMetrics_Ok _ _ _ _ _ _ _ _ H)
    as (m & a & ch & l & k & c1 & c2 & c3 & c4
        & E1 & E2 & E3 & E4 & E5 & ->).
  assert (Ha := calculateARR_of_MRR _ _ _ _ _ _ _ _ E1).
  rewrite Ha in E2. injection E2 as <- <-.
  unfold calculateMRR in E1.
  destruct (getCachedOrCompute_Ok_entry _ _ _ _ _ _ E1) as (em & M1 & <- & Tm).
  fold (calculateMRR tza db now u date) in E1.
  pose proof E3 as E3'. unfold calculateChurnRate in E3'.
  destruct (getCachedOrCompute_Ok_entry _ _ _ _ _ _ E3') as (ec & C3 & <- & Tc).
  pose proof E4 as E4'. unfold calculateLTV in E4'.
  destruct (getCachedOrCompute_Ok_entry _ _ _ _ _ _ E4') as (el & L4 & <- & Tl).
  pose proof E5 as E5'. unfold calculateCAC in E5'.
  destruct (getCachedOrCompute_Ok_entry _ _ _ _ _ _ E5') as (ek & K5 & <- & Tk).
  clear E3' E4' E5'.
  assert (M3 : c3 !! cacheKey "mrr" u date = Some em).
  { pose proof (fresh_calculateChurnRate tza db now u date _ _ Tm c1 M1)
      as [Hx _]. now rewrite E3 in Hx. }
  assert (M4 : c4 !! cacheKey "mrr" u date = Some em).
  { pose proof (fresh_calculateLTV tza db now u date _ _ Tm c3 M3)
      as [Hx _]. now rewrite E4 in Hx. }
  assert (M5 : cache' !! cacheKey "mrr" u date = Some em).
  { pose proof (fresh_calculateCAC tza db now u date _ _ Tm c4 M4)
      as [Hx _]. now rewrite E5 in Hx. }
  assert (C4 : c4 !! cacheKey "churn" u date = Some ec).
  { pose proof (fresh_calculateLTV tza db now u date _ _ Tc c3 C3)
      as [Hx _]. now rewrite E4 in Hx. }
  assert (C5 : cache' !! cacheKey "churn" u date = Some ec).
  { pose proof (fresh_calculateCAC tza db now u date _ _ Tc c4 C4)
      as [Hx _]. now rewrite E5 in Hx. }
  assert (L5 : cache' !! cacheKey "ltv" u date = Some el).
  { pose proof (fresh_calculateCAC tza db now u date _ _ Tl c4 L4)
      as [Hx _]. now rewrite E5 in Hx. }
  exists em, ec, el, ek. auto 10.
Qed.

Lemma validStamped_insert now cache key d :
  validStamped now cache ->
  validStamped now (<[key := {| data := d; timestamp := now |}]> cache).
Proof.
  intros H k e. rewrite lookup_insert. case_decide.
  - intros [= <-] _. reflexivity.
  - apply H.
Qed.

Lemma allExpired_validStamped now cache :
  allExpired now cache -> validStamped now cache.
Proof.
  intros H key e He Hlt. specialize (H key). rewrite He in H. simpl in H.
  apply Z.ltb_ge in H. lia.
Qed.

Lemma servedFrom_hits tza db' now now' u date r cache :
  validStamped now cache -> servedFrom now u date r cache ->
  now' - now < cacheTimeout ->
  getAllMetrics tza db' now' u date cache = (Ok r, cache).
Proof.
  intros Hs (em & ec & el & ek & Hm & Hc & Hl & Hk & Tm & Tc & Tl & Tk & ->)
    Hnow.
  pose proof (Hs _ _ Hm Tm) as Sm. pose proof (Hs _ _ Hc Tc) as Sc.
  pose proof (Hs _ _ Hl Tl) as Sl. pose proof (Hs _ _ Hk Tk) as Sk.
  apply getAllMetrics_hits; try assumption; lia.
Qed.

Lemma forEach_Ok_post {A B} (P : B -> gmap string (Entry Metric) -> Prop)
    (l : list A) (body : A -> M Metric B) cache data cache' :
  (forall a c b c', body a c = (Ok b, c') -> P b c') ->
  (forall b a, maintains (P b) (fun _ => True) (body a)) ->
  forEach l body cache = (Ok data, cache') ->
  Forall (fun b => P b cache') data.
Proof.
  intros Hpost Hkeep. revert cache data cache'.
  induction l as [|a l IH]; intros cache data cache'.
  - simpl. unfold ret. intros [= <- _]. constructor.
  - cbn [forEach]. unfold bind.
    destruct (body a cache) as [[b|e] c1] eqn:Eb; [|discriminate].
    destruct (forEach l body c1) as [[bs|e] c2] eqn:El; [|discriminate].
    unfold ret. intros [= <- <-]. constructor; [|exact (IH _ _ _ El)].
    pose proof (maintains_forEach (P b) l body (fun x _ => Hkeep b x) c1
                  (Hpost _ _ _ _ Eb)) as [Hx _].
    now rewrite El in Hx.
Qed.

Lemma servedFrom_kept tza db now u date' date r :
  maintains (servedFrom now u date r) (fun _ => True)
    (getAllMetrics tza db now u date').
Proof.
  intros cache (em & ec & el & ek & Hm & Hc & Hl & Hk & Tm & Tc & Tl & Tk & Hr).
  split; [|auto].
  exists em, ec, el, ek.
  pose proof (fresh_getAllMetrics tza db now u date' _ _ Tm cache Hm) as [Xm _].
  pose proof (fresh_getAllMetrics tza db now u date' _ _ Tc cache Hc) as [Xc _].
  pose proof (fresh_getAllMetrics tza db now u date' _ _ Tl cache Hl) as [Xl _].
  pose proof (fresh_getAllMetrics tza db now u date' _ _ Tk cache Hk) as [Xk _].
  unfold untouched in *. auto 10.
Qed.

Lemma historicalData_servedFrom tza db now u months cache data cache' :
  historicalData tza db now u months cache = (Ok data, cache') ->
  Forall (fun p => servedFrom now u (h_date p) (h_metrics p) cache') data.
Proof.
  unfold historicalData.
  apply (forEach_Ok_post
           (fun p c => servedFrom now u (h_date p) (h_metrics p) c)).
  - intros i c p c'. unfold historicalMonth, bind.
    destruct (getAllMetrics tza db now u _ c) as [[r|e] c1] eqn:E;
      [|discriminate].
    unfold ret. intros [= <- <-]. cbn [h_date h_metrics].
    exact (getAllMetrics_servedFrom _ _ _ _ _ _ _ _ E).
  - intros p i. unfold historicalMonth.
    apply maintains_bind with (P := fun _ => True).
    + apply servedFrom_kept.
    + intros r _. now apply maintains_ret.
Qed.

Lemma historicalData_validStamped tza db now u months :
  maintains (validStamped now) (fun _ => True)
    (historicalData tza db now u months).
Proof.
  unfold historicalData. apply maintains_forEach. intros i _.
  unfold historicalMonth.
  apply maintains_bind with (P := fun _ => True).
  - apply closed_getAllMetrics. intros c key d. apply validStamped_insert.
  - intros r _. now apply maintains_ret.
Qed.

(** X17. After a [getHistoricalData] that computes its series while the
    cache holds no valid metric (a new service, or after [clearCache]), the
    aggregate of each month of the series is in the cache: for the next
    five minutes [getAllMetrics] for the [date] of a snapshot returns the
    metrics of that snapshot and leaves the cache as it is, whatever the
    store holds by then. *)
Theorem getHistoricalData_fills_cache tza db now u months cache data :
  allExpired now cache.1 ->
  valid now (cache.2 !! seriesKey "historical" u months) = false ->
  (getHistoricalData tza db now u months cache).1 = Ok data ->
  forall p db' now',
    In p data -> now' - now < cacheTimeout ->
    getAllMetrics tza db' now' u (h_date p)
      (getHistoricalData tza db now u months cache).2.1
    = (Ok (h_metrics p), (getHistoricalData tza db now u months cache).2.1).
Proof.
  intros Hexp Hv. unfold getHistoricalData.
  rewrite getCachedOrComputeSeries_invalid by exact Hv.
  pose proof (historicalData_validStamped tza db now u months cache.1
                (allExpired_validStamped _ _ Hexp)) as [Hst _].
  destruct (historicalData tza db now u months cache.1) as [[d|e] m'] eqn:E;
    [|discriminate].
  cbn [fst snd] in *. intros [= ->] p db' now' Hp Hnow.
  pose proof (historicalData_servedFrom _ _ _ _ _ _ _ _ E) as Hall.
  rewrite List.Forall_forall in Hall.
  apply (servedFrom_hits tza db' now now' u (h_date p));
    [exact Hst | now apply Hall | exact Hnow].
Qed.

(** ** The methods of the models *)

Lemma annualPrice_monthly p :
  (annualPrice p ≈ getMonthlyPrice p * of_Z 12)%num.
Proof.
  unfold annualPrice, getMonthlyPrice.
  destruct (billingCycle p); simpl.
  - reflexivity.
  - field.
  - field.
Qed.

Lemma customerAnnualPrice_monthly c :
  (customerAnnualPrice c == customerPrice c * inject_Z 12)%Q.
Proof.
  unfold customerAnnualPrice, customerPrice, normalizedPrice, annualPrice.
  destruct (plan c) as [p|]; [|reflexivity].
  destruct (billingCycle p); simpl; field.
Qed.

Lemma Qsum_annual customers :
  (Qsum (map customerAnnualPrice customers)
   == Qsum (map customerPrice customers) * inject_Z 12)%Q.
Proof.
  induction customers as [|c cs IH]; simpl; [reflexivity|].
  rewrite IH, customerAnnualPrice_monthly. ring.
Qed.


Lemma ceilDiv_spec a b :
  0 < b -> (ceilDiv a b - 1) * b < a <= ceilDiv a b * b.
Proof.
  intros Hb. unfold ceilDiv.
  pose proof (Z.div_mod (- a) b ltac:(lia)) as Hdm.
  pose proof (Z.mod_pos_bound (- a) b Hb) as Hr.
  nia.
Qed.

(** X19. [getDaysOverdue()] is 0 exactly for a payment that is not overdue
    (any payment that is not pending, and a pending one until its due date
    has passed), provided the clock does not go back between the two times
    the method reads it.  For an overdue payment it is the number of days
    started since the due date: at least 1, and the least [d] with
    [later - dueDate <= d] days. *)
Theorem getDaysOverdue_spec (p : Payment.t) now later :
  now <= later ->
  (Payment.getDaysOverdue now later p = 0 <-> Payment.isOverdue now p = false)
  /\ (Payment.status p <> Payment.pending -> Payment.isOverdue now p = false)
  /\ (Payment.isOverdue now p = true ->
      1 <= Payment.getDaysOverdue now later p
      /\ (Payment.getDaysOverdue now later p - 1) * msPerDay
         < later - Payment.dueDate p
         <= Payment.getDaysOverdue now later p * msPerDay).
Proof.
  intros Hclock.
  assert (Hover : Payment.isOverdue now p = true ->
    1 <= Payment.getDaysOverdue now later p
    /\ (Payment.getDaysOverdue now later p - 1) * msPerDay
       < later - Payment.dueDate p
       <= Payment.getDaysOverdue now later p * msPerDay).
  { intros H. unfold Payment.getDaysOverdue. rewrite H. cbn [negb].
    unfold Payment.isOverdue in H. apply andb_true_iff in H as [_ Hd].
    apply Z.ltb_lt in Hd.
    pose proof (ceilDiv_spec (later - Payment.dueDate p)
                  (1000 * 60 * 60 * 24) ltac:(lia)) as Hc.
    change (1000 * 60 * 60 * 24) with msPerDay in *. unfold msPerDay in *.
    lia. }
  split; [|split; [|exact Hover]].
  - split.
    + intros H0. destruct (Payment.isOverdue now p) eqn:E; [|reflexivity].
      destruct (Hover eq_refl) as [H1 _]. lia.
    + intros H. unfold Payment.getDaysOverdue. now rewrite H.
  - intros Hs. unfold Payment.isOverdue.
    destruct (Payment.status p); try reflexivity. congruence.
Qed.

(** X20. [ageInMonths] is the number of periods of thirty days started
    between the subscription and the churn (or the time of the call, for a
    customer that has not churned): never negative, 0 only when the two
    dates coincide, and the same whichever of the two dates comes first.
    For a customer with a churn date it does not depend on the time of the
    call. *)
Theorem ageInMonths_spec (c : Customer) now :
  let endDate := match churnDate c with Some d => d | None => now end in
  let period := 30 * msPerDay in
  0 <= ageInMonths now c
  /\ (ageInMonths now c = 0 <-> endDate = subscriptionDate c)
  /\ (ageInMonths now c - 1) * period
     < Z.abs (endDate - subscriptionDate c)
     <= ageInMonths now c * period
  /\ (forall d now', churnDate c = Some d ->
        ageInMonths now' c = ageInMonths now c).
Proof.
  intros endDate period.
  pose proof (ceilDiv_spec (Z.abs (endDate - subscriptionDate c))
                (1000 * 60 * 60 * 24 * 30) ltac:(lia)) as Hc.
  assert (Hage : ageInMonths now c
                 = ceilDiv (Z.abs (endDate - subscriptionDate c))
                     (1000 * 60 * 60 * 24 * 30)) by reflexivity.
  rewrite <- Hage in Hc.
  change (1000 * 60 * 60 * 24 * 30) with period in Hc.
  assert (Hp : period = 2592000000) by reflexivity.
  split; [lia|]. split; [split; lia|]. split; [exact Hc|].
  intros d now' Hd. unfold ageInMonths. now rewrite Hd.
Qed.

(** ** More properties at concrete inputs *)

Lemma answers_healthy customers qs : answers (healthy customers) qs.
Proof. apply List.Forall_forall. intros q _. reflexivity. Qed.

(** One customer subscribed in February 2024, with an acquisition cost of
    30: the CAC of February is 30. *)
Lemma calculateCAC_formula_witness :
  exists m,
    (calculateCAC utc growthDb feb15 acct feb15 ∅).1 = Ok m
    /\ (current m ≈ Fin 30)%num /\ previous m = Fin 0 /\ growth m = Fin 0.
Proof.
  destruct (proj1 (calculateCAC_formula utc growthDb feb15 acct feb15 ∅))
    as (m & H & Hcur & Hp & Hg & _).
  - reflexivity.
  - vm_compute. reflexivity.
  - exists m. rewrite H. split; [reflexivity|]. split; [|split; assumption].
    destruct (current m) as [q| | |]; simpl in Hcur |- *; try contradiction.
    rewrite Hcur. vm_compute. reflexivity.
Defined.

Lemma costsWithin_growthDb : costsWithin growthDb acct 30.
Proof.
  intros c q Hin _ Hq. simpl in Hin.
  destruct Hin as [<-|[<-|[<-|[<-|[]]]]]; injection Hq as <-;
    split; vm_compute; discriminate.
Qed.


Lemma accountPopulated_growthDb : accountPopulated growthDb acct.
Proof. apply plansPopulated_account. vm_compute. reflexivity. Qed.


Lemma nonNegativePrices_growthDb : nonNegativePrices growthDb acct.
Proof.
  intros c p Hin _ Hp. simpl in Hin.
  destruct Hin as [<-|[<-|[<-|[<-|[]]]]]; injection Hp as <-;
    vm_compute; discriminate.
Qed.


Lemma no_active_customers_zero_witness :
  exists r,
    (getAllMetrics utc leftDb feb15 acct feb15 ∅).1 = Ok r
    /\ (current (mrr r) ≈ Fin 0)%num /\ (previous (mrr r) ≈ Fin 0)%num
    /\ growth (mrr r) = Fin 0
    /\ (current (arr r) ≈ Fin 0)%num /\ (previous (arr r) ≈ Fin 0)%num
    /\ growth (arr r) = Fin 0.
Proof.
  apply no_active_customers_zero.
  - apply answers_healthy.
  - intros c Hin. simpl in Hin. destruct Hin as [<-|[]]. vm_compute.
    reflexivity.
  - vm_compute. reflexivity.
Defined.

Lemma sameAccount_stranger :
  sameAccount acct growthDb (healthy (stranger :: docs growthDb)).
Proof. split; [vm_compute; reflexivity | intros q _; reflexivity]. Qed.

(** A customer of another account changes nothing for the account. *)
Lemma results_depend_on_own_documents_witness :
  let db' := healthy (stranger :: docs growthDb) in
  getAllMetrics utc growthDb feb15 acct feb15 ∅
  = getAllMetrics utc db' feb15 acct feb15 ∅.
Proof.
  intros db'.
  exact (proj1 (results_depend_on_own_documents utc growthDb db' feb15 acct
                  sameAccount_stranger) feb15 ∅).
Defined.

Lemma other_accounts_entries_untouched_witness :
  let cache := after utc growthDb feb15 (CallAllMetrics acct feb15) ∅ in
  (getAllMetrics utc (healthy [stranger]) feb15 otherAcct feb15 cache).2
    !! cacheKey "mrr" acct feb15
  = cache !! cacheKey "mrr" acct feb15.
Proof.
  intros cache.
  apply (proj1 (other_accounts_entries_untouched utc (healthy [stranger])
                  feb15 acct otherAcct (cacheKey "mrr" acct feb15)
                  ltac:(exists "mrr"%string, feb15; split;
                          [simpl; auto | reflexivity])
                  ltac:(discriminate))).
Defined.

Lemma getAllMetrics_repeats_witness :
  let r := valueOr noMetrics
             (getAllMetrics utc growthDb feb15 acct feb15 ∅).1 in
  let cache := (getAllMetrics utc growthDb feb15 acct feb15 ∅).2 in
  getAllMetrics utc brokenDb (feb15 + hms 0 4 59) acct (ymd 2024 2 1) cache
  = (Ok r, cache).
Proof.
  intros r cache.
  apply (getAllMetrics_repeats utc growthDb feb15 acct feb15 ∅ r);
    vm_compute; reflexivity.
Defined.

Lemma utc_key_determines_month_witness :
  calculateMRR 0 growthDb feb15 acct (ymd 2024 2 1)
  = calculateMRR 0 growthDb feb15 acct feb15.
Proof.
  apply (utc_key_determines_month growthDb feb15 acct feb15 (ymd 2024 2 1)).
  - vm_compute. split; discriminate.
  - vm_compute. reflexivity.
Defined.

(** With an offset the key does not determine the month: two hours east of
    UTC the last hour of January (in UTC) is a date of February, so its MRR
    counts the customer that subscribed in February, and is cached under
    the key of January. *)
Example offset_key_names_another_month :
  isoMonth jan31late = isoMonth jan15
  /\ Num.eqb (current (valueOr (metric 0 0 0)
        (calculateMRR utcPlus2 growthDb feb15 acct jan31late ∅).1)) (Fin 300)
     = true
  /\ Num.eqb (current (valueOr (metric 0 0 0)
        (calculateMRR utcPlus2 growthDb feb15 acct jan15 ∅).1)) (Fin 200)
     = true.
Proof. vm_compute. auto. Qed.

Lemma previous_is_current_of_month_before_witness :
  let m := valueOr (metric 1 1 1)
             (calculateMRR utc growthDb feb15 acct feb15 ∅).1 in
  let m' := valueOr (metric 2 2 2)
              (calculateMRR utc growthDb feb15 acct jan15 ∅).1 in
  (previous m ≈ current m')%num.
Proof.
  intros m m'.
  assert (E : (calculateMRR utc growthDb feb15 acct feb15 ∅).1 = Ok m)
    by (vm_compute; reflexivity).
  assert (E' : (calculateMRR utc growthDb feb15 acct jan15 ∅).1 = Ok m')
    by (vm_compute; reflexivity).
  assert (S : startOfMonth utc jan15 = prevMonth utc feb15)
    by (vm_compute; reflexivity).
  apply (proj1 (previous_is_current_of_month_before utc growthDb acct
                  feb15 jan15 feb15 ∅ feb15 ∅ S) m m');
    try (vm_compute; reflexivity); assumption.
Defined.

(** The month before January 2024 is December 2023. *)
Lemma prevMonth_is_calendar_month_witness :
  getFullYear utc (prevMonth utc jan15) = 2023
  /\ getMonth utc (prevMonth utc jan15) = 11
  /\ startOfMonth utc (prevMonthEnd utc jan15) = prevMonth utc jan15.
Proof.
  assert (Y : 100 < getFullYear utc jan15) by (vm_compute; reflexivity).
  destruct (prevMonth_is_calendar_month utc jan15 Y) as (Hy & Hm & Hs & _).
  rewrite Hy, Hm. split; [vm_compute; reflexivity|].
  split; [vm_compute; reflexivity | exact Hs].
Defined.

(** The customer counts of the example account for December 2023 to
    February 2024: the customer that left in January is counted as churned
    from January on, and the one that subscribed in February from February
    on. *)
Example getCustomerGrowth_three_months :
  map (fun p => (g_month p, g_total p, g_active p, g_churned p))
    (valueOr [] (getCustomerGrowth utc growthDb feb15 acct 3 ∅).1)
  = [("2023-12"%string, 3%nat, 2%nat, 0%nat);
     ("2024-01"%string, 3%nat, 2%nat, 1%nat);
     ("2024-02"%string, 4%nat, 3%nat, 1%nat)].
Proof. vm_compute. reflexivity. Qed.

Lemma getCustomerGrowth_series_witness :
  let data := valueOr [] (getCustomerGrowth utc growthDb feb15 acct 3 ∅).1 in
  length data = 3%nat
  /\ (forall p, last data = Some p -> g_date p = startOfMonth utc feb15).
Proof.
  intros data.
  assert (E : (getCustomerGrowth utc growthDb feb15 acct 3 ∅).1 = Ok data)
    by (vm_compute; reflexivity).
  assert (V : valid feb15
                ((∅ : gmap string (Entry (list GrowthPoint)))
                 !! seriesKey "customer_growth" acct 3)
              = false) by (vm_compute; reflexivity).
  pose proof (getCustomerGrowth_series utc growthDb feb15 acct 3 ∅ data V E)
    as H.
  destruct H as (Hlen & _ & Hlast & _).
  split; [exact Hlen|]. intros p Hp. now apply Hlast.
Defined.

Lemma churnAfterSubscription_growthDb : churnAfterSubscription growthDb acct.
Proof.
  intros c d Hin _ Hd. simpl in Hin.
  destruct Hin as [<-|[<-|[<-|[<-|[]]]]]; try discriminate Hd;
    injection Hd as <-; vm_compute; discriminate.
Qed.

Lemma getCustomerGrowth_counts_witness :
  let data := valueOr [] (getCustomerGrowth utc growthDb feb15 acct 3 ∅).1 in
  Forall (fun p => (g_active p + g_churned p <= g_total p)%nat) data.
Proof.
  intros data.
  assert (E : (getCustomerGrowth utc growthDb feb15 acct 3 ∅).1 = Ok data)
    by (vm_compute; reflexivity).
  assert (V : valid feb15
                ((∅ : gmap string (Entry (list GrowthPoint)))
                 !! seriesKey "customer_growth" acct 3)
              = false) by (vm_compute; reflexivity).
  pose proof (getCustomerGrowth_counts utc growthDb feb15 acct 3 ∅ data V E)
    as H.
  destruct H as (_ & _ & H). exact (H churnAfterSubscription_growthDb).
Defined.

(** A store that fails on every query: no series, and nothing cached. *)
Lemma getCustomerGrowth_errors_witness :
  let down := {| docs := []; fault := fun _ => Some (DbError "down") |} in
  (getCustomerGrowth utc down feb15 acct 3 ∅).2 = ∅
  /\ exists data, (getCustomerGrowth utc down feb15 acct 0 ∅).1 = Ok data.
Proof.
  intros down.
  assert (E : (getCustomerGrowth utc down feb15 acct 3 ∅).1
              = Err (DbError "down")) by (vm_compute; reflexivity).
  pose proof (getCustomerGrowth_errors utc down feb15 acct 3 ∅) as H3.
  pose proof (getCustomerGrowth_errors utc down feb15 acct 0 ∅) as H0.
  destruct H3 as (_ & _ & H3). destruct H0 as (_ & H0 & _).
  split; [exact (proj2 (H3 _ E)) | apply H0; lia].
Defined.

(** The MRR of the example account in the snapshots of January and February
    2024. *)
Example getHistoricalData_two_months :
  map (fun p => (h_month p,
                 Num.eqb (current (mrr (h_metrics p))) (Fin 200),
                 Num.eqb (current (mrr (h_metrics p))) (Fin 300)))
    (valueOr [] (getHistoricalData utc growthDb feb15 acct 2 (∅, ∅)).1)
  = [("2024-01"%string, true, false); ("2024-02"%string, false, true)].
Proof. vm_compute. reflexivity. Qed.

Lemma getHistoricalData_series_witness :
  let data :=
    valueOr [] (getHistoricalData utc growthDb feb15 acct 2 (∅, ∅)).1 in
  length data = 2%nat
  /\ Forall (fun p => consistentMetrics (h_metrics p)) data.
Proof.
  intros data.
  assert (E : (getHistoricalData utc growthDb feb15 acct 2 (∅, ∅)).1
              = Ok data)
    by (vm_compute; reflexivity).
  assert (V : valid feb15
                ((∅ : gmap string (Entry Metric),
                  ∅ : gmap string (Entry (list HistoricalPoint))).2
                 !! seriesKey "historical" acct 2)
              = false) by (vm_compute; reflexivity).
  pose proof (getHistoricalData_series utc growthDb feb15 acct 2 (∅, ∅) data
                V E) as H.
  destruct H as (Hlen & Hall & _).
  split; [exact Hlen|].
  eapply List.Forall_impl; [|exact Hall]. intros p (_ & _ & H). exact H.
Defined.


Lemma getHistoricalData_fills_cache_witness :
  let out := getHistoricalData utc growthDb feb15 acct 2 (∅, ∅) in
  let january :=
    valueOr noMetrics
      (getAllMetrics utc growthDb feb15 acct (ymd 2024 1 1) ∅).1 in
  let p := {| h_month := "2024-01"; h_date := ymd 2024 1 1;
              h_metrics := january |} in
  getAllMetrics utc brokenDb (feb15 + hms 0 1 0) acct (h_date p) out.2.1
  = (Ok (h_metrics p), out.2.1).
Proof.
  intros out january p.
  assert (X : allExpired feb15
                (∅ : gmap string (Entry Metric),
                 ∅ : gmap string (Entry (list HistoricalPoint))).1)
    by (intros key; reflexivity).
  assert (V : valid feb15
                ((∅ : gmap string (Entry Metric),
                  ∅ : gmap string (Entry (list HistoricalPoint))).2
                 !! seriesKey "historical" acct 2)
              = false) by (vm_compute; reflexivity).
  assert (E : out.1 = Ok (valueOr [] out.1)) by (vm_compute; reflexivity).
  assert (Hp : In p (valueOr [] out.1)) by (vm_compute; left; reflexivity).
  assert (T : feb15 + hms 0 1 0 - feb15 < cacheTimeout)
    by (vm_compute; reflexivity).
  exact (getHistoricalData_fills_cache utc growthDb feb15 acct 2 (∅, ∅)
           (valueOr [] out.1) X V E p brokenDb (feb15 + hms 0 1 0) Hp T).
Defined.


(** Due on the first of February, read at noon of the fifteenth: fifteen
    days overdue. *)
Lemma getDaysOverdue_spec_witness :
  Payment.getDaysOverdue feb15 (feb15 + 2) lateInvoice = 15
  /\ 1 <= Payment.getDaysOverdue feb15 (feb15 + 2) lateInvoice.
Proof.
  split; [vm_compute; reflexivity|].
  apply (getDaysOverdue_spec lateInvoice feb15 (feb15 + 2)).
  - lia.
  - vm_compute. reflexivity.
Defined.

(** Subscribed on the fifth of November 2023 and read at noon of the
    fifteenth of February 2024: the fourth period of thirty days has
    started. *)
Lemma ageInMonths_spec_witness :
  let c := subscriber monthly100 (ymd 2023 11 5) in
  ageInMonths feb15 c = 4 /\ 0 <= ageInMonths feb15 c.
Proof.
  intros c. split; [vm_compute; reflexivity|].
  exact (proj1 (ageInMonths_spec c feb15)).
Defined.

(** ** The kinds of keys *)

(** X21. The keys of the three kinds of entries never coincide: no key of
    a metric is a key of [getHistoricalData] or of [getCustomerGrowth], for
    any accounts, dates and numbers of months, and no key of one series is
    a key of the other.  So no call overwrites, or reads, an entry of
    another kind. *)
Theorem key_kinds_disjoint name u date u' months u'' months' :
  In name metricNames ->
  cacheKey name u date <> seriesKey "historical" u' months
  /\ cacheKey name u date <> seriesKey "customer_growth" u' months
  /\ seriesKey "historical" u' months
     <> seriesKey "customer_growth" u'' months'.
Proof.
  unfold metricNames. cbn [In].
  intros [<-|[<-|[<-|[<-|[]]]]]; unfold cacheKey, seriesKey;
    cbn [String.append]; (split; [|split]); discriminate.
Qed.

Lemma key_kinds_disjoint_witness :
  cacheKey "cac" acct feb15 <> seriesKey "customer_growth" acct 12.
Proof.
  apply (key_kinds_disjoint "cac" acct feb15 acct 12 acct 12).
  unfold metricNames. cbn [In]. auto.
Defined.
